(** * chairvise-backend: the CSV analyzers

    A shallow embedding of the three analyzers of the parser module
    ([getAuthorInfo], [getReviewInfo], [getSubmissionInfo]) together with the
    part of the JavaScript run-time they use, and the properties of the
    specification stated over it.

    Conventions of the embedding.
    - A JavaScript string is a Rocq [string]; each character stands for one
      code unit (code units above 255 are not represented).
    - A JavaScript number is an exact rational extended with NaN and the two
      infinities ([JS.number]).  The rounding of IEEE doubles is not
      modelled, nor the overflow of a large value to an infinity or the
      underflow of a small one to zero, and negative zero is identified
      with zero.
    - A thrown exception is the [Throw] case of [JS.Result].
    - Papa.parse, Buffer.toString and the printing of non-integral numbers
      belong to the platform; they are Section variables, so every theorem
      holds for whatever they compute. *)

From Stdlib Require Import List String Ascii ZArith QArith Qround Qabs Lia Bool
  Permutation Sorted DecimalString PeanoNat OrdersEx.
Import ListNotations.

Set Implicit Arguments.

(* ================================================================= *)
(** ** JavaScript numbers *)

Module JS.

Local Open Scope string_scope.

Inductive number : Type :=
| NaN
| PInf
| NInf
| Fin (q : Q).

(** Finite results are kept in lowest terms, so that equal numbers are equal
    terms. *)
Definition fin (q : Q) : number := Fin (Qred q).
Definition ofZ (z : Z) : number := Fin (inject_Z z).
Definition ofNat (n : nat) : number := ofZ (Z.of_nat n).

Definition isPos (q : Q) : bool := (0 <? Qnum q)%Z.
Definition isNeg (q : Q) : bool := (Qnum q <? 0)%Z.
Definition isZero (q : Q) : bool := (Qnum q =? 0)%Z.

(** [a + b] on numbers. *)
Definition add (a b : number) : number :=
  match a, b with
  | NaN, _ | _, NaN => NaN
  | PInf, NInf | NInf, PInf => NaN
  | PInf, _ | _, PInf => PInf
  | NInf, _ | _, NInf => NInf
  | Fin x, Fin y => fin (x + y)
  end.

(** The sign of an infinite product or quotient. *)
Definition signedInf (negative : bool) : number :=
  if negative then NInf else PInf.

(** [a * b] on numbers. *)
Definition mul (a b : number) : number :=
  match a, b with
  | NaN, _ | _, NaN => NaN
  | Fin x, Fin y => fin (x * y)
  | Fin x, PInf | PInf, Fin x =>
      if isZero x then NaN else signedInf (isNeg x)
  | Fin x, NInf | NInf, Fin x =>
      if isZero x then NaN else signedInf (isPos x)
  | PInf, PInf | NInf, NInf => PInf
  | PInf, NInf | NInf, PInf => NInf
  end.

(** [a / b] on numbers: 0/0 is NaN, a non-zero number over zero is an
    infinity, nothing throws. *)
Definition div (a b : number) : number :=
  match a, b with
  | NaN, _ | _, NaN => NaN
  | Fin x, Fin y =>
      if isZero y
      then (if isZero x then NaN else signedInf (isNeg x))
      else fin (x / y)
  | Fin _, (PInf | NInf) => Fin 0
  | PInf, Fin y => signedInf (isNeg y)
  | NInf, Fin y => signedInf (negb (isNeg y))
  | (PInf | NInf), (PInf | NInf) => NaN
  end.

(** [Math.min(a, b)]. *)
Definition min (a b : number) : number :=
  match a, b with
  | NaN, _ | _, NaN => NaN
  | NInf, _ | _, NInf => NInf
  | PInf, x | x, PInf => x
  | Fin x, Fin y => if Qle_bool x y then Fin x else Fin y
  end.

(** Whether a number is an array index (an integer in [0, 2^32 - 2]). *)
Definition arrayIndex (n : number) : option nat :=
  match n with
  | Fin q =>
      let q' := Qred q in
      if (Zpos (Qden q') =? 1)%Z && (0 <=? Qnum q')%Z && (Qnum q' <? 4294967295)%Z
      then Some (Z.to_nat (Qnum q'))
      else None
  | _ => None
  end.

(* ================================================================= *)
(** ** JavaScript strings *)

Definition code (c : ascii) : Z := Z.of_N (N_of_ascii c).
Definition ofCode (z : Z) : ascii := ascii_of_N (Z.to_N z).

Definition CR : ascii := ofCode 13.
Definition LF : ascii := ofCode 10.

(** WhiteSpace and LineTerminator code units (below 256). *)
Definition isWhite (c : ascii) : bool :=
  let n := code c in
  ((9 <=? n) && (n <=? 13) || (n =? 32) || (n =? 160))%Z.

Definition isLineBreak (c : ascii) : bool :=
  let n := code c in ((n =? 10) || (n =? 13))%Z.

Fixpoint strRev (s acc : string) : string :=
  match s with
  | EmptyString => acc
  | String c r => strRev r (String c acc)
  end.

Fixpoint trimStart (s : string) : string :=
  match s with
  | EmptyString => EmptyString
  | String c r => if isWhite c then trimStart r else s
  end.

(** [s.trim()]. *)
Definition trim (s : string) : string :=
  strRev (trimStart (strRev (trimStart s) EmptyString)) EmptyString.

(** [s.toLowerCase()], on the Latin-1 code units. *)
Definition lowerChar (c : ascii) : ascii :=
  let n := code c in
  if ((65 <=? n) && (n <=? 90)
      || (192 <=? n) && (n <=? 222) && negb (n =? 215))%Z
  then ofCode (n + 32) else c.

Fixpoint toLowerCase (s : string) : string :=
  match s with
  | EmptyString => EmptyString
  | String c r => String (lowerChar c) (toLowerCase r)
  end.

Fixpoint drop (n : nat) (s : string) : string :=
  match n, s with
  | O, _ => s
  | S k, String _ r => drop k r
  | S _, EmptyString => EmptyString
  end.

(** [s.indexOf(c)] for a one-character pattern; -1 when absent. *)
Fixpoint indexOfFrom (c : ascii) (s : string) (i : Z) : Z :=
  match s with
  | EmptyString => (-1)%Z
  | String d r => if Ascii.eqb d c then i else indexOfFrom c r (i + 1)%Z
  end.

Definition indexOf (s : string) (c : ascii) : Z := indexOfFrom c s 0%Z.

(** [s.substring(start)]: a negative start counts as 0, a start past the
    end gives the empty string. *)
Definition substring (s : string) (start : Z) : string :=
  drop (Z.to_nat (Z.max 0 start)) s.

(** [a < b] on strings: the order of the code units. *)
Definition ltb (a b : string) : bool :=
  match String_as_OT.compare a b with
  | Lt => true
  | _ => false
  end.

(** The first piece gets one more character in front. *)
Definition consHead (c : ascii) (l : list string) : list string :=
  match l with
  | h :: t => String c h :: t
  | [] => [String c EmptyString]
  end.

(** [s.split(sep)] for a non-empty string separator.  [skip] counts the
    characters of a separator just matched that are still to be passed. *)
Fixpoint splitFrom (sep s : string) (skip : nat) : list string :=
  match s with
  | EmptyString => [EmptyString]
  | String c r =>
      match skip with
      | S k => splitFrom sep r k
      | O =>
          if String.prefix sep s
          then EmptyString :: splitFrom sep r (String.length sep - 1)
          else consHead c (splitFrom sep r 0)
      end
  end.

Definition split (s sep : string) : list string := splitFrom sep s 0.

(** [s.split(/[\r\n]+/)]: cut at every maximal run of line breaks. *)
Fixpoint splitLinesFrom (s : string) (inRun : bool) : list string :=
  match s with
  | EmptyString => [EmptyString]
  | String c r =>
      if isLineBreak c
      then (if inRun then splitLinesFrom r true
            else EmptyString :: splitLinesFrom r true)
      else consHead c (splitLinesFrom r false)
  end.

Definition splitLines (s : string) : list string := splitLinesFrom s false.

(** [s.replace(pat, rep)] with a string pattern: the first occurrence only. *)
Fixpoint replace (s pat rep : string) : string :=
  match s with
  | EmptyString => if String.eqb pat EmptyString then rep else EmptyString
  | String c r =>
      if String.prefix pat s
      then rep ++ drop (String.length pat) s
      else String c (replace r pat rep)
  end.

(* ================================================================= *)
(** ** Printing and reading numbers *)

Definition printNat (z : Z) : string :=
  NilZero.string_of_uint (N.to_uint (Z.to_N z)).

Definition printInt (z : Z) : string :=
  if (z <? 0)%Z then String "-" (printNat (- z)) else printNat z.

Definition tenTo (n : nat) : Z := (10 ^ Z.of_nat n)%Z.

Fixpoint zeros (n : nat) : string :=
  match n with
  | O => EmptyString
  | S k => String "0" (zeros k)
  end.

Section Printing.

(** Number::toString for the finite numbers that are not integers below
    10^21 in magnitude: the engine prints the shortest digits that read back
    as the same double.  Left to the platform. *)
Variable printFloat : Q -> string.

(** Number::toString(n) in radix 10. *)
Definition Number_toString (n : number) : string :=
  match n with
  | NaN => "NaN"
  | PInf => "Infinity"
  | NInf => "-Infinity"
  | Fin q =>
      let q' := Qred q in
      if (Zpos (Qden q') =? 1)%Z && (Z.abs (Qnum q') <? tenTo 21)%Z
      then printInt (Qnum q')
      else printFloat q'
  end.

(** The digits of [x.toFixed(f)] for a finite [0 <= a < 10^21]: the integer
    n nearest to a * 10^f (the larger one on a tie), written with a point
    before its last f digits. *)
Definition fixedDigits (a : Q) (f : nat) : string :=
  let n := Qfloor (a * inject_Z (tenTo f) + (1 # 2)) in
  let m := printNat n in
  match f with
  | O => m
  | S _ =>
      let m0 :=
        if (String.length m <=? f)%nat
        then zeros (f + 1 - String.length m) ++ m else m in
      let k := (String.length m0 - f)%nat in
      String.substring 0 k m0 ++ "." ++ drop k m0
  end.

(** [x.toFixed(f)]. *)
Definition toFixed (x : number) (f : nat) : string :=
  match x with
  | NaN => "NaN"
  | PInf => "Infinity"
  | NInf => "-Infinity"
  | Fin q =>
      let s := if isNeg q then "-" else "" in
      let a := Qabs q in
      if Qle_bool (inject_Z (tenTo 21)) a
      then s ++ Number_toString (Fin a)
      else s ++ fixedDigits a f
  end.

End Printing.

(** The value of a digit in a radix, when it is one. *)
Definition digitVal (radix : Z) (c : ascii) : option Z :=
  let n := code c in
  let d :=
    if ((48 <=? n) && (n <=? 57))%Z then (n - 48)%Z
    else if ((97 <=? n) && (n <=? 102))%Z then (n - 87)%Z
    else if ((65 <=? n) && (n <=? 70))%Z then (n - 55)%Z
    else (-1)%Z in
  if ((0 <=? d) && (d <? radix))%Z then Some d else None.

(** Reads the longest run of digits: its value, its length and the rest. *)
Fixpoint readDigits (radix : Z) (s : string) (acc : Z) (cnt : nat)
  : Z * nat * string :=
  match s with
  | EmptyString => (acc, cnt, EmptyString)
  | String c r =>
      match digitVal radix c with
      | Some d => readDigits radix r (acc * radix + d)%Z (S cnt)
      | None => (acc, cnt, s)
      end
  end.

Definition readSign (s : string) : bool * string :=
  match s with
  | String c r =>
      if Ascii.eqb c "+" then (false, r)
      else if Ascii.eqb c "-" then (true, r)
      else (false, s)
  | EmptyString => (false, s)
  end.

Definition signed (negative : bool) (q : Q) : number :=
  fin (if negative then - q else q).

(** A literal [0x..], [0o..] or [0b..] without its prefix. *)
Definition readRadix (radix : Z) (body : string) : number :=
  let '(v, cnt, rest) := readDigits radix body 0%Z 0%nat in
  if (0 <? cnt)%nat && String.eqb rest EmptyString then ofZ v else NaN.

(** StrDecimalLiteral: sign, then Infinity or digits with an optional
    fraction and an optional exponent. *)
Definition readDecimal (t : string) : number :=
  let '(neg, u) := readSign t in
  if String.eqb u "Infinity" then signedInf neg else
  let '(ip, n1, r1) := readDigits 10 u 0%Z 0%nat in
  let '(fp, n2, r2) :=
    match r1 with
    | String c r => if Ascii.eqb c "." then readDigits 10 r 0%Z 0%nat
                    else (0%Z, 0%nat, r1)
    | EmptyString => (0%Z, 0%nat, r1)
    end in
  if (n1 + n2 =? 0)%nat then NaN else
  let mant := (inject_Z ip + inject_Z fp / inject_Z (tenTo n2))%Q in
  match r2 with
  | EmptyString => signed neg mant
  | String c r3 =>
      if Ascii.eqb c "e" || Ascii.eqb c "E" then
        let '(eneg, r4) := readSign r3 in
        let '(ev, n3, r5) := readDigits 10 r4 0%Z 0%nat in
        if (0 <? n3)%nat && String.eqb r5 EmptyString
        then signed neg (mant * Qpower 10 (if eneg then - ev else ev))
        else NaN
      else NaN
  end.

(** StringToNumber: white space is trimmed, the empty string is 0, anything
    that is not a numeric literal is NaN.  A literal is read as its exact
    value, whatever its size. *)
Definition stringToNumber (s : string) : number :=
  let t := trim s in
  match t with
  | EmptyString => Fin 0
  | String c0 (String c1 body) =>
      if Ascii.eqb c0 "0" && (Ascii.eqb c1 "x" || Ascii.eqb c1 "X")
      then readRadix 16 body
      else if Ascii.eqb c0 "0" && (Ascii.eqb c1 "o" || Ascii.eqb c1 "O")
      then readRadix 8 body
      else if Ascii.eqb c0 "0" && (Ascii.eqb c1 "b" || Ascii.eqb c1 "B")
      then readRadix 2 body
      else readDecimal t
  | _ => readDecimal t
  end.

(* ================================================================= *)
(** ** Values, coercions and exceptions *)

(** The primitive values a parsed CSV field or an array slot can hold. *)
Inductive value : Type :=
| VUndef
| VNull
| VBool (b : bool)
| VNum (n : number)
| VStr (s : string).

(** ToNumber. *)
Definition toNumber (v : value) : number :=
  match v with
  | VUndef => NaN
  | VNull => Fin 0
  | VBool true => Fin 1
  | VBool false => Fin 0
  | VNum n => n
  | VStr s => stringToNumber s
  end.

Section Coercions.

Variable printFloat : Q -> string.

(** ToString; it is also the conversion of a value to a property key. *)
Definition toString (v : value) : string :=
  match v with
  | VUndef => "undefined"
  | VNull => "null"
  | VBool true => "true"
  | VBool false => "false"
  | VNum n => Number_toString printFloat n
  | VStr s => s
  end.

(** [a + b]: concatenation as soon as one side is a string, addition of
    numbers otherwise. *)
Definition plus (a b : value) : value :=
  match a, b with
  | VStr _, _ | _, VStr _ => VStr (toString a ++ toString b)
  | _, _ => VNum (add (toNumber a) (toNumber b))
  end.

End Coercions.

(** [a === b] against a string literal. *)
Definition strictEqStr (v : value) (s : string) : bool :=
  match v with
  | VStr t => String.eqb t s
  | _ => false
  end.

Inductive exn : Type :=
| TypeError.

Inductive Result (A : Type) : Type :=
| Ok (a : A)
| Throw (e : exn).

Arguments Ok {A} a.
Arguments Throw {A} e.

Definition bind {A B : Type} (c : Result A) (k : A -> Result B) : Result B :=
  match c with
  | Ok a => k a
  | Throw e => Throw e
  end.

(** [xs.map(f)] when [f] may throw: the first exception ends the loop. *)
Fixpoint mapM {A B : Type} (f : A -> Result B) (xs : list A)
  : Result (list B) :=
  match xs with
  | [] => Ok []
  | x :: r =>
      bind (f x) (fun y => bind (mapM f r) (fun ys => Ok (y :: ys)))
  end.

(** A left-to-right loop over a list with an accumulator. *)
Fixpoint foldM {A S : Type} (f : S -> A -> Result S) (xs : list A) (s : S)
  : Result S :=
  match xs with
  | [] => Ok s
  | x :: r => bind (f s x) (foldM f r)
  end.

(** [xs.reduce(f)] without an initial value: an empty array throws a
    TypeError, a one-element array returns its element untouched. *)
Definition reduce {A : Type} (f : A -> A -> A) (xs : list A) : Result A :=
  match xs with
  | [] => Throw TypeError
  | x :: r => Ok (fold_left f r x)
  end.

(** [v.split(sep)]: only a string has the method. *)
Definition splitOf (v : value) (sep : string) : Result (list string) :=
  match v with
  | VStr s => Ok (split s sep)
  | _ => Throw TypeError
  end.

(** [v.split(/[\r\n]+/)]. *)
Definition splitLinesOf (v : value) : Result (list string) :=
  match v with
  | VStr s => Ok (splitLines s)
  | _ => Throw TypeError
  end.

(** [xs[i]] on an array of strings: undefined past the end. *)
Definition item (xs : list string) (i : nat) : value :=
  match nth_error xs i with
  | Some s => VStr s
  | None => VUndef
  end.

End JS.

(* ================================================================= *)
(** ** Plain objects used as maps *)

Module Obj.

Local Open Scope string_scope.

(** The own enumerable properties of a plain object, in enumeration order:
    array-index keys first, in ascending numeric order, then the other keys
    in the order of their creation. *)
Definition t (A : Type) : Type := list (string * A).

Definition empty {A : Type} : t A := [].

(** The number a key stands for when it is a canonical array index. *)
Definition indexKey (k : string) : option Z :=
  let '(v, cnt, rest) := JS.readDigits 10 k 0%Z 0%nat in
  if (0 <? cnt)%nat && String.eqb rest EmptyString
     && String.eqb (JS.printNat v) k && (v <? 4294967295)%Z
  then Some v else None.

Section Operations.

Context {A : Type}.

Fixpoint get (k : string) (o : t A) : option A :=
  match o with
  | [] => None
  | (k', v) :: r => if String.eqb k' k then Some v else get k r
  end.

Definition keys (o : t A) : list string := List.map fst o.

(** Overwrites the value of a property that exists. *)
Fixpoint update (k : string) (v : A) (o : t A) : t A :=
  match o with
  | [] => []
  | (k', v') :: r =>
      if String.eqb k' k then (k', v) :: r else (k', v') :: update k v r
  end.

(** Places a new index key [k], of number [i], among the index keys. *)
Fixpoint insertIndex (i : Z) (k : string) (v : A) (o : t A) : t A :=
  match o with
  | [] => [(k, v)]
  | (k', v') :: r =>
      match indexKey k' with
      | Some j =>
          if (i <? j)%Z then (k, v) :: o else (k', v') :: insertIndex i k v r
      | None => (k, v) :: o
      end
  end.

(** Creates or overwrites an own property (Object.defineProperty, which
    is what lodash assigns with). *)
Definition define (k : string) (v : A) (o : t A) : t A :=
  match get k o with
  | Some _ => update k v o
  | None =>
      match indexKey k with
      | Some i => insertIndex i k v o
      | None => (o ++ [(k, v)])%list
      end
  end.

(** [o[k] = v] on an object literal.  Assigning to [__proto__] reaches the
    setter inherited from Object.prototype and creates no own property. *)
Definition set (k : string) (v : A) (o : t A) : t A :=
  if String.eqb k "__proto__" then o else define k v o.

End Operations.

End Obj.

(* ================================================================= *)
(** ** lodash *)

Module Lodash.

Section Collections.

Context {A : Type}.

(** The iteratee's result converted to a property key. *)
Variable key : A -> string.

(** The items of a list that fall under a key, in the order of the list. *)
Definition under (k : string) (xs : list A) : list A :=
  List.filter (fun x => String.eqb (key x) k) xs.

Definition countStep (o : Obj.t nat) (x : A) : Obj.t nat :=
  match Obj.get (key x) o with
  | Some c => Obj.update (key x) (S c) o
  | None => Obj.define (key x) 1%nat o
  end.

(** [_.countBy(xs, iteratee)]. *)
Definition countBy (xs : list A) : Obj.t nat :=
  fold_left countStep xs Obj.empty.

Definition groupStep (o : Obj.t (list A)) (x : A) : Obj.t (list A) :=
  match Obj.get (key x) o with
  | Some g => Obj.update (key x) (g ++ [x]) o
  | None => Obj.define (key x) [x] o
  end.

(** [_.groupBy(xs, iteratee)]. *)
Definition groupBy (xs : list A) : Obj.t (list A) :=
  fold_left groupStep xs Obj.empty.

End Collections.

(** [_.mapValues(o, f)]. *)
Definition mapValues {A B : Type} (f : A -> B) (o : Obj.t A) : Obj.t B :=
  List.map (fun kv => (fst kv, f (snd kv))) o.

End Lodash.

(* ================================================================= *)
(** ** The util module *)

Module Util.

(** Modelled from the spec: the module [./util] is not part of the sources.
    [sum] is the reducer of the spec's "numeric fold": it adds its two
    arguments as numbers. *)
Definition sum (a b : JS.value) : JS.value :=
  JS.VNum (JS.add (JS.toNumber a) (JS.toNumber b)).

(** Modelled from the spec: [fillRange(min, max, step)] is missing from the
    sources; the spec gives a distribution over [min, max] with step [step]
    one count per bucket ([-3,3] by 0.25: 24 buckets; [0,1] by 0.1: 10
    buckets), every count starting at zero. *)
Definition fillRange (min max step : Q) : list JS.value :=
  if JS.isZero step then []
  else repeat (JS.VNum (JS.Fin 0)) (Z.to_nat (Qfloor ((max - min) / step))).

Fixpoint insertByCount (x : string * nat) (l : list (string * nat))
  : list (string * nat) :=
  match l with
  | [] => [x]
  | y :: r =>
      if (snd x <? snd y)%nat then y :: insertByCount x r else x :: l
  end.

(** Modelled from the spec: [getSortedArrayFromMapUsingCount] is missing
    from the sources; the spec's [sortedByCountDesc] lists the (label,
    count) pairs of a frequency map by descending count, ties keeping the
    map's iteration order (a stable sort). *)
Fixpoint getSortedArrayFromMapUsingCount (m : Obj.t nat)
  : list (string * nat) :=
  match m with
  | [] => []
  | x :: r => insertByCount x (getSortedArrayFromMapUsingCount r)
  end.

Fixpoint insertByKey (x : string * nat) (l : list (string * nat))
  : list (string * nat) :=
  match l with
  | [] => [x]
  | y :: r =>
      if JS.ltb (fst y) (fst x) then y :: insertByKey x r else x :: l
  end.

(** Modelled from the spec: [getSortedArrayFromMapUsingKey] is missing from
    the sources; the spec's [sortedByKeyAsc] lists the (key, count) pairs
    of a frequency map by ascending key, strings compared
    lexicographically. *)
Fixpoint getSortedArrayFromMapUsingKey (m : Obj.t nat)
  : list (string * nat) :=
  match m with
  | [] => []
  | x :: r => insertByKey x (getSortedArrayFromMapUsingKey r)
  end.

End Util.

(* ================================================================= *)
(** ** Papa.parse and the shapes of the analyzers' results *)

Module Papa.

Record Config : Type :=
  { header : bool;
    dynamicTyping : bool;
    trimHeaders : bool;
    skipEmptyLines : bool }.

(** A parsed row: an object from column name to typed field. *)
Definition Row : Type := Obj.t JS.value.

Record ParseError : Type := { message : string }.

Record ParseResult : Type :=
  { data : list Row;
    errors : list ParseError }.

End Papa.

Notation "x <- c ;; k" := (JS.bind c (fun x => k))
  (at level 61, c at next level, right associativity).

Local Open Scope string_scope.

(** [row.k]: undefined when the row has no such column. *)
Definition prop (row : Papa.Row) (k : string) : JS.value :=
  match Obj.get k row with
  | Some v => v
  | None => JS.VUndef
  end.

(** The uploaded file handed over by the route. *)
Record File : Type := { buffer : list Byte.byte }.

(** What every analyzer returns. *)
Record Info (D : Type) : Type :=
  { infoType : string;
    infoData : D }.

(** One call of an analyzer: what it wrote with console.error and how it
    completed. *)
Record Run (A : Type) : Type :=
  { console : list (list Papa.ParseError);
    completion : JS.Result A }.

(** The bindings of the module that outlive a call. *)
Record ModuleState : Type := { papaConfig : Papa.Config }.

Definition initialModule : ModuleState :=
  {| papaConfig :=
       {| Papa.header := true;
          Papa.dynamicTyping := true;
          Papa.trimHeaders := true;
          Papa.skipEmptyLines := true |} |}.

(** [if (errors.length !== 0) console.error(..., errors)]. *)
Definition logErrors (errors : list Papa.ParseError)
  : list (list Papa.ParseError) :=
  if (List.length errors =? 0)%nat then [] else [errors].

Module Chart.
Record t : Type := { labels : list string; data : list nat }.
End Chart.

Record AuthorInfo : Type :=
  { topAuthors : Chart.t;
    topCountries : Chart.t;
    topAffiliations : Chart.t }.

Module Distribution.
Record t : Type := { labels : list JS.value; counts : list JS.value }.
End Distribution.

Record ReviewEntry : Type := { score : JS.number; recommend : JS.number }.

Record ReviewInfo : Type :=
  { IDReviewMap : Obj.t ReviewEntry;
    scoreList : list JS.number;
    meanScore : JS.number;
    meanConfidence : JS.number;
    recommendList : list JS.number;
    scoreDistribution : Distribution.t;
    recommendDistribution : Distribution.t }.

Module TopAuthors.
Record t : Type := { names : list string; counts : list nat }.
End TopAuthors.

Record Point : Type := { x : string; y : nat }.

Record Comparable : Type :=
  { year : list JS.number;
    FullPapers : list JS.number;
    ShortPapers : list JS.number }.

Record SubmissionInfo : Type :=
  { acceptanceRate : JS.number;
    overallKeywordMap : Obj.t nat;
    overallKeywordList : list (string * nat);
    acceptedKeywordMap : Obj.t nat;
    acceptedKeywordList : list (string * nat);
    rejectedKeywordMap : Obj.t nat;
    rejectedKeywordList : list (string * nat);
    keywordsByTrack : Obj.t (list (string * nat));
    acceptanceRateByTrack : Obj.t JS.number;
    topAcceptedAuthors : TopAuthors.t;
    topAuthorsByTrack : Obj.t TopAuthors.t;
    timeSeries : list Point;
    lastEditSeries : list Point;
    comparableAcceptanceRate : Comparable }.

(* ================================================================= *)
(** ** The analyzers *)

Module ReviewLoop.
(** The arrays and the map that the loop over the submissions fills. *)
Record t : Type :=
  { confidenceList : list JS.number;
    scoreList : list JS.number;
    recommendList : list JS.number;
    scoreDistributionCounts : list JS.value;
    recommendDistributionCounts : list JS.value;
    submissionIDReviewMap : Obj.t ReviewEntry }.
End ReviewLoop.

Module RowLoop.
(** The arrays that the loop over the submission rows fills. *)
Record t : Type :=
  { acceptedSubs : list Papa.Row;
    rejectedSubs : list Papa.Row;
    submissionTimes : list JS.value;
    lastUpdateTimes : list JS.value;
    acceptedKeywords : list string;
    rejectedKeywords : list string;
    allKeywords : list string;
    acceptedAuthorNames : list string }.
End RowLoop.

Module TrackLoop.
(** The maps that the loop over the tracks fills. *)
Record t : Type :=
  { keywordsByTrack : Obj.t (list (string * nat));
    acceptanceRateByTrack : Obj.t JS.number;
    topAuthorsByTrack : Obj.t TopAuthors.t;
    comparableAcceptanceRate : Comparable }.
End TrackLoop.

(** What one review contributes to its submission. *)
Record ReviewScores : Type :=
  { confidence : JS.value;
    weightedScore : JS.number;
    weightedRecommend : JS.number }.

Definition authorHeader : string :=
  "submissionId, firstName, lastName, email, country, affiliation, page, personId, corresponding"
  ++ String JS.CR EmptyString.

Definition reviewHeader : string :=
  "reviewId, paperId, reviewerId, reviewerName, unknown, text, scores, overallScore, unknown, unknown, unknown, unknown, date, time, recommend"
  ++ String JS.LF EmptyString.

Definition submissionHeader : string :=
  "submissionId, trackId, trackName, title, authors, submitTime, lastUpdateTime, formFields, keywords, decision, notified, reviewsSent, abstract"
  ++ String JS.CR EmptyString.

(** [header + content.substring(content.indexOf('\r') + 1)]. *)
Definition overrideHeader (fixedHeader content : string) : string :=
  fixedHeader ++ JS.substring content (JS.indexOf content JS.CR + 1).

(** [xs.push(x)]. *)
Definition push {A : Type} (xs : list A) (x : A) : list A := (xs ++ [x])%list.

(** [xs.push(...ys)]. *)
Definition pushAll {A : Type} (xs ys : list A) : list A := (xs ++ ys)%list.

Section Analyzers.

(** Number::toString away from the integers, Buffer.toString('utf8') and
    Papa.parse, as the platform provides them. *)
Variable printFloat : Q -> string.
Variable Buffer_toString : list Byte.byte -> string.
Variable Papa_parse : string -> Papa.Config -> Papa.ParseResult.

Definition toKey (v : JS.value) : string := JS.toString printFloat v.

(** *** getAuthorInfo *)

(** [firstName + ' ' + lastName]. *)
Definition authorName (row : Papa.Row) : JS.value :=
  JS.plus printFloat
    (JS.plus printFloat (prop row "firstName") (JS.VStr " "))
    (prop row "lastName").

Definition chartOf (sorted : list (string * nat)) : Chart.t :=
  {| Chart.labels := List.map fst sorted;
     Chart.data := List.map snd sorted |}.

(** The body of [getAuthorInfo] after the parse.  The array [authorList]
    is filled and never read; it is left out. *)
Definition getAuthorInfoOfData (data : list Papa.Row) : Info AuthorInfo :=
  let authors := List.map authorName data in
  let countries := List.map (fun row => prop row "country") data in
  let affiliations := List.map (fun row => prop row "affiliation") data in
  let authorCounts := Lodash.countBy toKey authors in
  let countryCounts := Lodash.countBy toKey countries in
  let affiliationCounts := Lodash.countBy toKey affiliations in
  let parsedResult :=
    {| topAuthors := chartOf (Util.getSortedArrayFromMapUsingCount authorCounts);
       topCountries :=
         chartOf (Util.getSortedArrayFromMapUsingCount countryCounts);
       topAffiliations :=
         chartOf (Util.getSortedArrayFromMapUsingCount affiliationCounts) |} in
  {| infoType := "author"; infoData := parsedResult |}.

Definition getAuthorInfo (file : File) (m : ModuleState)
  : Run (Info AuthorInfo) * ModuleState :=
  let content := Buffer_toString (buffer file) in
  let content := overrideHeader authorHeader content in
  let parsedContent := Papa_parse content (papaConfig m) in
  ({| console := logErrors (Papa.errors parsedContent);
      completion := JS.Ok (getAuthorInfoOfData (Papa.data parsedContent)) |},
   m).

(** *** getReviewInfo *)

(** [labels[i] = counts[i] + ' ~ ' + counts[i + 1]] for every i below
    length - 1. *)
Fixpoint distributionLabels (counts : list JS.value) : list JS.value :=
  match counts with
  | a :: ((b :: _) as r) =>
      JS.plus printFloat (JS.plus printFloat a (JS.VStr " ~ ")) b
      :: distributionLabels r
  | _ => []
  end.

(** The callback of the loop over the reviews of one submission.  The
    arrays [scores] and [recommends] are filled and never read; they are
    left out. *)
Definition readReview (review : Papa.Row) : JS.Result ReviewScores :=
  evaluation <- JS.splitLinesOf (prop review "scores") ;;
  p0 <- JS.splitOf (JS.item evaluation 0) ": " ;;
  let score := JS.item p0 1 in
  p1 <- JS.splitOf (JS.item evaluation 1) ": " ;;
  let confidence := JS.item p1 1 in
  recommend <-
    (if (2 <? List.length evaluation)%nat
     then p2 <- JS.splitOf (JS.item evaluation 2) ": " ;;
          JS.Ok (if JS.strictEqStr (JS.item p2 1) "yes"
                 then JS.Fin 1 else JS.Fin 0)
     else JS.Ok (JS.Fin 0)) ;;
  JS.Ok {| confidence := confidence;
           weightedScore := JS.mul (JS.toNumber score) (JS.toNumber confidence);
           weightedRecommend := JS.mul recommend (JS.toNumber confidence) |}.

(** [counts[column] += 1].  A column that is not an array index names an
    ordinary property: no element changes.  An index past the end extends
    the array, the new slot holding undefined + 1. *)
Definition incrementAt (counts : list JS.value) (column : JS.number)
  : list JS.value :=
  match JS.arrayIndex column with
  | Some i =>
      match nth_error counts i with
      | Some c =>
          (firstn i counts
           ++ JS.plus printFloat c (JS.VNum (JS.Fin 1)) :: skipn (S i) counts)%list
      | None =>
          (counts ++ repeat JS.VUndef (i - List.length counts)
           ++ [JS.plus printFloat JS.VUndef (JS.VNum (JS.Fin 1))])%list
      end
  | None => counts
  end.

(** [Math.min(value.toFixed(1), last)]. *)
Definition column (value last : JS.number) : JS.number :=
  JS.min (JS.stringToNumber (JS.toFixed printFloat value 1)) last.

Definition scoreColumnOf (totalWeightedScore : JS.number) : JS.number :=
  column (JS.div (JS.add totalWeightedScore (JS.Fin 3)) (JS.Fin (1 # 4)))
         (JS.Fin 23).

Definition recommendColumnOf (totalWeightedRecommend : JS.number) : JS.number :=
  column (JS.div totalWeightedRecommend (JS.Fin (1 # 10))) (JS.Fin 9).

(** What the loop computes for one submission: the average confidence,
    the weighted score and the weighted recommend. *)
Definition groupTotals (group : list Papa.Row)
  : JS.Result (JS.number * JS.number * JS.number) :=
  reviews <- JS.mapM readReview group ;;
  let confidences := List.map confidence reviews in
  let weightedScores :=
    List.map (fun r => JS.VNum (weightedScore r)) reviews in
  let weightedRecommends :=
    List.map (fun r => JS.VNum (weightedRecommend r)) reviews in
  confidenceSum <- JS.reduce Util.sum confidences ;;
  let averageConfidence :=
    JS.div (JS.toNumber confidenceSum) (JS.ofNat (List.length confidences)) in
  ws <- JS.reduce Util.sum weightedScores ;;
  let totalWeightedScore :=
    JS.div (JS.toNumber ws) (JS.toNumber confidenceSum) in
  wr <- JS.reduce Util.sum weightedRecommends ;;
  let totalWeightedRecommend :=
    JS.div (JS.toNumber wr) (JS.toNumber confidenceSum) in
  JS.Ok (averageConfidence, totalWeightedScore, totalWeightedRecommend).

(** The body of the loop over the submissions. *)
Definition reviewStep (acc : ReviewLoop.t) (entry : string * list Papa.Row)
  : JS.Result ReviewLoop.t :=
  let submissionId := fst entry in
  totals <- groupTotals (snd entry) ;;
  let '(averageConfidence, totalWeightedScore, totalWeightedRecommend) :=
    totals in
  let scoreColumn := scoreColumnOf totalWeightedScore in
  let recommendColumn := recommendColumnOf totalWeightedRecommend in
  JS.Ok
    {| ReviewLoop.confidenceList :=
         push (ReviewLoop.confidenceList acc) averageConfidence;
       ReviewLoop.scoreList :=
         push (ReviewLoop.scoreList acc) totalWeightedScore;
       ReviewLoop.recommendList :=
         push (ReviewLoop.recommendList acc) totalWeightedRecommend;
       ReviewLoop.scoreDistributionCounts :=
         incrementAt (ReviewLoop.scoreDistributionCounts acc) scoreColumn;
       ReviewLoop.recommendDistributionCounts :=
         incrementAt (ReviewLoop.recommendDistributionCounts acc)
                     recommendColumn;
       ReviewLoop.submissionIDReviewMap :=
         Obj.set submissionId
           {| score := totalWeightedScore;
              recommend := totalWeightedRecommend |}
           (ReviewLoop.submissionIDReviewMap acc) |}.

(** [xs.reduce(sum) / xs.length]. *)
Definition mean (xs : list JS.number) : JS.Result JS.number :=
  total <- JS.reduce Util.sum (List.map JS.VNum xs) ;;
  JS.Ok (JS.div (JS.toNumber total) (JS.ofNat (List.length xs))).

(** The body of [getReviewInfo] after the parse. *)
Definition getReviewInfoOfData (data : list Papa.Row)
  : JS.Result (Info ReviewInfo) :=
  let scoreDistributionCounts := Util.fillRange (-3) 3 (1 # 4) in
  let recommendDistributionCounts := Util.fillRange 0 1 (1 # 10) in
  let scoreDistributionLabels := distributionLabels scoreDistributionCounts in
  let recommendDistributionLabels :=
    distributionLabels recommendDistributionCounts in
  let reviewsGroupBySubmissionId :=
    Lodash.mapValues (fun g => g)
      (Lodash.groupBy (fun row => toKey (prop row "paperId")) data) in
  acc <- JS.foldM reviewStep reviewsGroupBySubmissionId
           {| ReviewLoop.confidenceList := [];
              ReviewLoop.scoreList := [];
              ReviewLoop.recommendList := [];
              ReviewLoop.scoreDistributionCounts := scoreDistributionCounts;
              ReviewLoop.recommendDistributionCounts :=
                recommendDistributionCounts;
              ReviewLoop.submissionIDReviewMap := Obj.empty |} ;;
  meanScore <- mean (ReviewLoop.scoreList acc) ;;
  meanConfidence <- mean (ReviewLoop.confidenceList acc) ;;
  let parsedResult :=
    {| IDReviewMap := ReviewLoop.submissionIDReviewMap acc;
       scoreList := ReviewLoop.scoreList acc;
       meanScore := meanScore;
       meanConfidence := meanConfidence;
       recommendList := ReviewLoop.recommendList acc;
       scoreDistribution :=
         {| Distribution.labels := scoreDistributionLabels;
            Distribution.counts := ReviewLoop.scoreDistributionCounts acc |};
       recommendDistribution :=
         {| Distribution.labels := recommendDistributionLabels;
            Distribution.counts :=
              ReviewLoop.recommendDistributionCounts acc |} |} in
  JS.Ok {| infoType := "review"; infoData := parsedResult |}.

Definition getReviewInfo (file : File) (m : ModuleState)
  : Run (Info ReviewInfo) * ModuleState :=
  let content := reviewHeader ++ Buffer_toString (buffer file) in
  let parsedContent := Papa_parse content (papaConfig m) in
  ({| console := logErrors (Papa.errors parsedContent);
      completion := getReviewInfoOfData (Papa.data parsedContent) |},
   m).

(** *** getSubmissionInfo *)

(** [row.keywords.split(/[\r\n]+/).map(x => x.toLowerCase())]. *)
Definition keywordsOf (row : Papa.Row) : JS.Result (list string) :=
  ks <- JS.splitLinesOf (prop row "keywords") ;;
  JS.Ok (List.map JS.toLowerCase ks).

(** [row.authors.replace(' and ', ',').split(',').map(x => x.trim())]. *)
Definition authorsOf (row : Papa.Row) : JS.Result (list string) :=
  match prop row "authors" with
  | JS.VStr s => JS.Ok (List.map JS.trim (JS.split (JS.replace s " and " ",") ","))
  | _ => JS.Throw JS.TypeError
  end.

(** [row.submitTime.split(' ')[0]]. *)
Definition submitDateOf (row : Papa.Row) : JS.Result JS.value :=
  parts <- JS.splitOf (prop row "submitTime") " " ;;
  JS.Ok (JS.item parts 0).

(** The callback of the loop over the rows.  The array [trackNames] is
    filled and never read; it is left out. *)
Definition rowStep (acc : RowLoop.t) (row : Papa.Row) : JS.Result RowLoop.t :=
  acc1 <-
    (if JS.strictEqStr (prop row "decision") "reject" then
       ks <- keywordsOf row ;;
       JS.Ok {| RowLoop.acceptedSubs := RowLoop.acceptedSubs acc;
                RowLoop.rejectedSubs := push (RowLoop.rejectedSubs acc) row;
                RowLoop.submissionTimes := RowLoop.submissionTimes acc;
                RowLoop.lastUpdateTimes := RowLoop.lastUpdateTimes acc;
                RowLoop.acceptedKeywords := RowLoop.acceptedKeywords acc;
                RowLoop.rejectedKeywords :=
                  pushAll (RowLoop.rejectedKeywords acc) ks;
                RowLoop.allKeywords := RowLoop.allKeywords acc;
                RowLoop.acceptedAuthorNames :=
                  RowLoop.acceptedAuthorNames acc |}
     else if JS.strictEqStr (prop row "decision") "accept" then
       ks <- keywordsOf row ;;
       names <- authorsOf row ;;
       JS.Ok {| RowLoop.acceptedSubs := push (RowLoop.acceptedSubs acc) row;
                RowLoop.rejectedSubs := RowLoop.rejectedSubs acc;
                RowLoop.submissionTimes := RowLoop.submissionTimes acc;
                RowLoop.lastUpdateTimes := RowLoop.lastUpdateTimes acc;
                RowLoop.acceptedKeywords :=
                  pushAll (RowLoop.acceptedKeywords acc) ks;
                RowLoop.rejectedKeywords := RowLoop.rejectedKeywords acc;
                RowLoop.allKeywords := RowLoop.allKeywords acc;
                RowLoop.acceptedAuthorNames :=
                  pushAll (RowLoop.acceptedAuthorNames acc) names |}
     else JS.Ok acc) ;;
  ks <- keywordsOf row ;;
  submitDate <- submitDateOf row ;;
  updateDate <- submitDateOf row ;;
  JS.Ok {| RowLoop.acceptedSubs := RowLoop.acceptedSubs acc1;
           RowLoop.rejectedSubs := RowLoop.rejectedSubs acc1;
           RowLoop.submissionTimes :=
             push (RowLoop.submissionTimes acc1) submitDate;
           RowLoop.lastUpdateTimes :=
             push (RowLoop.lastUpdateTimes acc1) updateDate;
           RowLoop.acceptedKeywords := RowLoop.acceptedKeywords acc1;
           RowLoop.rejectedKeywords := RowLoop.rejectedKeywords acc1;
           RowLoop.allKeywords := pushAll (RowLoop.allKeywords acc1) ks;
           RowLoop.acceptedAuthorNames := RowLoop.acceptedAuthorNames acc1 |}.

Definition topAuthorsOf (sorted : list (string * nat)) : TopAuthors.t :=
  {| TopAuthors.names := List.map fst sorted;
     TopAuthors.counts := List.map snd sorted |}.

(** The running total of the counts, one point per stamp. *)
Fixpoint cumulative (stamps : list (string * nat)) (count : nat)
  : list Point :=
  match stamps with
  | [] => []
  | element :: r =>
      let count := (count + snd element)%nat in
      {| x := fst element; y := count |} :: cumulative r count
  end.

(** The table of the past conferences, as written in the function. *)
Definition pastConferences : Comparable :=
  {| year := List.map JS.ofZ [2010; 2011; 2012; 2013; 2014; 2015; 2016; 2017; 2018]%Z;
     FullPapers :=
       List.map JS.fin [29 # 100; 28 # 100; 27 # 100; 29 # 100; 29 # 100;
                        30 # 100; 29 # 100; 30 # 100];
     ShortPapers :=
       List.map JS.fin [29 # 100; 37 # 100; 31 # 100; 31 # 100; 32 # 100;
                        50 # 100; 35 # 100; 32 # 100] |}.

(** The rows of a track that were accepted. *)
Definition acceptedIn (group : list Papa.Row) : list Papa.Row :=
  List.filter (fun row => JS.strictEqStr (prop row "decision") "accept") group.

(** [comparableAcceptanceRate[paperGroup].push(rate)] for the two tracks
    the table knows. *)
Definition pushComparable (paperGroup : string) (rate : JS.number)
  (table : Comparable) : Comparable :=
  if String.eqb paperGroup "Full Papers" then
    {| year := year table;
       FullPapers := push (FullPapers table) rate;
       ShortPapers := ShortPapers table |}
  else if String.eqb paperGroup "Short Papers" then
    {| year := year table;
       FullPapers := FullPapers table;
       ShortPapers := push (ShortPapers table) rate |}
  else table.

(** The body of the loop over the tracks. *)
Definition trackStep (acc : TrackLoop.t) (entry : string * list Papa.Row)
  : JS.Result TrackLoop.t :=
  let paperGroup := fst entry in
  let group := snd entry in
  perRow <-
    JS.mapM (fun row =>
               ks <- keywordsOf row ;;
               names <-
                 (if JS.strictEqStr (prop row "decision") "accept"
                  then authorsOf row else JS.Ok []) ;;
               JS.Ok (ks, names)) group ;;
  let currentGroupKeywords := List.concat (List.map fst perRow) in
  let acceptedAuthorsThisTrack := List.concat (List.map snd perRow) in
  let acceptedPapersThisTrack := acceptedIn group in
  let countedCurrentGroupKeywords :=
    Lodash.countBy (fun k => k) currentGroupKeywords in
  let acceptedAuthorsThisTrackCount :=
    Lodash.countBy (fun k => k) acceptedAuthorsThisTrack in
  let rate :=
    JS.div (JS.ofNat (List.length acceptedPapersThisTrack))
           (JS.ofNat (List.length group)) in
  JS.Ok
    {| TrackLoop.keywordsByTrack :=
         Obj.set paperGroup
           (Util.getSortedArrayFromMapUsingCount countedCurrentGroupKeywords)
           (TrackLoop.keywordsByTrack acc);
       TrackLoop.topAuthorsByTrack :=
         Obj.set paperGroup
           (topAuthorsOf
              (Util.getSortedArrayFromMapUsingCount
                 acceptedAuthorsThisTrackCount))
           (TrackLoop.topAuthorsByTrack acc);
       TrackLoop.acceptanceRateByTrack :=
         Obj.set paperGroup rate (TrackLoop.acceptanceRateByTrack acc);
       TrackLoop.comparableAcceptanceRate :=
         pushComparable paperGroup rate
           (TrackLoop.comparableAcceptanceRate acc) |}.

(** The body of [getSubmissionInfo] after the parse. *)
Definition getSubmissionInfoOfData (data : list Papa.Row)
  : JS.Result (Info SubmissionInfo) :=
  rows <- JS.foldM rowStep data
            {| RowLoop.acceptedSubs := [];
               RowLoop.rejectedSubs := [];
               RowLoop.submissionTimes := [];
               RowLoop.lastUpdateTimes := [];
               RowLoop.acceptedKeywords := [];
               RowLoop.rejectedKeywords := [];
               RowLoop.allKeywords := [];
               RowLoop.acceptedAuthorNames := [] |} ;;
  let acceptedAuthorCount :=
    Lodash.countBy (fun k => k) (RowLoop.acceptedAuthorNames rows) in
  let topAcceptedAuthorsMap :=
    topAuthorsOf (Util.getSortedArrayFromMapUsingCount acceptedAuthorCount) in
  let acceptedKeywordMap :=
    Lodash.countBy (fun k => k) (RowLoop.acceptedKeywords rows) in
  let rejectedKeywordMap :=
    Lodash.countBy (fun k => k) (RowLoop.rejectedKeywords rows) in
  let overallKeywordMap :=
    Lodash.countBy (fun k => k) (RowLoop.allKeywords rows) in
  let acceptanceRate :=
    JS.div (JS.ofNat (List.length (RowLoop.acceptedSubs rows)))
           (JS.ofNat (List.length data)) in
  let subTimeCounts := Lodash.countBy toKey (RowLoop.submissionTimes rows) in
  let updateTimeCounts := Lodash.countBy toKey (RowLoop.lastUpdateTimes rows) in
  let timestamps := Util.getSortedArrayFromMapUsingKey subTimeCounts in
  let lastEditStamps := Util.getSortedArrayFromMapUsingKey updateTimeCounts in
  let timeSeries := cumulative timestamps 0 in
  let lastEditSeries := cumulative lastEditStamps 0 in
  let paperGroupByTrackName :=
    Lodash.mapValues (fun g => g)
      (Lodash.groupBy (fun row => toKey (prop row "trackName")) data) in
  tracks <- JS.foldM trackStep paperGroupByTrackName
              {| TrackLoop.keywordsByTrack := Obj.empty;
                 TrackLoop.acceptanceRateByTrack := Obj.empty;
                 TrackLoop.topAuthorsByTrack := Obj.empty;
                 TrackLoop.comparableAcceptanceRate := pastConferences |} ;;
  let parsedResult :=
    {| acceptanceRate := acceptanceRate;
       overallKeywordMap := overallKeywordMap;
       overallKeywordList :=
         Util.getSortedArrayFromMapUsingCount overallKeywordMap;
       acceptedKeywordMap := acceptedKeywordMap;
       acceptedKeywordList :=
         Util.getSortedArrayFromMapUsingCount acceptedKeywordMap;
       rejectedKeywordMap := rejectedKeywordMap;
       rejectedKeywordList :=
         Util.getSortedArrayFromMapUsingCount rejectedKeywordMap;
       keywordsByTrack := TrackLoop.keywordsByTrack tracks;
       acceptanceRateByTrack := TrackLoop.acceptanceRateByTrack tracks;
       topAcceptedAuthors := topAcceptedAuthorsMap;
       topAuthorsByTrack := TrackLoop.topAuthorsByTrack tracks;
       timeSeries := timeSeries;
       lastEditSeries := lastEditSeries;
       comparableAcceptanceRate := TrackLoop.comparableAcceptanceRate tracks |} in
  JS.Ok {| infoType := "submission"; infoData := parsedResult |}.

Definition getSubmissionInfo (file : File) (m : ModuleState)
  : Run (Info SubmissionInfo) * ModuleState :=
  let content := Buffer_toString (buffer file) in
  let content := overrideHeader submissionHeader content in
  let parsedContent := Papa_parse content (papaConfig m) in
  ({| console := logErrors (Papa.errors parsedContent);
      completion := getSubmissionInfoOfData (Papa.data parsedContent) |},
   m).

End Analyzers.

(* ================================================================= *)
(** ** A printer to evaluate examples with *)

Fixpoint fractionDigits (fuel : nat) (num den : Z) : string :=
  match fuel with
  | O => EmptyString
  | S k =>
      if (num =? 0)%Z then EmptyString
      else JS.printNat (10 * num / den) ++ fractionDigits k ((10 * num) mod den) den
  end.

(** The decimal expansion of a finite number, cut after 17 fractional
    digits. *)
Definition printDecimal (q : Q) : string :=
  let n := Z.abs (Qnum q) in
  let d := Zpos (Qden q) in
  let frac := fractionDigits 17 (n mod d) d in
  (if JS.isNeg q then "-" else "") ++ JS.printNat (n / d)
  ++ (if String.eqb frac EmptyString then EmptyString else "." ++ frac).

(* ================================================================= *)
(** ** Notions and inputs used in the statements *)

(** [a <= b] on strings. *)
Definition leStr (a b : string) : Prop := JS.ltb b a = false.

Definition keyLe (a b : string * nat) : Prop := leStr (fst a) (fst b).

(** The text has no carriage return. *)
Definition hasNoCR (content : string) : Prop :=
  ~ In JS.CR (list_ascii_of_string content).

(** The key a review is grouped under. *)
Definition paperKey (printFloat : Q -> string) (row : Papa.Row) : string :=
  toKey printFloat (prop row "paperId").

(** The key a submission is grouped under. *)
Definition trackKey (printFloat : Q -> string) (row : Papa.Row) : string :=
  toKey printFloat (prop row "trackName").

(** What the loop stores for a group: its weighted score and recommend. *)
Definition storesTotals (group : list Papa.Row) (entry : ReviewEntry) : Prop :=
  exists averageConfidence,
    groupTotals group = JS.Ok (averageConfidence, score entry, recommend entry).

(** The rate the loop computes for a track. *)
Definition rateOf (group : list Papa.Row) : JS.number :=
  JS.div (JS.ofNat (List.length (acceptedIn group)))
         (JS.ofNat (List.length group)).

(** The total of the counts of the entries whose key passes a test. *)
Fixpoint weigh (test : string -> bool) (entries : list (string * nat)) : nat :=
  match entries with
  | [] => 0
  | e :: r => (if test (fst e) then snd e else 0) + weigh test r
  end.

Definition keyLt (a b : string * nat) : Prop := JS.ltb (fst a) (fst b) = true.

(** The point [p] is of an earlier date than the point [q]. *)
Definition earlier (p q : Point) : Prop := JS.ltb (x p) (x q) = true.

(** The number of tracks of a name among the entries of the loop. *)
Definition named (track : string) (entries : Obj.t (list Papa.Row)) : nat :=
  List.length (List.filter (fun k => String.eqb k track) (Obj.keys entries)).

(** A review row that the loop over the reviews can read: its scores are
    a text of two lines or more. *)
Definition hasTwoLines (row : Papa.Row) : bool :=
  match prop row "scores" with
  | JS.VStr block => (2 <=? List.length (JS.splitLines block))%nat
  | _ => false
  end.

Definition isText (v : JS.value) : bool :=
  match v with
  | JS.VStr _ => true
  | _ => false
  end.

(** A submission row that the two loops of getSubmissionInfo can read:
    keywords and submitTime are texts, and so is authors when the row is
    accepted. *)
Definition readableSubmission (row : Papa.Row) : bool :=
  isText (prop row "keywords") && isText (prop row "submitTime")
  && (if JS.strictEqStr (prop row "decision") "accept"
      then isText (prop row "authors") else true).

(** The keywords of a row whose keywords field is a text. *)
Definition keywordList (row : Papa.Row) : list string :=
  match prop row "keywords" with
  | JS.VStr s => List.map JS.toLowerCase (JS.splitLines s)
  | _ => []
  end.

(** The rows of a group that were rejected. *)
Definition rejectedIn (group : list Papa.Row) : list Papa.Row :=
  List.filter (fun row => JS.strictEqStr (prop row "decision") "reject") group.

(** The count a frequency map holds for a label, 0 when it has none. *)
Definition countOf (k : string) (m : Obj.t nat) : nat :=
  match Obj.get k m with
  | Some n => n
  | None => 0%nat
  end.

(** The text has no line break. *)
Definition noLineBreak (s : string) : Prop :=
  Forall (fun c => JS.isLineBreak c = false) (list_ascii_of_string s).

(** The rate a track adds to its series of the table, if the track is
    among the data. *)
Definition rateAdded (printFloat : Q -> string) (track : string)
  (data : list Papa.Row) : list JS.number :=
  match Lodash.under (trackKey printFloat) track data with
  | [] => []
  | group => [rateOf group]
  end.

(** [Number.isSafeInteger] on an integer: it lies within 2^53 - 1 of
    zero, where a number holds every integer exactly. *)
Definition isSafeInteger (z : Z) : bool :=
  (Z.abs z <=? 9007199254740991)%Z.

(** The value after ": " on line [i] of a scores block; undefined when
    the block has no such line or the line has no ": ". *)
Definition lineValue (block : string) (i : nat) : JS.value :=
  match nth_error (JS.splitLines block) i with
  | Some line => JS.item (JS.split line ": ") 1
  | None => JS.VUndef
  end.

(** The part of a text before its first space. *)
Fixpoint beforeSpace (s : string) : string :=
  match s with
  | EmptyString => EmptyString
  | String c r => if Ascii.eqb c " " then EmptyString else String c (beforeSpace r)
  end.

(** The date of a time stamp that is a text. *)
Definition dateOfTime (stamp : JS.value) : string :=
  match stamp with
  | JS.VStr s => beforeSpace s
  | _ => EmptyString
  end.

(** The submit date of a row. *)
Definition dateOf (row : Papa.Row) : string :=
  dateOfTime (prop row "submitTime").

(** The series that the counts of the dates give. *)
Definition seriesOf (dates : list string) : list Point :=
  cumulative
    (Util.getSortedArrayFromMapUsingKey (Lodash.countBy (fun d => d) dates)) 0.

(** The number of rows submitted on a date up to [d]. *)
Definition submittedUpTo (d : string) (data : list Papa.Row) : nat :=
  List.length (List.filter (fun row => negb (JS.ltb d (dateOf row))) data).

(** A number between 0 and 1. *)
Definition inUnitInterval (n : JS.number) : Prop :=
  match n with
  | JS.Fin q => 0 <= q <= 1
  | _ => False
  end.

(** A number equal to the quotient of two counts. *)
Definition isRatio (n : JS.number) (a b : nat) : Prop :=
  match n with
  | JS.Fin q => q == inject_Z (Z.of_nat a) / inject_Z (Z.of_nat b)
  | _ => False
  end.

Definition newline : string := String JS.LF EmptyString.

(** The two scores blocks of the specification's review scenario. *)
Definition scoresYes : string :=
  "Overall evaluation: 2" ++ newline ++ "Reviewer's confidence: 4" ++ newline
  ++ "Recommend for best paper: yes".

Definition scoresNo : string :=
  "Overall evaluation: -1" ++ newline ++ "Reviewer's confidence: 2" ++ newline
  ++ "Recommend for best paper: no".

Definition reviewRow (reviewId paperId : Z) (scores : string) : Papa.Row :=
  [("reviewId", JS.VNum (JS.ofZ reviewId));
   ("paperId", JS.VNum (JS.ofZ paperId));
   ("scores", JS.VStr scores)].

Definition twoReviews : list Papa.Row :=
  [reviewRow 1 7 scoresYes; reviewRow 2 7 scoresNo].

Definition submissionRow (submissionId : Z)
  (trackName authors submitTime keywords decision : string) : Papa.Row :=
  [("submissionId", JS.VNum (JS.ofZ submissionId));
   ("trackName", JS.VStr trackName);
   ("authors", JS.VStr authors);
   ("submitTime", JS.VStr submitTime);
   ("lastUpdateTime", JS.VStr "2021-05-05 12:00");
   ("keywords", JS.VStr keywords);
   ("decision", JS.VStr decision)].

(** Two rows of one track, one accepted and one rejected. *)
Definition twoDecisions : list Papa.Row :=
  [submissionRow 1 "Full Papers" "Ada Lovelace and Alan Turing"
     "2020-01-01 10:00" "Logic" "accept";
   submissionRow 2 "Full Papers" "Grace Hopper" "2020-01-01 11:00"
     "Compilers" "reject"].

(** The three submit times of the specification's time series scenario. *)
Definition threeSubmissions : list Papa.Row :=
  [submissionRow 1 "Full Papers" "Ada Lovelace" "2020-01-01 10:00" "Logic"
     "accept";
   submissionRow 2 "Short Papers" "Grace Hopper" "2020-01-01 11:00"
     "Compilers" "reject";
   submissionRow 3 "Posters" "Alan Turing" "2020-01-02 09:00" "Machines"
     ""].

(** The text under which a row is counted for one of its columns. *)
Definition columnKey (printFloat : Q -> string) (column : string)
  (row : Papa.Row) : string :=
  toKey printFloat (prop row column).

(** The text under which a row is counted among the authors. *)
Definition nameKey (printFloat : Q -> string) (row : Papa.Row) : string :=
  toKey printFloat (authorName printFloat row).

(** A chart lists a label with the number of the rows of the data that
    fall under it, and there is such a row. *)
Definition listedWith (chart : Chart.t) (key : Papa.Row -> string)
  (data : list Papa.Row) (label : string) : Prop :=
  let n := List.length (Lodash.under key label data) in
  (1 <= n)%nat
  /\ In (label, n) (List.combine (Chart.labels chart) (Chart.data chart)).

(** An author row cut short after the first name. *)
Definition shortAuthorRow : Papa.Row :=
  [("submissionId", JS.VNum (JS.ofZ 7)); ("firstName", JS.VStr "Jane")].

(** An author row whose last name, country and affiliation are empty. *)
Definition emptyPartsRow : Papa.Row :=
  [("submissionId", JS.VNum (JS.ofZ 8)); ("firstName", JS.VStr "Jane");
   ("lastName", JS.VStr ""); ("email", JS.VStr "jane@example.org");
   ("country", JS.VStr ""); ("affiliation", JS.VStr "")].

(** An author row as a parse with dynamic typing gives it for a line whose
    last name, country and affiliation are empty fields: each is null. *)
Definition nullPartsRow : Papa.Row :=
  [("submissionId", JS.VNum (JS.ofZ 9)); ("firstName", JS.VStr "Jane");
   ("lastName", JS.VNull); ("email", JS.VStr "jane@example.org");
   ("country", JS.VNull); ("affiliation", JS.VNull)].

(** A decoder and a parser to run the analyzers with: the bytes taken as
    code units, and a parse that yields the given rows. *)
Definition decodeBytes (bytes : list Byte.byte) : string :=
  string_of_list_byte bytes.

Definition parseTo (rows : list Papa.Row) (content : string)
  (config : Papa.Config) : Papa.ParseResult :=
  {| Papa.data := rows; Papa.errors := [] |}.

Definition fileOf (content : string) : File :=
  {| buffer := list_byte_of_string content |}.

(* ================================================================= *)
(** * Properties *)

(** ** Objects *)

Module ObjFacts.

Import Obj.

Section Facts.

Context {A : Type}.

Implicit Types (o : Obj.t A) (k : string) (v : A).

Lemma get_update k v o k' :
  get k' (update k v o) =
  if String.eqb k k'
  then match get k o with Some _ => Some v | None => None end
  else get k' o.
Proof.
  induction o as [|[k0 v0] r IH]; simpl.
  - now destruct (String.eqb k k').
  - destruct (String.eqb k0 k) eqn:E0; simpl.
    + apply String.eqb_eq in E0; subst k0.
      now destruct (String.eqb k k').
    + destruct (String.eqb k0 k') eqn:E1; [|exact IH].
      apply String.eqb_eq in E1; subst k0.
      rewrite String.eqb_sym in E0. now rewrite E0.
Qed.

Lemma get_insertIndex i k v o k' :
  get k o = None ->
  get k' (insertIndex i k v o) = if String.eqb k k' then Some v else get k' o.
Proof.
  induction o as [|[k0 v0] r IH]; simpl; intros Hk.
  - reflexivity.
  - destruct (String.eqb k0 k) eqn:E0; [discriminate|].
    destruct (indexKey k0) as [j|]; [destruct (i <? j)%Z|]; simpl;
      try reflexivity.
    rewrite (IH Hk).
    destruct (String.eqb k0 k') eqn:E1; [|reflexivity].
    apply String.eqb_eq in E1; subst k0.
    rewrite String.eqb_sym in E0. now rewrite E0.
Qed.

Lemma get_app_one k v o k' :
  get k o = None ->
  get k' (o ++ [(k, v)])%list = if String.eqb k k' then Some v else get k' o.
Proof.
  induction o as [|[k0 v0] r IH]; simpl; intros Hk.
  - reflexivity.
  - destruct (String.eqb k0 k) eqn:E0; [discriminate|].
    rewrite (IH Hk).
    destruct (String.eqb k0 k') eqn:E1; [|reflexivity].
    apply String.eqb_eq in E1; subst k0.
    rewrite String.eqb_sym in E0. now rewrite E0.
Qed.

(** Reading after [define]. *)
Lemma get_define k v o k' :
  get k' (define k v o) = if String.eqb k k' then Some v else get k' o.
Proof.
  unfold define. destruct (get k o) eqn:Hk.
  - rewrite get_update, Hk. reflexivity.
  - destruct (indexKey k).
    + now apply get_insertIndex.
    + now apply get_app_one.
Qed.

(** Reading after an assignment. *)
Lemma get_set k v o k' :
  get k' (set k v o) =
  if String.eqb k "__proto__" then get k' o
  else if String.eqb k k' then Some v else get k' o.
Proof.
  unfold set. destruct (String.eqb k "__proto__"); [reflexivity|].
  apply get_define.
Qed.

Lemma get_None_keys k o : get k o = None <-> ~ In k (keys o).
Proof.
  induction o as [|[k0 v0] r IH]; simpl.
  - tauto.
  - destruct (String.eqb k0 k) eqn:E.
    + apply String.eqb_eq in E. split; [discriminate|tauto].
    + apply String.eqb_neq in E. rewrite IH. tauto.
Qed.

Lemma get_In k v o : get k o = Some v -> In (k, v) o.
Proof.
  induction o as [|[k0 v0] r IH]; simpl; [discriminate|].
  destruct (String.eqb k0 k) eqn:E.
  - apply String.eqb_eq in E. intros [= ->]. left. now subst.
  - auto.
Qed.

Lemma In_get k v o : NoDup (keys o) -> In (k, v) o -> get k o = Some v.
Proof.
  induction o as [|[k0 v0] r IH]; simpl; [tauto|].
  intros Hnd [H|H].
  - injection H as -> ->. now rewrite String.eqb_refl.
  - inversion Hnd as [|? ? Hnot Hnd']; subst.
    destruct (String.eqb k0 k) eqn:E; [|auto].
    apply String.eqb_eq in E; subst k0.
    exfalso. apply Hnot. change k with (fst (k, v)). now apply in_map.
Qed.

Lemma keys_update k v o : keys (update k v o) = keys o.
Proof.
  induction o as [|[k0 v0] r IH]; simpl; [reflexivity|].
  destruct (String.eqb k0 k); simpl; [reflexivity|]. now rewrite IH.
Qed.

Lemma insertIndex_perm i k v o : Permutation (insertIndex i k v o) ((k, v) :: o).
Proof.
  induction o as [|[k0 v0] r IH]; simpl; [reflexivity|].
  destruct (indexKey k0) as [j|]; [destruct (i <? j)%Z|]; try reflexivity.
  rewrite IH. apply perm_swap.
Qed.

(** A new property joins the others; an old one keeps its place. *)
Lemma define_perm k v o :
  get k o = None -> Permutation (define k v o) ((k, v) :: o).
Proof.
  unfold define. intros ->. destruct (indexKey k).
  - apply insertIndex_perm.
  - rewrite Permutation_app_comm. reflexivity.
Qed.

Lemma keys_define_NoDup k v o : NoDup (keys o) -> NoDup (keys (define k v o)).
Proof.
  intros Hnd. destruct (get k o) eqn:Hk.
  - unfold define. rewrite Hk, keys_update. exact Hnd.
  - eapply Permutation_NoDup.
    + symmetry. unfold keys. apply Permutation_map. now apply define_perm.
    + simpl. constructor; [now apply get_None_keys | exact Hnd].
Qed.

Lemma keys_set_NoDup k v o : NoDup (keys o) -> NoDup (keys (set k v o)).
Proof.
  unfold set. destruct (String.eqb k "__proto__"); [auto|].
  apply keys_define_NoDup.
Qed.

End Facts.

End ObjFacts.

(** ** lodash *)

Module LodashFacts.

Import Obj Lodash ObjFacts.

Section Facts.

Context {A : Type}.
Variable key : A -> string.

Lemma get_countStep o x k :
  get k (countStep key o x) =
  if String.eqb (key x) k
  then Some (match get k o with Some c => S c | None => 1%nat end)
  else get k o.
Proof.
  unfold countStep. destruct (get (key x) o) eqn:Hx.
  - rewrite get_update, Hx.
    destruct (String.eqb (key x) k) eqn:E; [|reflexivity].
    apply String.eqb_eq in E. subst k. now rewrite Hx.
  - rewrite get_define.
    destruct (String.eqb (key x) k) eqn:E; [|reflexivity].
    apply String.eqb_eq in E. subst k. now rewrite Hx.
Qed.

Lemma get_fold_countStep xs : forall o k,
  get k (fold_left (countStep key) xs o) =
  match get k o with
  | Some c => Some (c + List.length (under key k xs))%nat
  | None =>
      match List.length (under key k xs) with
      | O => None
      | S n => Some (S n)
      end
  end.
Proof.
  induction xs as [|x r IH]; intros o k; simpl.
  - destruct (get k o); [f_equal; lia | reflexivity].
  - rewrite IH, get_countStep.
    destruct (String.eqb (key x) k) eqn:E; simpl.
    + destruct (get k o); f_equal; lia.
    + reflexivity.
Qed.

(** countBy records under every key the number of items it covers, and
    nothing for a key that covers none. *)
Lemma get_countBy xs k :
  get k (countBy key xs) =
  match List.length (under key k xs) with
  | O => None
  | S n => Some (S n)
  end.
Proof. unfold countBy. now rewrite get_fold_countStep. Qed.

Lemma keys_countStep_NoDup o x :
  NoDup (keys o) -> NoDup (keys (countStep key o x)).
Proof.
  unfold countStep. intros H. destruct (get (key x) o).
  - now rewrite keys_update.
  - now apply keys_define_NoDup.
Qed.

Lemma keys_countBy_NoDup xs : NoDup (keys (countBy key xs)).
Proof.
  unfold countBy.
  assert (G : forall o, NoDup (keys o) ->
                        NoDup (keys (fold_left (countStep key) xs o))).
  { induction xs as [|x r IH]; intros o Ho; simpl; [exact Ho|].
    apply IH. now apply keys_countStep_NoDup. }
  apply G. constructor.
Qed.

Lemma get_groupStep o x k :
  get k (groupStep key o x) =
  if String.eqb (key x) k
  then Some (match get k o with Some g => (g ++ [x])%list | None => [x] end)
  else get k o.
Proof.
  unfold groupStep. destruct (get (key x) o) eqn:Hx.
  - rewrite get_update, Hx.
    destruct (String.eqb (key x) k) eqn:E; [|reflexivity].
    apply String.eqb_eq in E. subst k. now rewrite Hx.
  - rewrite get_define.
    destruct (String.eqb (key x) k) eqn:E; [|reflexivity].
    apply String.eqb_eq in E. subst k. now rewrite Hx.
Qed.

Lemma get_fold_groupStep xs : forall o k,
  get k (fold_left (groupStep key) xs o) =
  match get k o with
  | Some g => Some (g ++ under key k xs)%list
  | None =>
      match under key k xs with
      | [] => None
      | g => Some g
      end
  end.
Proof.
  induction xs as [|x r IH]; intros o k; simpl.
  - destruct (get k o); [now rewrite app_nil_r | reflexivity].
  - rewrite IH, get_groupStep. unfold under at 3. simpl.
    destruct (String.eqb (key x) k) eqn:E; simpl.
    + destruct (get k o); [now rewrite <- app_assoc | reflexivity].
    + fold (under key k r). reflexivity.
Qed.

(** groupBy files under every key, in the order of the list, the items it
    covers, and has no property for a key that covers none. *)
Lemma get_groupBy xs k :
  get k (groupBy key xs) =
  match under key k xs with
  | [] => None
  | g => Some g
  end.
Proof. unfold groupBy. now rewrite get_fold_groupStep. Qed.

Lemma keys_groupBy_NoDup xs : NoDup (keys (groupBy key xs)).
Proof.
  unfold groupBy.
  assert (G : forall o, NoDup (keys o) ->
                        NoDup (keys (fold_left (groupStep key) xs o))).
  { induction xs as [|x r IH]; intros o Ho; simpl; [exact Ho|].
    apply IH. unfold groupStep. destruct (get (key x) o).
    - now rewrite keys_update.
    - now apply keys_define_NoDup. }
  apply G. constructor.
Qed.

End Facts.

Lemma mapValues_id {A : Type} (o : Obj.t A) : mapValues (fun g => g) o = o.
Proof.
  unfold mapValues. induction o as [|[k v] r IH]; simpl; [reflexivity|].
  now rewrite IH.
Qed.

End LodashFacts.

(** ** The order of strings and the two sorts *)

Module UtilFacts.

Import Util.

Lemma ltb_lt a b : JS.ltb a b = true <-> String_as_OT.lt a b.
Proof.
  unfold JS.ltb, String_as_OT.lt.
  destruct (String_as_OT.compare a b); split; congruence.
Qed.

Lemma ltb_irrefl a : JS.ltb a a = false.
Proof.
  destruct (JS.ltb a a) eqn:E; [|reflexivity].
  apply ltb_lt in E. exfalso. exact (StrictOrder_Irreflexive a E).
Qed.

Lemma ltb_trans a b c :
  JS.ltb a b = true -> JS.ltb b c = true -> JS.ltb a c = true.
Proof.
  rewrite !ltb_lt. apply StrictOrder_Transitive.
Qed.

Lemma ltb_total a b : JS.ltb a b = false -> JS.ltb b a = false -> a = b.
Proof.
  unfold JS.ltb. intros Hab Hba.
  destruct (String_as_OT.compare_spec a b) as [H|H|H]; try congruence.
  unfold String_as_OT.lt in H. now rewrite H in Hba.
Qed.

Lemma leStr_trans a b c : leStr a b -> leStr b c -> leStr a c.
Proof.
  unfold leStr. intros Hab Hbc.
  destruct (JS.ltb c a) eqn:Hca; [exfalso|reflexivity].
  destruct (JS.ltb a b) eqn:Hlt.
  - rewrite (ltb_trans _ _ _ Hca Hlt) in Hbc. discriminate.
  - assert (a = b) by now apply ltb_total. subst. congruence.
Qed.

Lemma insertByCount_perm x l : Permutation (insertByCount x l) (x :: l).
Proof.
  induction l as [|y r IH]; simpl; [reflexivity|].
  destruct (snd x <? snd y)%nat; [|reflexivity].
  rewrite IH. apply perm_swap.
Qed.

(** The list sorted by count holds the entries of the map, each once. *)
Lemma sortedByCount_perm m : Permutation (getSortedArrayFromMapUsingCount m) m.
Proof.
  induction m as [|x r IH]; simpl; [reflexivity|].
  rewrite insertByCount_perm. now constructor.
Qed.

Lemma insertByKey_perm x l : Permutation (insertByKey x l) (x :: l).
Proof.
  induction l as [|y r IH]; simpl; [reflexivity|].
  destruct (JS.ltb (fst y) (fst x)); [|reflexivity].
  rewrite IH. apply perm_swap.
Qed.

(** The list sorted by key holds the entries of the map, each once. *)
Lemma sortedByKey_perm m : Permutation (getSortedArrayFromMapUsingKey m) m.
Proof.
  induction m as [|x r IH]; simpl; [reflexivity|].
  rewrite insertByKey_perm. now constructor.
Qed.

Lemma insertByKey_sorted x l :
  StronglySorted keyLe l -> StronglySorted keyLe (insertByKey x l).
Proof.
  induction l as [|y r IH]; simpl; intros Hs.
  - constructor; constructor.
  - inversion Hs as [|? ? Hr Hall]; subst.
    destruct (JS.ltb (fst y) (fst x)) eqn:E.
    + constructor; [now apply IH|].
      eapply Permutation_Forall; [symmetry; apply insertByKey_perm|].
      constructor; [|exact Hall].
      unfold keyLe, leStr.
      destruct (JS.ltb (fst x) (fst y)) eqn:E'; [|reflexivity].
      pose proof (ltb_trans _ _ _ E E') as Hyy.
      now rewrite ltb_irrefl in Hyy.
    + constructor; [exact Hs|].
      constructor; [exact E|].
      eapply Forall_impl; [|exact Hall].
      intros a Ha. eapply leStr_trans; [exact E|exact Ha].
Qed.

(** The list sorted by key is in ascending order of its keys. *)
Lemma sortedByKey_sorted m :
  StronglySorted keyLe (getSortedArrayFromMapUsingKey m).
Proof.
  induction m as [|x r IH]; simpl; [constructor|].
  now apply insertByKey_sorted.
Qed.

End UtilFacts.

(** ** Loops that may throw *)

Module LoopFacts.

Import Obj ObjFacts.

Lemma bind_Ok {A B : Type} (c : JS.Result A) (k : A -> JS.Result B) (b : B) :
  JS.bind c k = JS.Ok b -> exists a, c = JS.Ok a /\ k a = JS.Ok b.
Proof. destruct c as [a|e]; simpl; [eauto | discriminate]. Qed.

Lemma mapM_length {A B : Type} (f : A -> JS.Result B) (xs : list A) :
  forall ys, JS.mapM f xs = JS.Ok ys -> List.length ys = List.length xs.
Proof.
  induction xs as [|x r IH]; simpl; intros ys H.
  - injection H as <-. reflexivity.
  - apply bind_Ok in H as (y & _ & H).
    apply bind_Ok in H as (ys' & Hr & H).
    injection H as <-. simpl. f_equal. now apply IH.
Qed.

Section Keyed.

(** A loop over the entries of a map that assigns, for every entry, one
    property of the same name in a map of its own. *)
Context {S V W : Type}.
Variable step : S -> string * V -> JS.Result S.
Variable target : S -> Obj.t W.
Variable made : V -> W -> Prop.

Hypothesis step_sets :
  forall acc e acc',
    step acc e = JS.Ok acc' ->
    exists w, target acc' = Obj.set (fst e) w (target acc) /\ made (snd e) w.

Lemma foldM_other entries : forall acc acc' s,
  JS.foldM step entries acc = JS.Ok acc' ->
  ~ In s (keys entries) ->
  get s (target acc') = get s (target acc).
Proof.
  induction entries as [|e r IH]; simpl; intros acc acc' s H Hs.
  - now injection H as <-.
  - apply bind_Ok in H as (acc1 & H1 & H).
    rewrite (IH _ _ _ H) by tauto.
    destruct (step_sets H1) as (w & -> & _).
    rewrite get_set.
    destruct (String.eqb (fst e) "__proto__"); [reflexivity|].
    destruct (String.eqb (fst e) s) eqn:E; [|reflexivity].
    apply String.eqb_eq in E. tauto.
Qed.

Lemma foldM_proto entries : forall acc acc',
  JS.foldM step entries acc = JS.Ok acc' ->
  get "__proto__" (target acc') = get "__proto__" (target acc).
Proof.
  induction entries as [|e r IH]; simpl; intros acc acc' H.
  - now injection H as <-.
  - apply bind_Ok in H as (acc1 & H1 & H).
    rewrite (IH _ _ H).
    destruct (step_sets H1) as (w & -> & _).
    rewrite get_set.
    now destruct (String.eqb (fst e) "__proto__").
Qed.

Lemma foldM_entry entries : forall acc acc' s g,
  NoDup (keys entries) ->
  JS.foldM step entries acc = JS.Ok acc' ->
  In (s, g) entries ->
  s <> "__proto__" ->
  exists w, get s (target acc') = Some w /\ made g w.
Proof.
  induction entries as [|e r IH]; simpl; intros acc acc' s g Hnd H Hin Hs.
  - contradiction.
  - inversion Hnd as [|? ? Hnot Hnd']; subst.
    apply bind_Ok in H as (acc1 & H1 & H).
    destruct Hin as [->|Hin].
    + destruct (step_sets H1) as (w & Ht & Hm). simpl in *.
      exists w. split; [|exact Hm].
      rewrite (foldM_other _ _ _ H Hnot), Ht, get_set.
      apply String.eqb_neq in Hs. now rewrite Hs, String.eqb_refl.
    + eapply IH; eauto.
Qed.

(** Every property of the map the loop built from an empty one comes from
    the entry of its name. *)
Lemma foldM_from_empty entries acc acc' s w :
  NoDup (keys entries) ->
  JS.foldM step entries acc = JS.Ok acc' ->
  target acc = Obj.empty ->
  get s (target acc') = Some w ->
  s <> "__proto__" /\ exists g, In (s, g) entries /\ made g w.
Proof.
  intros Hnd H He Hget.
  destruct (String.eqb_spec s "__proto__") as [->|Hs].
  - rewrite (foldM_proto _ _ H), He in Hget. discriminate.
  - split; [exact Hs|].
    destruct (get s entries) as [g|] eqn:Hg.
    + apply get_In in Hg. exists g. split; [exact Hg|].
      destruct (@foldM_entry entries acc acc' s g Hnd H Hg Hs)
        as (w' & Hw' & Hm).
      congruence.
    + apply get_None_keys in Hg.
      rewrite (foldM_other _ _ _ H Hg), He in Hget. discriminate.
Qed.

End Keyed.

End LoopFacts.

(** ** The header override *)

Module HeaderFacts.

Lemma indexOfFrom_absent s : forall i,
  ~ In JS.CR (list_ascii_of_string s) -> JS.indexOfFrom JS.CR s i = (-1)%Z.
Proof.
  induction s as [|c r IH]; simpl; intros i H; [reflexivity|].
  destruct (Ascii.eqb_spec c JS.CR) as [->|Hc]; [tauto|].
  apply IH. tauto.
Qed.

Lemma indexOfFrom_found l : forall rest i,
  ~ In JS.CR (list_ascii_of_string l) ->
  JS.indexOfFrom JS.CR (l ++ String JS.CR rest) i
  = (i + Z.of_nat (String.length l))%Z.
Proof.
  induction l as [|c r IH]; simpl; intros rest i H.
  - lia.
  - destruct (Ascii.eqb_spec c JS.CR) as [->|Hc]; [tauto|].
    rewrite IH by tauto. lia.
Qed.

Lemma drop_past l c rest :
  JS.drop (S (String.length l)) (l ++ String c rest) = rest.
Proof. induction l; simpl; auto. Qed.

(** A text with a carriage return loses its first line, up to and with
    that carriage return: this is the case the override is written for. *)
Lemma overrideHeader_first_line fixedHeader l rest :
  hasNoCR l ->
  overrideHeader fixedHeader (l ++ String JS.CR rest) = fixedHeader ++ rest.
Proof.
  intros H. unfold overrideHeader, JS.indexOf, JS.substring.
  rewrite indexOfFrom_found by exact H.
  replace (Z.to_nat (Z.max 0 (0 + Z.of_nat (String.length l) + 1)))
    with (S (String.length l)) by lia.
  now rewrite drop_past.
Qed.

End HeaderFacts.

(** C10.  When the decoded text of an author or submission file has no
    carriage return, indexOf('\r') is -1 and substring(0) is the whole
    text: the parser is called on the fixed header followed by the whole
    file, so the original first line is not discarded and comes after the
    header line as data. *)
Theorem C10_no_carriage_return_keeps_first_line :
  forall printFloat Buffer_toString Papa_parse file m,
    let text := Buffer_toString (buffer file) in
    hasNoCR text ->
    JS.indexOf text JS.CR = (-1)%Z
    /\ JS.substring text (JS.indexOf text JS.CR + 1) = text
    /\ getAuthorInfo printFloat Buffer_toString Papa_parse file m
       = ({| console :=
               logErrors
                 (Papa.errors (Papa_parse (authorHeader ++ text) (papaConfig m)));
             completion :=
               JS.Ok (getAuthorInfoOfData printFloat
                        (Papa.data
                           (Papa_parse (authorHeader ++ text) (papaConfig m)))) |},
          m)
    /\ getSubmissionInfo printFloat Buffer_toString Papa_parse file m
       = ({| console :=
               logErrors
                 (Papa.errors
                    (Papa_parse (submissionHeader ++ text) (papaConfig m)));
             completion :=
               getSubmissionInfoOfData printFloat
                 (Papa.data
                    (Papa_parse (submissionHeader ++ text) (papaConfig m))) |},
          m).
Proof.
  intros pf dec parse file m text H.
  assert (Hi : JS.indexOf text JS.CR = (-1)%Z)
    by (apply HeaderFacts.indexOfFrom_absent; exact H).
  assert (Hs : JS.substring text (JS.indexOf text JS.CR + 1) = text)
    by (rewrite Hi; reflexivity).
  repeat split; try assumption.
  - unfold getAuthorInfo, overrideHeader. fold text. now rewrite Hs.
  - unfold getSubmissionInfo, overrideHeader. fold text. now rewrite Hs.
Qed.

Lemma C10_witness :
  hasNoCR (decodeBytes (buffer (fileOf "1,Jane,Doe")))
  /\ fst (getAuthorInfo printDecimal decodeBytes (parseTo []) (fileOf "1,Jane,Doe")
            initialModule)
     = {| console := [];
          completion := JS.Ok (getAuthorInfoOfData printDecimal []) |}.
Proof.
  assert (H : hasNoCR (decodeBytes (buffer (fileOf "1,Jane,Doe")))).
  { unfold hasNoCR. vm_compute. intros H.
    repeat (destruct H as [H|H]; [discriminate H|]). exact H. }
  split; [exact H|].
  destruct (C10_no_carriage_return_keeps_first_line printDecimal decodeBytes
              (parseTo []) (fileOf "1,Jane,Doe") initialModule H)
    as (_ & _ & Ha & _).
  rewrite Ha. reflexivity.
Defined.

(** ** The review analyzer *)

Module ReviewFacts.

Import LoopFacts.

Section Facts.

Variable printFloat : Q -> string.

Lemma reviewStep_sets acc e acc' :
  reviewStep printFloat acc e = JS.Ok acc' ->
  exists w,
    ReviewLoop.submissionIDReviewMap acc'
    = Obj.set (fst e) w (ReviewLoop.submissionIDReviewMap acc)
    /\ storesTotals (snd e) w.
Proof.
  unfold reviewStep. intros H.
  apply bind_Ok in H as ([[c ws] wr] & Ht & H).
  injection H as <-. simpl.
  exists {| score := ws; recommend := wr |}. split; [reflexivity|].
  exists c. exact Ht.
Qed.

(** The groups the loop runs over: one per paperId, holding the reviews of
    that paper in the order of the file. *)
Lemma review_groups data s g :
  Lodash.under (paperKey printFloat) s data = g ->
  g <> [] ->
  In (s, g)
     (Lodash.mapValues (fun g => g)
        (Lodash.groupBy (fun row => toKey printFloat (prop row "paperId")) data)).
Proof.
  intros Hg Hne. rewrite LodashFacts.mapValues_id.
  apply ObjFacts.get_In. rewrite LodashFacts.get_groupBy.
  unfold paperKey in Hg. rewrite Hg. destruct g; congruence.
Qed.

Lemma review_entry data info s g :
  getReviewInfoOfData printFloat data = JS.Ok info ->
  Lodash.under (paperKey printFloat) s data = g ->
  g <> [] ->
  s <> "__proto__" ->
  exists w, Obj.get s (IDReviewMap (infoData info)) = Some w /\ storesTotals g w.
Proof.
  unfold getReviewInfoOfData. intros H Hg Hne Hs.
  apply bind_Ok in H as (acc & Hloop & H).
  apply bind_Ok in H as (ms & _ & H).
  apply bind_Ok in H as (mc & _ & H).
  injection H as <-. simpl.
  eapply (foldM_entry (reviewStep printFloat) ReviewLoop.submissionIDReviewMap
            storesTotals reviewStep_sets); eauto.
  - rewrite LodashFacts.mapValues_id. apply LodashFacts.keys_groupBy_NoDup.
  - now apply review_groups.
Qed.

End Facts.

(** A block of at most two lines gives the recommend 0. *)
Lemma recommend_defaults_to_zero review block scores :
  prop review "scores" = JS.VStr block ->
  (List.length (JS.splitLines block) <= 2)%nat ->
  readReview review = JS.Ok scores ->
  weightedRecommend scores
  = JS.mul (JS.Fin 0) (JS.toNumber (confidence scores)).
Proof.
  unfold readReview. intros -> Hlen H. cbn [JS.splitLinesOf JS.bind] in H.
  apply LoopFacts.bind_Ok in H as (p0 & _ & H).
  apply LoopFacts.bind_Ok in H as (p1 & _ & H).
  apply Nat.ltb_ge in Hlen. rewrite Hlen in H. cbn [JS.bind] in H.
  now injection H as <-.
Qed.

(** The totals of the two reviews of the scenario, in either order. *)
Lemma scenario_totals r1 r2 :
  (prop r1 "scores" = JS.VStr scoresYes /\ prop r2 "scores" = JS.VStr scoresNo)
  \/ (prop r1 "scores" = JS.VStr scoresNo /\ prop r2 "scores" = JS.VStr scoresYes) ->
  groupTotals [r1; r2] = JS.Ok (JS.Fin 3, JS.Fin 1, JS.Fin (2 # 3)).
Proof.
  intros [[H1 H2]|[H1 H2]]; unfold groupTotals, JS.mapM, readReview;
    rewrite H1, H2; vm_compute; reflexivity.
Qed.

End ReviewFacts.

(** C1.  In every review batch in which the reviews of one submission are
    exactly the two of the scenario (scores 2 and -1, confidences 4 and 2,
    recommend yes and no), getReviewInfo computes for that submission the
    weighted score (2*4 + -1*2)/6 = 1 and the weighted recommend
    (1*4 + 0*2)/6 = 2/3, which prints as 0.667 to three places, and stores
    the pair under the submission's id.  A review whose block has no third
    line counts with recommend 0. *)
Theorem C1_scenario_weighted_averages :
  forall printFloat data info s r1 r2,
    getReviewInfoOfData printFloat data = JS.Ok info ->
    Lodash.under (paperKey printFloat) s data = [r1; r2] ->
    (prop r1 "scores" = JS.VStr scoresYes /\ prop r2 "scores" = JS.VStr scoresNo)
    \/ (prop r1 "scores" = JS.VStr scoresNo
        /\ prop r2 "scores" = JS.VStr scoresYes) ->
    groupTotals [r1; r2] = JS.Ok (JS.Fin 3, JS.Fin 1, JS.Fin (2 # 3))
    /\ JS.Fin 1 = JS.fin ((2 * 4 + -1 * 2) / 6)
    /\ JS.Fin (2 # 3) = JS.fin ((1 * 4 + 0 * 2) / 6)
    /\ JS.toFixed printFloat (JS.Fin (2 # 3)) 3 = "0.667"
    /\ (s <> "__proto__" ->
        Obj.get s (IDReviewMap (infoData info))
        = Some {| score := JS.Fin 1; recommend := JS.Fin (2 # 3) |})
    /\ (forall review block scores,
          prop review "scores" = JS.VStr block ->
          (List.length (JS.splitLines block) <= 2)%nat ->
          readReview review = JS.Ok scores ->
          weightedRecommend scores
          = JS.mul (JS.Fin 0) (JS.toNumber (confidence scores))).
Proof.
  intros pf data info s r1 r2 Hrun Hgroup Hscores.
  pose proof (ReviewFacts.scenario_totals r1 r2 Hscores) as Ht.
  split; [exact Ht|].
  split; [reflexivity|]. split; [reflexivity|]. split; [reflexivity|].
  split; [|apply ReviewFacts.recommend_defaults_to_zero].
  intros Hs.
  destruct (@ReviewFacts.review_entry pf data info s [r1; r2] Hrun Hgroup)
    as (w & Hw & c & Hc);
    [discriminate | exact Hs |].
  rewrite Hw. rewrite Ht in Hc. injection Hc as _ H1 H2.
  destruct w as [ws wr]; simpl in *. now subst.
Qed.

Lemma C1_witness :
  exists info,
    getReviewInfoOfData printDecimal twoReviews = JS.Ok info
    /\ Obj.get "7" (IDReviewMap (infoData info))
       = Some {| score := JS.Fin 1; recommend := JS.Fin (2 # 3) |}
    /\ scoreList (infoData info) = [JS.Fin 1]
    /\ recommendList (infoData info) = [JS.Fin (2 # 3)].
Proof.
  destruct (getReviewInfoOfData printDecimal twoReviews) as [info|e] eqn:Hrun;
    [|vm_compute in Hrun; discriminate Hrun].
  exists info. split; [reflexivity|].
  split.
  - apply (@C1_scenario_weighted_averages printDecimal twoReviews info "7"
             (reviewRow 1 7 scoresYes) (reviewRow 2 7 scoresNo) Hrun).
    + reflexivity.
    + left. split; reflexivity.
    + discriminate.
  - vm_compute in Hrun. injection Hrun as <-. split; reflexivity.
Defined.

(** C2 (defect).  getReviewInfo takes as bucket index
    Math.min(value.toFixed(1), last): the quotient rounded to one decimal,
    not its floor.  On the reviews of the specification's own scenario the
    weighted recommend 2/3 gives the column 6.7 where the floor is 6; 6.7
    is not an index of the array, so the submission is counted in no
    bucket of the recommend distribution.  A weighted score of 5/8 gives
    the column 14.5 in the same way.  The clamp itself works: the maxima
    3 and 1 give the last columns, 23 and 9. *)
Theorem C2_column_is_rounded_not_floored :
  forall printFloat,
    recommendColumnOf printFloat (JS.Fin (2 # 3)) = JS.Fin (67 # 10)
    /\ JS.arrayIndex (JS.Fin (67 # 10)) = None
    /\ Qfloor ((2 # 3) / (1 # 10)) = 6%Z
    /\ scoreColumnOf printFloat (JS.Fin (5 # 8)) = JS.Fin (29 # 2)
    /\ Qfloor (((5 # 8) + 3) / (1 # 4)) = 14%Z
    /\ scoreColumnOf printFloat (JS.Fin 3) = JS.Fin 23
    /\ recommendColumnOf printFloat (JS.Fin 1) = JS.Fin 9
    /\ exists info,
         getReviewInfoOfData printFloat twoReviews = JS.Ok info
         /\ recommendList (infoData info) = [JS.Fin (2 # 3)]
         /\ Distribution.counts (recommendDistribution (infoData info))
            = repeat (JS.VNum (JS.Fin 0)) 10.
Proof.
  intros pf. repeat split; try (vm_compute; reflexivity).
  eexists. split; [vm_compute; reflexivity|].
  split; reflexivity.
Qed.

(** C3 (defect).  On a review batch without rows getReviewInfo throws:
    scoreList is empty and reduce is called on it without an initial
    value.  On a submission dataset without rows getSubmissionInfo
    returns, with the acceptance rate 0/0 = NaN and no track. *)
Theorem C3_empty_review_batch_throws :
  forall printFloat,
    getReviewInfoOfData printFloat [] = JS.Throw JS.TypeError
    /\ JS.reduce Util.sum (@nil JS.value) = JS.Throw JS.TypeError
    /\ exists info,
         getSubmissionInfoOfData printFloat [] = JS.Ok info
         /\ acceptanceRate (infoData info) = JS.NaN
         /\ acceptanceRateByTrack (infoData info) = [].
Proof.
  intros pf. split; [reflexivity|]. split; [reflexivity|].
  eexists. split; [reflexivity|]. split; reflexivity.
Qed.

(** ** The submission analyzer *)

Module SubmissionFacts.

Import LoopFacts.

Lemma prefix_space c r :
  String.prefix " " (String c r) = Ascii.eqb c " ".
Proof.
  change (String.prefix " " (String c r))
    with (if ascii_dec " " c then String.prefix "" r else false).
  destruct (ascii_dec " " c) as [<-|H].
  - now destruct r.
  - symmetry. apply Ascii.eqb_neq. congruence.
Qed.

(** The first piece of [s.split(' ')] is the part before the first space. *)
Lemma split_space_head s :
  exists pieces, JS.split s " " = beforeSpace s :: pieces.
Proof.
  unfold JS.split. induction s as [|c r IH].
  - simpl. eauto.
  - cbn [JS.splitFrom beforeSpace]. rewrite prefix_space.
    destruct (Ascii.eqb c " ").
    + eauto.
    + destruct IH as (pieces & ->). simpl. eauto.
Qed.

Lemma submitDateOf_Ok row v :
  submitDateOf row = JS.Ok v ->
  v = JS.VStr (dateOf row) /\ exists s, prop row "submitTime" = JS.VStr s.
Proof.
  unfold submitDateOf, dateOf, dateOfTime, JS.splitOf.
  destruct (prop row "submitTime") as [| |b|n|s]; simpl; try discriminate.
  destruct (split_space_head s) as (pieces & ->). simpl.
  intros [= <-]. eauto.
Qed.

(** One turn of the loop over the rows: both date arrays receive the date
    of submitTime, and an accepted row joins acceptedSubs. *)
Lemma rowStep_Ok acc row acc' :
  rowStep acc row = JS.Ok acc' ->
  RowLoop.submissionTimes acc'
  = push (RowLoop.submissionTimes acc) (JS.VStr (dateOf row))
  /\ RowLoop.lastUpdateTimes acc'
     = push (RowLoop.lastUpdateTimes acc) (JS.VStr (dateOf row))
  /\ RowLoop.acceptedSubs acc'
     = (RowLoop.acceptedSubs acc ++ acceptedIn [row])%list
  /\ exists s, prop row "submitTime" = JS.VStr s.
Proof.
  unfold rowStep. intros H.
  apply bind_Ok in H as (acc1 & H1 & H).
  apply bind_Ok in H as (ks & _ & H).
  apply bind_Ok in H as (d1 & Hd1 & H).
  apply bind_Ok in H as (d2 & Hd2 & H).
  injection H as <-. simpl.
  apply submitDateOf_Ok in Hd1 as (-> & Hs).
  apply submitDateOf_Ok in Hd2 as (-> & _).
  assert (Hacc : RowLoop.submissionTimes acc1 = RowLoop.submissionTimes acc
                 /\ RowLoop.lastUpdateTimes acc1 = RowLoop.lastUpdateTimes acc
                 /\ RowLoop.acceptedSubs acc1
                    = (RowLoop.acceptedSubs acc ++ acceptedIn [row])%list).
  { unfold acceptedIn. simpl.
    destruct (JS.strictEqStr (prop row "decision") "reject") eqn:Er.
    - assert (Ea : JS.strictEqStr (prop row "decision") "accept" = false).
      { destruct (prop row "decision"); simpl in *; try reflexivity.
        apply String.eqb_eq in Er. now subst. }
      rewrite Ea.
      apply bind_Ok in H1 as (ks1 & _ & H1). injection H1 as <-. simpl.
      now rewrite app_nil_r.
    - destruct (JS.strictEqStr (prop row "decision") "accept").
      + apply bind_Ok in H1 as (ks1 & _ & H1).
        apply bind_Ok in H1 as (names & _ & H1). injection H1 as <-.
        simpl. auto.
      + injection H1 as <-. now rewrite app_nil_r. }
  destruct Hacc as (-> & -> & ->). auto.
Qed.

Lemma acceptedIn_app a b : acceptedIn (a ++ b) = (acceptedIn a ++ acceptedIn b)%list.
Proof. apply filter_app. Qed.

Lemma acceptedIn_cons row r :
  acceptedIn (row :: r) = (acceptedIn [row] ++ acceptedIn r)%list.
Proof. apply (acceptedIn_app [row] r). Qed.

(** The loop over the rows, from any state of the arrays. *)
Lemma rowLoop_Ok data : forall acc rows,
  JS.foldM rowStep data acc = JS.Ok rows ->
  RowLoop.submissionTimes rows
  = (RowLoop.submissionTimes acc
     ++ List.map (fun row => JS.VStr (dateOf row)) data)%list
  /\ RowLoop.lastUpdateTimes rows
     = (RowLoop.lastUpdateTimes acc
        ++ List.map (fun row => JS.VStr (dateOf row)) data)%list
  /\ RowLoop.acceptedSubs rows
     = (RowLoop.acceptedSubs acc ++ acceptedIn data)%list
  /\ Forall (fun row => exists s, prop row "submitTime" = JS.VStr s) data.
Proof.
  induction data as [|row r IH]; intros acc rows H.
  - injection H as <-. cbn. rewrite !app_nil_r. auto.
  - cbn [JS.foldM] in H. apply bind_Ok in H as (acc1 & H1 & H).
    apply rowStep_Ok in H1 as (Hs & Hu & Ha & Ht).
    apply IH in H as (-> & -> & -> & Hall).
    rewrite (acceptedIn_cons row r), Hs, Hu, Ha. unfold push.
    rewrite <- !app_assoc. cbn [List.map app]. auto 10.
Qed.

Section Tracks.

Variable printFloat : Q -> string.

Lemma trackStep_Ok acc e acc' :
  trackStep acc e = JS.Ok acc' ->
  TrackLoop.acceptanceRateByTrack acc'
  = Obj.set (fst e) (rateOf (snd e)) (TrackLoop.acceptanceRateByTrack acc)
  /\ TrackLoop.comparableAcceptanceRate acc'
     = pushComparable (fst e) (rateOf (snd e))
         (TrackLoop.comparableAcceptanceRate acc).
Proof.
  unfold trackStep. intros H.
  apply bind_Ok in H as (perRow & _ & H).
  injection H as <-. simpl. auto.
Qed.

Lemma trackStep_sets acc e acc' :
  trackStep acc e = JS.Ok acc' ->
  exists w,
    TrackLoop.acceptanceRateByTrack acc'
    = Obj.set (fst e) w (TrackLoop.acceptanceRateByTrack acc)
    /\ w = rateOf (snd e).
Proof.
  intros H. apply trackStep_Ok in H as (H & _). eauto.
Qed.

(** The groups the loop runs over: one per track name, holding the rows
    of that track. *)
Lemma track_groups data s g :
  In (s, g)
     (Lodash.mapValues (fun g => g)
        (Lodash.groupBy (fun row => toKey printFloat (prop row "trackName"))
                        data)) ->
  g = Lodash.under (trackKey printFloat) s data /\ g <> [].
Proof.
  rewrite LodashFacts.mapValues_id. intros H.
  apply ObjFacts.In_get in H; [|apply LodashFacts.keys_groupBy_NoDup].
  rewrite LodashFacts.get_groupBy in H. unfold trackKey.
  destruct (Lodash.under _ s data) eqn:E; [discriminate|].
  injection H as <-. split; [reflexivity | discriminate].
Qed.

End Tracks.

(** A count of some rows over the count of all of them is their ratio and
    lies between 0 and 1. *)
Lemma rate_ratio a b :
  (0 < b)%nat -> (a <= b)%nat ->
  isRatio (JS.div (JS.ofNat a) (JS.ofNat b)) a b
  /\ inUnitInterval (JS.div (JS.ofNat a) (JS.ofNat b)).
Proof.
  intros Hb Hab. unfold JS.div, JS.ofNat, JS.ofZ, JS.isZero. simpl.
  destruct (Z.eqb_spec (Z.of_nat b) 0) as [E|E]; [lia|].
  unfold JS.fin, isRatio, inUnitInterval.
  assert (Hq : Qred (inject_Z (Z.of_nat a) / inject_Z (Z.of_nat b))
               == inject_Z (Z.of_nat a) / inject_Z (Z.of_nat b))
    by apply Qred_correct.
  split; [exact Hq|]. rewrite Hq.
  assert (Hbq : 0 < inject_Z (Z.of_nat b)).
  { rewrite <- (Zlt_Qlt 0). lia. }
  split.
  - apply Qle_shift_div_l; [exact Hbq|]. rewrite Qmult_0_l.
    rewrite <- (Zle_Qle 0). lia.
  - apply Qle_shift_div_r; [exact Hbq|]. rewrite Qmult_1_l.
    rewrite <- Zle_Qle. lia.
Qed.

Lemma acceptedIn_length group :
  (List.length (acceptedIn group) <= List.length group)%nat.
Proof. apply filter_length_le. Qed.

End SubmissionFacts.

(** C6.  For a dataset with at least one row, the overall acceptance rate
    is the number of rows whose decision is exactly "accept" over the
    number of rows, and every entry of acceptanceRateByTrack is the same
    ratio taken over the rows of its track, which are never none; each
    rate lies between 0 and 1.  Every track has its entry, and a track of
    two rows, one accepted and one rejected, has the rate 1/2. *)
Theorem C6_acceptance_rates :
  forall printFloat data info,
    getSubmissionInfoOfData printFloat data = JS.Ok info ->
    data <> [] ->
    (isRatio (acceptanceRate (infoData info))
             (List.length (acceptedIn data)) (List.length data)
     /\ inUnitInterval (acceptanceRate (infoData info)))
    /\ (forall track rate,
          Obj.get track (acceptanceRateByTrack (infoData info)) = Some rate ->
          let group := Lodash.under (trackKey printFloat) track data in
          group <> []
          /\ isRatio rate (List.length (acceptedIn group)) (List.length group)
          /\ inUnitInterval rate)
    /\ (forall track,
          track <> "__proto__" ->
          Lodash.under (trackKey printFloat) track data <> [] ->
          Obj.get track (acceptanceRateByTrack (infoData info))
          = Some (rateOf (Lodash.under (trackKey printFloat) track data)))
    /\ (forall track r1 r2,
          track <> "__proto__" ->
          Lodash.under (trackKey printFloat) track data = [r1; r2] ->
          (prop r1 "decision" = JS.VStr "accept"
           /\ prop r2 "decision" = JS.VStr "reject")
          \/ (prop r1 "decision" = JS.VStr "reject"
              /\ prop r2 "decision" = JS.VStr "accept") ->
          Obj.get track (acceptanceRateByTrack (infoData info))
          = Some (JS.Fin (1 # 2))).
Proof.
  intros pf data info H Hne.
  unfold getSubmissionInfoOfData in H.
  apply LoopFacts.bind_Ok in H as (rows & Hrows & H).
  apply LoopFacts.bind_Ok in H as (tracks & Htracks & H).
  injection H as <-. cbn [infoData acceptanceRate acceptanceRateByTrack].
  apply SubmissionFacts.rowLoop_Ok in Hrows as (_ & _ & Hacc & _).
  cbn [RowLoop.acceptedSubs app] in Hacc. rewrite Hacc.
  assert (Hnd : NoDup (Obj.keys
                  (Lodash.mapValues (fun g => g)
                     (Lodash.groupBy
                        (fun row => toKey pf (prop row "trackName")) data)))).
  { rewrite LodashFacts.mapValues_id. apply LodashFacts.keys_groupBy_NoDup. }
  assert (Hrate : forall g : list Papa.Row, g <> [] ->
            isRatio (rateOf g)
                    (List.length (acceptedIn g)) (List.length g)
            /\ inUnitInterval (rateOf g)).
  { intros g Hg. apply SubmissionFacts.rate_ratio.
    - destruct g; [congruence | simpl; lia].
    - apply SubmissionFacts.acceptedIn_length. }
  assert (Hentry : forall track,
            track <> "__proto__" ->
            Lodash.under (trackKey pf) track data <> [] ->
            Obj.get track (TrackLoop.acceptanceRateByTrack tracks)
            = Some (rateOf (Lodash.under (trackKey pf) track data))).
  { intros track Hproto Hg.
    destruct (@LoopFacts.foldM_entry _ _ _ trackStep
                TrackLoop.acceptanceRateByTrack
                (fun g w => w = rateOf g)
                SubmissionFacts.trackStep_sets _ _ _ track
                (Lodash.under (trackKey pf) track data)
                Hnd Htracks) as (w & Hw & ->).
    - rewrite LodashFacts.mapValues_id. apply ObjFacts.get_In.
      rewrite LodashFacts.get_groupBy. unfold trackKey in *.
      destruct (Lodash.under _ track data); congruence.
    - exact Hproto.
    - exact Hw. }
  split; [|split; [|split]].
  - apply (Hrate data Hne).
  - intros track rate Hget. cbv zeta.
    destruct (@LoopFacts.foldM_from_empty _ _ _ trackStep
                TrackLoop.acceptanceRateByTrack
                (fun g w => w = rateOf g)
                SubmissionFacts.trackStep_sets _ _ _ track rate
                Hnd Htracks eq_refl Hget) as (_ & g & Hin & ->).
    apply SubmissionFacts.track_groups in Hin as (-> & Hg).
    split; [exact Hg|]. now apply Hrate.
  - exact Hentry.
  - intros track r1 r2 Hproto Hg Hdec.
    rewrite (Hentry track Hproto) by (rewrite Hg; discriminate).
    rewrite Hg. unfold rateOf, acceptedIn. cbn [List.filter].
    destruct Hdec as [[-> ->]|[-> ->]]; reflexivity.
Qed.

Lemma C6_witness :
  exists info,
    getSubmissionInfoOfData printDecimal twoDecisions = JS.Ok info
    /\ Obj.get "Full Papers" (acceptanceRateByTrack (infoData info))
       = Some (JS.Fin (1 # 2))
    /\ isRatio (JS.Fin (1 # 2)) 1 2
    /\ inUnitInterval (acceptanceRate (infoData info)).
Proof.
  destruct (getSubmissionInfoOfData printDecimal twoDecisions) as [info|e]
    eqn:Hrun; [|vm_compute in Hrun; discriminate Hrun].
  exists info. split; [reflexivity|].
  assert (Hne : twoDecisions <> []) by discriminate.
  destruct (@C6_acceptance_rates printDecimal twoDecisions info Hrun Hne)
    as ((_ & Hunit) & Htrack & _ & Hhalf).
  assert (Hget : Obj.get "Full Papers" (acceptanceRateByTrack (infoData info))
                 = Some (JS.Fin (1 # 2))).
  { apply (Hhalf "Full Papers"
             (submissionRow 1 "Full Papers" "Ada Lovelace and Alan Turing"
                "2020-01-01 10:00" "Logic" "accept")
             (submissionRow 2 "Full Papers" "Grace Hopper" "2020-01-01 11:00"
                "Compilers" "reject")).
    - discriminate.
    - reflexivity.
    - left. split; reflexivity. }
  split; [exact Hget|]. split; [|exact Hunit].
  exact (proj1 (proj2 (Htrack "Full Papers" (JS.Fin (1 # 2)) Hget))).
Defined.

(** ** Counting and the time series *)

Module SeriesFacts.

Import Obj ObjFacts UtilFacts.

Lemma weigh_perm test l l' : Permutation l l' -> weigh test l = weigh test l'.
Proof.
  induction 1; simpl; lia.
Qed.

Lemma weigh_update test k c o :
  get k o = Some c ->
  weigh test (update k (S c) o) = (weigh test o + if test k then 1 else 0)%nat.
Proof.
  induction o as [|[k0 v0] r IH]; simpl; [discriminate|].
  destruct (String.eqb_spec k0 k) as [->|Hk]; simpl.
  - intros [= ->]. destruct (test k); lia.
  - intros H. rewrite (IH H). lia.
Qed.

Section Counting.

Context {A : Type}.
Variable key : A -> string.

Lemma weigh_countStep test o x :
  weigh test (Lodash.countStep key o x)
  = (weigh test o + if test (key x) then 1 else 0)%nat.
Proof.
  unfold Lodash.countStep. destruct (get (key x) o) eqn:Hx.
  - now apply weigh_update.
  - rewrite (weigh_perm test (define_perm (key x) 1%nat o Hx)). simpl.
    destruct (test (key x)); lia.
Qed.

(** The counts of a frequency map add up to the number of items, and so do
    the counts of the keys that pass a test. *)
Lemma weigh_countBy test xs :
  weigh test (Lodash.countBy key xs)
  = List.length (List.filter (fun x => test (key x)) xs).
Proof.
  unfold Lodash.countBy.
  assert (G : forall o,
            weigh test (fold_left (Lodash.countStep key) xs o)
            = (weigh test o
               + List.length (List.filter (fun x => test (key x)) xs))%nat).
  { induction xs as [|x r IH]; intros o; simpl; [lia|].
    rewrite IH, weigh_countStep. destruct (test (key x)); simpl; lia. }
  now rewrite G.
Qed.

Lemma countBy_map {B : Type} (f : B -> A) (ys : list B) :
  Lodash.countBy key (List.map f ys) = Lodash.countBy (fun y => key (f y)) ys.
Proof.
  unfold Lodash.countBy. generalize (@Obj.empty nat).
  induction ys as [|y r IH]; intros o; simpl; [reflexivity|].
  now rewrite IH.
Qed.

(** The keys of a frequency map are the keys of the items. *)
Lemma keys_countBy xs k :
  In k (keys (Lodash.countBy key xs)) <-> In k (List.map key xs).
Proof.
  assert (Hk : In k (keys (Lodash.countBy key xs))
               <-> get k (Lodash.countBy key xs) <> None).
  { pose proof (get_None_keys k (Lodash.countBy key xs)) as Hn.
    destruct (get k (Lodash.countBy key xs)) eqn:E.
    - split; [discriminate|]. intros _.
      apply get_In in E. change k with (fst (k, n)). now apply in_map.
    - split; [|congruence]. intros Hin. now apply Hn in Hin. }
  rewrite Hk, LodashFacts.get_countBy. unfold Lodash.under.
  split.
  - intros H. destruct (filter _ xs) as [|a l] eqn:E; [now simpl in H|].
    assert (Ha : In a (filter (fun x => String.eqb (key x) k) xs))
      by (rewrite E; now left).
    apply filter_In in Ha as (Ha & Hkey). apply String.eqb_eq in Hkey.
    subst k. now apply in_map.
  - intros H. apply in_map_iff in H as (a & <- & Ha).
    assert (Hin : In a (filter (fun x => String.eqb (key x) (key a)) xs)).
    { apply filter_In. split; [exact Ha | apply String.eqb_refl]. }
    destruct (filter _ xs); [contradiction | simpl; discriminate].
Qed.

End Counting.

Lemma cumulative_dates stamps : forall count,
  List.map x (cumulative stamps count) = List.map fst stamps.
Proof.
  induction stamps as [|e r IH]; intros count; simpl; [reflexivity|].
  now rewrite IH.
Qed.

Lemma strict_of_NoDup l :
  StronglySorted keyLe l -> NoDup (List.map fst l) -> StronglySorted keyLt l.
Proof.
  induction 1 as [|a l Hs IH Hall]; simpl; intros Hnd; constructor.
  - apply IH. now inversion Hnd.
  - inversion Hnd as [|? ? Hnot _]; subst.
    rewrite Forall_forall in *. intros b Hb.
    specialize (Hall b Hb). unfold keyLe, leStr in Hall. unfold keyLt.
    destruct (JS.ltb (fst a) (fst b)) eqn:E; [reflexivity|].
    exfalso. apply Hnot. rewrite (ltb_total _ _ E Hall).
    now apply in_map.
Qed.

Lemma cumulative_sorted stamps : forall count,
  StronglySorted keyLt stamps ->
  StronglySorted earlier (cumulative stamps count).
Proof.
  induction stamps as [|e r IH]; intros count Hs; simpl; constructor.
  - apply IH. now inversion Hs.
  - inversion Hs as [|? ? _ Hall]; subst.
    rewrite Forall_forall in *. intros p Hp.
    assert (Hx : In (x p) (List.map fst r)).
    { rewrite <- (cumulative_dates r (count + snd e)). now apply in_map. }
    apply in_map_iff in Hx as (b & Hb & Hin).
    specialize (Hall b Hin). unfold keyLt in Hall. unfold earlier. simpl.
    now rewrite <- Hb.
Qed.

Lemma weigh_all_later d r :
  Forall (fun b => JS.ltb d (fst b) = true) r ->
  weigh (fun k => negb (JS.ltb d k)) r = 0%nat.
Proof.
  induction 1 as [|b r Hb _ IH]; simpl; [reflexivity|].
  now rewrite Hb, IH.
Qed.

(** On stamps in strictly ascending order, the running total at a point is
    the total of the counts of the dates up to the point's own. *)
Lemma cumulative_weigh stamps : forall count p,
  StronglySorted keyLt stamps ->
  In p (cumulative stamps count) ->
  y p = (count + weigh (fun k => negb (JS.ltb (x p) k)) stamps)%nat.
Proof.
  induction stamps as [|e r IH]; intros count p Hs Hin; simpl in *.
  - contradiction.
  - inversion Hs as [|? ? Hr Hall]; subst.
    destruct Hin as [<-|Hin]; simpl.
    + rewrite ltb_irrefl. simpl.
      rewrite weigh_all_later; [lia | exact Hall].
    + rewrite (IH _ _ Hr Hin).
      assert (Hx : In (x p) (List.map fst r)).
      { rewrite <- (cumulative_dates r (count + snd e)). now apply in_map. }
      apply in_map_iff in Hx as (b & Hb & Hb').
      rewrite Forall_forall in Hall. specialize (Hall b Hb').
      unfold keyLt in Hall. rewrite Hb in Hall.
      assert (E : JS.ltb (x p) (fst e) = false).
      { destruct (JS.ltb (x p) (fst e)) eqn:E; [|reflexivity].
        pose proof (ltb_trans _ _ _ E Hall) as Hpp.
        now rewrite ltb_irrefl in Hpp. }
      rewrite E. simpl. lia.
Qed.

Lemma last_default {A : Type} (l : list A) : forall a d d',
  List.last (a :: l) d = List.last (a :: l) d'.
Proof.
  induction l as [|b l IH]; intros a d d'; [reflexivity|].
  change (List.last (b :: l) d = List.last (b :: l) d'). apply IH.
Qed.

(** The last running total is the total of all counts. *)
Lemma cumulative_last stamps : forall count d,
  y (List.last (cumulative stamps count) {| x := d; y := count |})
  = (count + weigh (fun _ => true) stamps)%nat.
Proof.
  induction stamps as [|e r IH]; intros count d; simpl; [lia|].
  destruct (cumulative r (count + snd e)) as [|q l] eqn:E.
  - destruct r; [simpl; lia | discriminate].
  - rewrite (last_default l q {| x := d; y := count |}
                          {| x := d; y := (count + snd e)%nat |}).
    rewrite <- E, IH. lia.
Qed.

End SeriesFacts.

(** Both series of getSubmissionInfo are the series of the submit dates. *)
Lemma series_of_submit_dates printFloat data info :
  getSubmissionInfoOfData printFloat data = JS.Ok info ->
  timeSeries (infoData info) = seriesOf (List.map dateOf data)
  /\ lastEditSeries (infoData info) = seriesOf (List.map dateOf data)
  /\ Forall (fun row => exists s, prop row "submitTime" = JS.VStr s) data.
Proof.
  unfold getSubmissionInfoOfData. intros H.
  apply LoopFacts.bind_Ok in H as (rows & Hrows & H).
  apply LoopFacts.bind_Ok in H as (tracks & _ & H).
  injection H as <-. cbn [infoData timeSeries lastEditSeries].
  apply SubmissionFacts.rowLoop_Ok in Hrows as (Hs & Hu & _ & Hall).
  cbn [RowLoop.submissionTimes RowLoop.lastUpdateTimes app] in Hs, Hu.
  rewrite Hs, Hu. unfold seriesOf.
  rewrite (SeriesFacts.countBy_map (fun d => d) dateOf data).
  rewrite (SeriesFacts.countBy_map (toKey printFloat)
             (fun row => JS.VStr (dateOf row)) data).
  auto.
Qed.

(** C4.  The series of the last edits is, point for point, the series of
    the submissions: both are built from the date before the first space
    of submitTime, and lastUpdateTime is not read.  Two datasets with the
    same submitTime column have the same series of last edits, whatever
    their lastUpdateTime columns hold. *)
Theorem C4_last_edit_series_repeats_time_series :
  forall printFloat data info,
    getSubmissionInfoOfData printFloat data = JS.Ok info ->
    lastEditSeries (infoData info) = timeSeries (infoData info)
    /\ lastEditSeries (infoData info)
       = seriesOf (List.map dateOfTime
                     (List.map (fun row => prop row "submitTime") data))
    /\ (forall data' info',
          getSubmissionInfoOfData printFloat data' = JS.Ok info' ->
          List.map (fun row => prop row "submitTime") data'
          = List.map (fun row => prop row "submitTime") data ->
          lastEditSeries (infoData info') = lastEditSeries (infoData info)).
Proof.
  intros pf data info H.
  destruct (series_of_submit_dates pf data H) as (Ht & Hl & _).
  assert (Hd : forall rows : list Papa.Row,
            List.map dateOf rows
            = List.map dateOfTime
                (List.map (fun row => prop row "submitTime") rows))
    by (intros rows; now rewrite List.map_map).
  split; [congruence|]. split.
  - now rewrite Hl, Hd.
  - intros data' info' H' Hsame.
    destruct (series_of_submit_dates pf data' H') as (_ & Hl' & _).
    now rewrite Hl, Hl', !Hd, Hsame.
Qed.

Lemma C4_witness :
  exists info,
    getSubmissionInfoOfData printDecimal threeSubmissions = JS.Ok info
    /\ lastEditSeries (infoData info) = timeSeries (infoData info)
    /\ lastEditSeries (infoData info)
       = [{| x := "2020-01-01"; y := 2 |}; {| x := "2020-01-02"; y := 3 |}].
Proof.
  destruct (getSubmissionInfoOfData printDecimal threeSubmissions) as [info|e]
    eqn:Hrun; [|vm_compute in Hrun; discriminate Hrun].
  exists info. split; [reflexivity|].
  destruct (@C4_last_edit_series_repeats_time_series printDecimal
              threeSubmissions info Hrun) as (Hsame & Hdates & _).
  split; [exact Hsame|]. rewrite Hdates. vm_compute. reflexivity.
Defined.

(** C7.  The time series has one point per distinct submit date (the part
    of submitTime before its first space, submitTime being a text in every
    row), in strictly ascending order of the dates; the y of a point is
    the number of rows submitted on a date up to the point's own, and the
    last y is the number of rows. *)
Theorem C7_time_series :
  forall printFloat data info,
    getSubmissionInfoOfData printFloat data = JS.Ok info ->
    let series := timeSeries (infoData info) in
    Forall (fun row => exists s, prop row "submitTime" = JS.VStr s
                                 /\ dateOf row = beforeSpace s) data
    /\ NoDup (List.map x series)
    /\ (forall d, In d (List.map x series) <-> In d (List.map dateOf data))
    /\ StronglySorted earlier series
    /\ (forall p, In p series -> y p = submittedUpTo (x p) data)
    /\ y (List.last series {| x := ""; y := 0 |}) = List.length data.
Proof.
  intros pf data info H series.
  destruct (series_of_submit_dates pf data H) as (Ht & _ & Hall).
  subst series. rewrite Ht. unfold seriesOf.
  set (counts := Lodash.countBy (fun d => d) (List.map dateOf data)).
  set (stamps := Util.getSortedArrayFromMapUsingKey counts).
  assert (Hperm : Permutation stamps counts)
    by apply UtilFacts.sortedByKey_perm.
  assert (Hnd : NoDup (List.map fst stamps)).
  { eapply Permutation_NoDup.
    - symmetry. apply Permutation_map. exact Hperm.
    - apply LodashFacts.keys_countBy_NoDup. }
  assert (Hsorted : StronglySorted keyLt stamps).
  { apply SeriesFacts.strict_of_NoDup; [|exact Hnd].
    apply UtilFacts.sortedByKey_sorted. }
  assert (Hweigh : forall test,
            weigh test stamps
            = List.length (List.filter (fun row => test (dateOf row)) data)).
  { intros test. rewrite (SeriesFacts.weigh_perm test Hperm). unfold counts.
    rewrite SeriesFacts.weigh_countBy.
    clear. induction data as [|row r IH]; simpl; [reflexivity|].
    destruct (test (dateOf row)); simpl; now rewrite IH. }
  repeat split.
  - eapply Forall_impl; [|exact Hall].
    intros row (s & Hs). exists s. split; [exact Hs|].
    unfold dateOf. now rewrite Hs.
  - now rewrite SeriesFacts.cumulative_dates.
  - rewrite SeriesFacts.cumulative_dates. intros Hd.
    apply (Permutation_in _ (Permutation_map fst Hperm)) in Hd.
    apply (SeriesFacts.keys_countBy (fun d => d)) in Hd.
    now rewrite List.map_id in Hd.
  - rewrite SeriesFacts.cumulative_dates. intros Hd.
    apply (Permutation_in _ (Permutation_sym (Permutation_map fst Hperm))).
    apply (SeriesFacts.keys_countBy (fun d => d)).
    now rewrite List.map_id.
  - now apply SeriesFacts.cumulative_sorted.
  - intros p Hp.
    rewrite (SeriesFacts.cumulative_weigh _ _ Hsorted Hp), Hweigh.
    reflexivity.
  - rewrite SeriesFacts.cumulative_last, Hweigh. simpl.
    clear. induction data; simpl; auto.
Qed.

Lemma C7_witness :
  exists info,
    getSubmissionInfoOfData printDecimal threeSubmissions = JS.Ok info
    /\ timeSeries (infoData info)
       = [{| x := "2020-01-01"; y := 2 |}; {| x := "2020-01-02"; y := 3 |}]
    /\ y (List.last (timeSeries (infoData info)) {| x := ""; y := 0 |})
       = List.length threeSubmissions.
Proof.
  destruct (getSubmissionInfoOfData printDecimal threeSubmissions) as [info|e]
    eqn:Hrun; [|vm_compute in Hrun; discriminate Hrun].
  exists info. split; [reflexivity|].
  pose proof (@C7_time_series printDecimal threeSubmissions info Hrun) as Hc.
  cbv zeta in Hc. destruct Hc as (_ & _ & _ & _ & _ & Hlast).
  split; [|exact Hlast].
  vm_compute in Hrun. injection Hrun as <-. reflexivity.
Defined.

(** ** The author analyzer *)

Module AuthorFacts.

Lemma append_empty (s : string) : s ++ "" = s.
Proof. induction s; simpl; [reflexivity|]. now f_equal. Qed.

Lemma append_assoc (a b c : string) : (a ++ b) ++ c = a ++ b ++ c.
Proof. induction a; simpl; [reflexivity|]. now f_equal. Qed.

Lemma combine_fst_snd {A B : Type} (l : list (A * B)) :
  List.combine (List.map fst l) (List.map snd l) = l.
Proof.
  induction l as [|[a b] r IH]; simpl; [reflexivity|]. now rewrite IH.
Qed.

(** A column that a row does not have reads as undefined. *)
Lemma prop_absent (row : Papa.Row) k :
  Obj.get k row = None -> prop row k = JS.VUndef.
Proof. unfold prop. now intros ->. Qed.

Section Facts.

Variable printFloat : Q -> string.

(** The name is the text of the first name, a space and the text of the
    last name, whatever the two values are. *)
Lemma name_parts row :
  authorName printFloat row
  = JS.VStr (toKey printFloat (prop row "firstName") ++ " "
             ++ toKey printFloat (prop row "lastName")).
Proof.
  unfold authorName, toKey.
  destruct (prop row "firstName"); cbn [JS.plus JS.toString];
    now rewrite append_assoc.
Qed.

(** The chart of a column lists every label with the number of rows that
    fall under it. *)
Lemma chart_counts (column : Papa.Row -> JS.value) data row :
  In row data ->
  let label := toKey printFloat (column row) in
  let chart :=
    chartOf (Util.getSortedArrayFromMapUsingCount
               (Lodash.countBy (toKey printFloat) (List.map column data))) in
  let n := List.length
             (Lodash.under (fun r => toKey printFloat (column r)) label data) in
  (1 <= n)%nat
  /\ In (label, n) (List.combine (Chart.labels chart) (Chart.data chart)).
Proof.
  intros Hin label chart n.
  assert (Hrow : In row (Lodash.under (fun r => toKey printFloat (column r))
                                      label data)).
  { apply filter_In. split; [exact Hin | apply String.eqb_refl]. }
  assert (Hn : (1 <= n)%nat).
  { subst n. destruct (Lodash.under _ label data); [contradiction|simpl; lia]. }
  split; [exact Hn|].
  subst chart. unfold chartOf. cbn [Chart.labels Chart.data].
  rewrite combine_fst_snd.
  eapply Permutation_in; [symmetry; apply UtilFacts.sortedByCount_perm|].
  apply ObjFacts.get_In.
  rewrite SeriesFacts.countBy_map, LodashFacts.get_countBy.
  fold n. destruct n; [lia | reflexivity].
Qed.

(** No label comes twice in the chart of a column. *)
Lemma chart_labels_NoDup (values : list JS.value) :
  NoDup (Chart.labels
           (chartOf (Util.getSortedArrayFromMapUsingCount
                       (Lodash.countBy (toKey printFloat) values)))).
Proof.
  unfold chartOf. cbn [Chart.labels].
  eapply Permutation_NoDup;
    [apply Permutation_map; symmetry; apply UtilFacts.sortedByCount_perm|].
  apply (LodashFacts.keys_countBy_NoDup (toKey printFloat) values).
Qed.

(** The three charts of the result list every row: under its name, under
    the text of its country and under the text of its affiliation. *)
Lemma charts_list_row data row :
  In row data ->
  let info := infoData (getAuthorInfoOfData printFloat data) in
  listedWith (topAuthors info) (nameKey printFloat) data
             (toKey printFloat (authorName printFloat row))
  /\ listedWith (topCountries info) (columnKey printFloat "country") data
                (toKey printFloat (prop row "country"))
  /\ listedWith (topAffiliations info) (columnKey printFloat "affiliation")
                data (toKey printFloat (prop row "affiliation")).
Proof.
  intros Hin info. unfold listedWith, nameKey, columnKey.
  split; [|split].
  - exact (chart_counts (authorName printFloat) data row Hin).
  - exact (chart_counts (fun r => prop r "country") data row Hin).
  - exact (chart_counts (fun r => prop r "affiliation") data row Hin).
Qed.

End Facts.

End AuthorFacts.

(** C5, as amended.  For every row of the data, the name that
    getAuthorInfo builds is the text of firstName, a space and the text of
    lastName, and the row is counted in topAuthors under that name, with
    all the rows of the same name.  A part that is the empty string adds
    nothing, so that the name is the other part with the space kept,
    before it or after it; a part that the row does not have adds the text
    "undefined", and a part that is null the text "null".  The row is
    counted in topCountries and in topAffiliations under the text of its
    country and of its affiliation: under the empty string when the value
    is the empty string, under "undefined" when the row has no such
    column, and under "null" when the value is null.  No label comes twice
    in a chart. *)
Theorem C5_names_and_labels_keep_the_text_of_each_part :
  forall printFloat data row,
    In row data ->
    let info := infoData (getAuthorInfoOfData printFloat data) in
    let first := prop row "firstName" in
    let last := prop row "lastName" in
    let text := toKey printFloat in
    let name := authorName printFloat row in
    let counted chart column label :=
      listedWith (chart info) (columnKey printFloat column) data label in
    (name = JS.VStr (text first ++ " " ++ text last)
     /\ listedWith (topAuthors info) (nameKey printFloat) data
                   (text first ++ " " ++ text last))
    /\ ((first = JS.VStr "" -> name = JS.VStr (" " ++ text last))
        /\ (Obj.get "firstName" row = None ->
            name = JS.VStr ("undefined " ++ text last))
        /\ (first = JS.VNull -> name = JS.VStr ("null " ++ text last)))
    /\ ((last = JS.VStr "" -> name = JS.VStr (text first ++ " "))
        /\ (Obj.get "lastName" row = None ->
            name = JS.VStr (text first ++ " undefined"))
        /\ (last = JS.VNull -> name = JS.VStr (text first ++ " null")))
    /\ (counted topCountries "country" (text (prop row "country"))
        /\ (prop row "country" = JS.VStr "" ->
            counted topCountries "country" "")
        /\ (Obj.get "country" row = None ->
            counted topCountries "country" "undefined")
        /\ (prop row "country" = JS.VNull ->
            counted topCountries "country" "null"))
    /\ (counted topAffiliations "affiliation" (text (prop row "affiliation"))
        /\ (prop row "affiliation" = JS.VStr "" ->
            counted topAffiliations "affiliation" "")
        /\ (Obj.get "affiliation" row = None ->
            counted topAffiliations "affiliation" "undefined")
        /\ (prop row "affiliation" = JS.VNull ->
            counted topAffiliations "affiliation" "null"))
    /\ (NoDup (Chart.labels (topAuthors info))
        /\ NoDup (Chart.labels (topCountries info))
        /\ NoDup (Chart.labels (topAffiliations info))).
Proof.
  intros pf data row Hin. cbv zeta.
  pose proof (AuthorFacts.name_parts pf row) as Hname.
  destruct (AuthorFacts.charts_list_row pf data row Hin)
    as (Hauthors & Hcountries & Haffiliations).
  rewrite Hname in Hauthors. cbn [toKey JS.toString] in Hauthors.
  split; [split; [exact Hname | exact Hauthors]|].
  rewrite Hname.
  split; [|split; [|split; [|split]]].
  - split; [|split]; intros H.
    + now rewrite H.
    + now rewrite (AuthorFacts.prop_absent _ _ H).
    + now rewrite H.
  - split; [|split]; intros H.
    + rewrite H. cbn [toKey JS.toString].
      now rewrite AuthorFacts.append_empty.
    + now rewrite (AuthorFacts.prop_absent _ _ H).
    + now rewrite H.
  - split; [exact Hcountries|]. split; [|split]; intros H.
    + now rewrite H in Hcountries.
    + now rewrite (AuthorFacts.prop_absent _ _ H) in Hcountries.
    + now rewrite H in Hcountries.
  - split; [exact Haffiliations|]. split; [|split]; intros H.
    + now rewrite H in Haffiliations.
    + now rewrite (AuthorFacts.prop_absent _ _ H) in Haffiliations.
    + now rewrite H in Haffiliations.
  - split; [|split]; apply AuthorFacts.chart_labels_NoDup.
Qed.

Lemma C5_witness :
  In nullPartsRow [nullPartsRow; emptyPartsRow; shortAuthorRow]
  /\ authorName printDecimal nullPartsRow = JS.VStr "Jane null"
  /\ listedWith
       (topAuthors
          (infoData (getAuthorInfoOfData printDecimal
                       [nullPartsRow; emptyPartsRow; shortAuthorRow])))
       (nameKey printDecimal)
       [nullPartsRow; emptyPartsRow; shortAuthorRow] "Jane null"
  /\ listedWith
       (topCountries
          (infoData (getAuthorInfoOfData printDecimal
                       [nullPartsRow; emptyPartsRow; shortAuthorRow])))
       (columnKey printDecimal "country")
       [nullPartsRow; emptyPartsRow; shortAuthorRow] "null".
Proof.
  assert (Hin : In nullPartsRow [nullPartsRow; emptyPartsRow; shortAuthorRow])
    by (left; reflexivity).
  split; [exact Hin|].
  pose proof (@C5_names_and_labels_keep_the_text_of_each_part printDecimal
                [nullPartsRow; emptyPartsRow; shortAuthorRow] nullPartsRow Hin)
    as H.
  cbv zeta in H.
  destruct H as ((Hname & Hauthors) & _ & _ & (_ & _ & _ & Hcountry) & _).
  split; [exact Hname|].
  split; [exact Hauthors|].
  exact (Hcountry eq_refl).
Defined.

(** C5, as stated, fails.  A row cut short after the first name has no
    lastName, and its name ends in the text "undefined", not in a bare
    space; its missing country is counted under "undefined".  A row whose
    last name and country are null has a name that ends in the text
    "null", and is counted under "null". *)
Lemma C5_counterexample :
  (Obj.get "lastName" shortAuthorRow = None
   /\ prop shortAuthorRow "firstName" = JS.VStr "Jane"
   /\ authorName printDecimal shortAuthorRow = JS.VStr "Jane undefined"
   /\ authorName printDecimal shortAuthorRow <> JS.VStr "Jane "
   /\ Chart.labels
        (topAuthors
           (infoData (getAuthorInfoOfData printDecimal [shortAuthorRow])))
      = ["Jane undefined"]
   /\ Chart.labels
        (topCountries
           (infoData (getAuthorInfoOfData printDecimal [shortAuthorRow])))
      = ["undefined"])
  /\ (prop nullPartsRow "lastName" = JS.VNull
      /\ prop nullPartsRow "firstName" = JS.VStr "Jane"
      /\ authorName printDecimal nullPartsRow = JS.VStr "Jane null"
      /\ authorName printDecimal nullPartsRow <> JS.VStr "Jane "
      /\ Chart.labels
           (topAuthors
              (infoData (getAuthorInfoOfData printDecimal [nullPartsRow])))
         = ["Jane null"]
      /\ Chart.labels
           (topCountries
              (infoData (getAuthorInfoOfData printDecimal [nullPartsRow])))
         = ["null"]).
Proof.
  repeat split; try reflexivity; discriminate.
Qed.

(** ** The calls as a whole *)

Module CallFacts.

Lemma pushComparable_lengths track rate table :
  (List.length (FullPapers (pushComparable track rate table))
   = List.length (FullPapers table)
     + (if String.eqb track "Full Papers" then 1 else 0))%nat
  /\ (List.length (ShortPapers (pushComparable track rate table))
      = List.length (ShortPapers table)
        + (if String.eqb track "Short Papers" then 1 else 0))%nat
  /\ year (pushComparable track rate table) = year table.
Proof.
  unfold pushComparable, push.
  destruct (String.eqb_spec track "Full Papers") as [->|H1]; simpl.
  - rewrite length_app. simpl. repeat split; lia.
  - destruct (String.eqb track "Short Papers"); simpl.
    + rewrite length_app. simpl. repeat split; lia.
    + repeat split; lia.
Qed.

(** Every track of one of the two names adds one rate to its series, and
    nothing else touches the table. *)
Lemma trackLoop_table entries : forall acc acc',
  JS.foldM trackStep entries acc = JS.Ok acc' ->
  (List.length (FullPapers (TrackLoop.comparableAcceptanceRate acc'))
   = List.length (FullPapers (TrackLoop.comparableAcceptanceRate acc))
     + named "Full Papers" entries)%nat
  /\ (List.length (ShortPapers (TrackLoop.comparableAcceptanceRate acc'))
      = List.length (ShortPapers (TrackLoop.comparableAcceptanceRate acc))
        + named "Short Papers" entries)%nat
  /\ year (TrackLoop.comparableAcceptanceRate acc')
     = year (TrackLoop.comparableAcceptanceRate acc).
Proof.
  unfold named.
  induction entries as [|e r IH]; intros acc acc' H.
  - injection H as <-. simpl. repeat split; lia.
  - cbn [JS.foldM] in H. apply LoopFacts.bind_Ok in H as (acc1 & H1 & H).
    apply SubmissionFacts.trackStep_Ok in H1 as (_ & Ht).
    apply IH in H as (Hf & Hs & Hy). rewrite Hf, Hs, Hy, Ht.
    destruct (pushComparable_lengths (fst e) (rateOf (snd e))
                (TrackLoop.comparableAcceptanceRate acc)) as (-> & -> & ->).
    unfold Obj.keys. cbn [List.map List.filter].
    destruct (String.eqb (fst e) "Full Papers"),
             (String.eqb (fst e) "Short Papers"); simpl; repeat split; lia.
Qed.

Lemma named_at_most_once track entries :
  NoDup (Obj.keys entries) -> (named track entries <= 1)%nat.
Proof.
  unfold named. induction 1 as [|k l Hnot _ IH]; simpl; [lia|].
  destruct (String.eqb_spec k track) as [->|Hk]; simpl; [|lia].
  assert (E : filter (fun k => String.eqb k track) l = []).
  { clear IH. induction l as [|a l IHl]; simpl; [reflexivity|].
    destruct (String.eqb_spec a track) as [->|Ha].
    - exfalso. apply Hnot. now left.
    - apply IHl. intros Hin. apply Hnot. now right. }
  rewrite E. simpl. lia.
Qed.

(** The table of a result has the eight rates of the past conferences and
    at most one more. *)
Lemma table_of_result printFloat data info :
  getSubmissionInfoOfData printFloat data = JS.Ok info ->
  let table := comparableAcceptanceRate (infoData info) in
  (8 <= List.length (FullPapers table) <= 9)%nat
  /\ (8 <= List.length (ShortPapers table) <= 9)%nat
  /\ year table = year pastConferences.
Proof.
  unfold getSubmissionInfoOfData. intros H.
  apply LoopFacts.bind_Ok in H as (rows & _ & H).
  apply LoopFacts.bind_Ok in H as (tracks & Htracks & H).
  injection H as <-. cbn [infoData comparableAcceptanceRate].
  pose proof (trackLoop_table _ _ Htracks) as (Hf & Hs & Hy).
  cbn [TrackLoop.comparableAcceptanceRate] in Hf, Hs, Hy.
  assert (Hnd : NoDup (Obj.keys
                  (Lodash.mapValues (fun g => g)
                     (Lodash.groupBy
                        (fun row => toKey printFloat (prop row "trackName"))
                        data)))).
  { rewrite LodashFacts.mapValues_id. apply LodashFacts.keys_groupBy_NoDup. }
  pose proof (@named_at_most_once "Full Papers" _ Hnd).
  pose proof (@named_at_most_once "Short Papers" _ Hnd).
  rewrite Hf, Hs, Hy. simpl. repeat split; lia.
Qed.

End CallFacts.

(** C8.  Whenever an analyzer returns, it returns the pair of an infoType
    and an infoData, the infoType being 'author' for getAuthorInfo (which
    always returns), 'review' for getReviewInfo and 'submission' for
    getSubmissionInfo, and the infoData being the analyzer's aggregate. *)
Theorem C8_return_shape :
  forall printFloat Buffer_toString Papa_parse file m,
    (exists aggregate : AuthorInfo,
       completion
         (fst (getAuthorInfo printFloat Buffer_toString Papa_parse file m))
       = JS.Ok {| infoType := "author"; infoData := aggregate |})
    /\ (forall result : Info ReviewInfo,
          completion
            (fst (getReviewInfo printFloat Buffer_toString Papa_parse file m))
          = JS.Ok result ->
          infoType result = "review")
    /\ (forall result : Info SubmissionInfo,
          completion
            (fst (getSubmissionInfo printFloat Buffer_toString Papa_parse
                    file m))
          = JS.Ok result ->
          infoType result = "submission").
Proof.
  intros pf dec parse file m. split; [|split].
  - eexists. reflexivity.
  - unfold getReviewInfo. cbn [fst completion]. unfold getReviewInfoOfData.
    intros result H.
    apply LoopFacts.bind_Ok in H as (acc & _ & H).
    apply LoopFacts.bind_Ok in H as (ms & _ & H).
    apply LoopFacts.bind_Ok in H as (mc & _ & H).
    now injection H as <-.
  - unfold getSubmissionInfo. cbn [fst completion].
    unfold getSubmissionInfoOfData. intros result H.
    apply LoopFacts.bind_Ok in H as (rows & _ & H).
    apply LoopFacts.bind_Ok in H as (tracks & _ & H).
    now injection H as <-.
Qed.

Lemma C8_witness :
  exists result,
    completion
      (fst (getReviewInfo printDecimal decodeBytes (parseTo twoReviews)
              (fileOf "") initialModule))
    = JS.Ok result
    /\ infoType result = "review".
Proof.
  destruct (completion
              (fst (getReviewInfo printDecimal decodeBytes (parseTo twoReviews)
                      (fileOf "") initialModule))) as [result|e] eqn:Hrun;
    [|vm_compute in Hrun; discriminate Hrun].
  exists result. split; [reflexivity|].
  apply (proj1 (proj2 (C8_return_shape printDecimal decodeBytes
                         (parseTo twoReviews) (fileOf "") initialModule))).
  exact Hrun.
Defined.

(** C9.  Calling an analyzer again on the same file, in the state the first
    call left the module in, gives the same run: the same console output
    and the same completion.  No call changes the state of the module.
    The table of the past conferences is made anew in each call, so that a
    result never holds more than the eight historical rates and the one of
    the call. *)
Theorem C9_calls_repeat :
  forall printFloat Buffer_toString Papa_parse file m,
    let author := getAuthorInfo printFloat Buffer_toString Papa_parse file in
    let review := getReviewInfo printFloat Buffer_toString Papa_parse file in
    let submission :=
      getSubmissionInfo printFloat Buffer_toString Papa_parse file in
    (author (snd (author m)) = author m /\ snd (author m) = m)
    /\ (review (snd (review m)) = review m /\ snd (review m) = m)
    /\ (submission (snd (submission m)) = submission m
        /\ snd (submission m) = m)
    /\ (forall info,
          completion (fst (submission (snd (submission m)))) = JS.Ok info ->
          let table := comparableAcceptanceRate (infoData info) in
          (8 <= List.length (FullPapers table) <= 9)%nat
          /\ (8 <= List.length (ShortPapers table) <= 9)%nat
          /\ year table = year pastConferences).
Proof.
  intros pf dec parse file m author review submission.
  repeat split; try reflexivity;
    apply (CallFacts.table_of_result pf _ H).
Qed.

Lemma C9_witness :
  exists info,
    completion
      (fst (getSubmissionInfo printDecimal decodeBytes (parseTo twoDecisions)
              (fileOf "")
              (snd (getSubmissionInfo printDecimal decodeBytes
                      (parseTo twoDecisions) (fileOf "") initialModule))))
    = JS.Ok info
    /\ List.length (FullPapers (comparableAcceptanceRate (infoData info))) = 9%nat
    /\ (List.length (ShortPapers (comparableAcceptanceRate (infoData info)))
        <= 9)%nat.
Proof.
  destruct (completion
              (fst (getSubmissionInfo printDecimal decodeBytes
                      (parseTo twoDecisions) (fileOf "")
                      (snd (getSubmissionInfo printDecimal decodeBytes
                              (parseTo twoDecisions) (fileOf "")
                              initialModule))))) as [info|e] eqn:Hrun;
    [|vm_compute in Hrun; discriminate Hrun].
  exists info. split; [reflexivity|].
  pose proof (C9_calls_repeat printDecimal decodeBytes (parseTo twoDecisions)
                (fileOf "") initialModule) as H.
  cbv zeta in H. destruct H as (_ & _ & _ & Htable).
  destruct (Htable info Hrun) as (_ & (_ & Hshort) & _).
  split; [|exact Hshort].
  vm_compute in Hrun. injection Hrun as <-. reflexivity.
Defined.

(* ================================================================= *)
(** * Further properties of the analyzers *)

(** X1.  When the decoded text of an author or submission file has a
    carriage return, the override drops the text up to and with the first
    carriage return and nothing else: the parser is called on the fixed
    header followed by what comes after that carriage return (so the line
    feed of a CRLF line end stays, right after the header's own carriage
    return). *)
Theorem X1_header_override_drops_first_line :
  forall printFloat Buffer_toString Papa_parse file m firstLine rest,
    Buffer_toString (buffer file) = firstLine ++ String JS.CR rest ->
    hasNoCR firstLine ->
    overrideHeader authorHeader (Buffer_toString (buffer file))
    = authorHeader ++ rest
    /\ getAuthorInfo printFloat Buffer_toString Papa_parse file m
       = ({| console :=
               logErrors
                 (Papa.errors (Papa_parse (authorHeader ++ rest) (papaConfig m)));
             completion :=
               JS.Ok (getAuthorInfoOfData printFloat
                        (Papa.data
                           (Papa_parse (authorHeader ++ rest) (papaConfig m)))) |},
          m)
    /\ getSubmissionInfo printFloat Buffer_toString Papa_parse file m
       = ({| console :=
               logErrors
                 (Papa.errors
                    (Papa_parse (submissionHeader ++ rest) (papaConfig m)));
             completion :=
               getSubmissionInfoOfData printFloat
                 (Papa.data
                    (Papa_parse (submissionHeader ++ rest) (papaConfig m))) |},
          m).
Proof.
  intros pf dec parse file m firstLine rest Htext Hline.
  pose proof (HeaderFacts.overrideHeader_first_line authorHeader rest Hline)
    as Ha.
  pose proof (HeaderFacts.overrideHeader_first_line submissionHeader rest Hline)
    as Hs.
  repeat split.
  - now rewrite Htext.
  - unfold getAuthorInfo. now rewrite Htext, Ha.
  - unfold getSubmissionInfo. now rewrite Htext, Hs.
Qed.

Lemma X1_witness :
  overrideHeader authorHeader
    (decodeBytes
       (buffer (fileOf ("#,first,last" ++ String JS.CR (String JS.LF "1,Jane,Doe")))))
  = authorHeader ++ String JS.LF "1,Jane,Doe".
Proof.
  refine (proj1 (@X1_header_override_drops_first_line printDecimal decodeBytes
                   (parseTo [])
                   (fileOf ("#,first,last"
                            ++ String JS.CR (String JS.LF "1,Jane,Doe")))
                   initialModule "#,first,last" (String JS.LF "1,Jane,Doe")
                   eq_refl _)).
  unfold hasNoCR. vm_compute. intros H.
  repeat (destruct H as [H|H]; [discriminate H|]). exact H.
Defined.

(** ** When the analyzers return *)

Module ReturnFacts.

Import LoopFacts.

Lemma mapM_Ok_iff {A B : Type} (f : A -> JS.Result B) (xs : list A) :
  (exists ys, JS.mapM f xs = JS.Ok ys)
  <-> Forall (fun x => exists y, f x = JS.Ok y) xs.
Proof.
  induction xs as [|x r IH]; simpl.
  - split; [constructor | eauto].
  - split.
    + intros (ys & H).
      apply bind_Ok in H as (y & Hy & H).
      apply bind_Ok in H as (ys' & Hr & _).
      constructor; [eauto | apply IH; eauto].
    + intros H. inversion H as [|? ? (y & Hy) Hr]; subst.
      apply IH in Hr as (ys & Hys). rewrite Hy, Hys. simpl. eauto.
Qed.

Section OneByOne.

(** A loop whose body returns or throws by the entry alone. *)
Context {A S : Type}.
Variable step : S -> A -> JS.Result S.
Variable reads : A -> Prop.
Hypothesis step_returns :
  forall acc e, (exists acc', step acc e = JS.Ok acc') <-> reads e.

Lemma foldM_Ok_iff es : forall acc,
  (exists acc', JS.foldM step es acc = JS.Ok acc') <-> Forall reads es.
Proof.
  induction es as [|e r IH]; intros acc; simpl.
  - split; [constructor | eauto].
  - split.
    + intros (acc' & H). apply bind_Ok in H as (acc1 & H1 & H).
      constructor.
      * apply (step_returns acc e). eauto.
      * apply (IH acc1). eauto.
    + intros H. inversion H as [|? ? He Hr]; subst.
      apply (step_returns acc e) in He as (acc1 & H1). rewrite H1. simpl.
      now apply IH.
Qed.

End OneByOne.

Section Groups.

Context {A : Type}.
Variable key : A -> string.

Lemma group_of_item x xs :
  In x xs ->
  In (key x, Lodash.under key (key x) xs) (Lodash.groupBy key xs)
  /\ In x (Lodash.under key (key x) xs).
Proof.
  intros Hin.
  assert (Hx : In x (Lodash.under key (key x) xs)).
  { apply filter_In. split; [exact Hin | apply String.eqb_refl]. }
  split; [|exact Hx].
  apply ObjFacts.get_In. rewrite LodashFacts.get_groupBy.
  destruct (Lodash.under key (key x) xs); [contradiction | reflexivity].
Qed.

Lemma item_of_group k g xs :
  In (k, g) (Lodash.groupBy key xs) ->
  g = Lodash.under key k xs /\ g <> [].
Proof.
  intros H.
  apply ObjFacts.In_get in H; [|apply LodashFacts.keys_groupBy_NoDup].
  rewrite LodashFacts.get_groupBy in H.
  destruct (Lodash.under key k xs) eqn:E; [discriminate|].
  injection H as <-. split; [reflexivity | discriminate].
Qed.

(** The groups are not empty and hold, all together, the items of the
    list. *)
Lemma groups_cover (reads : A -> Prop) xs :
  Forall (fun e => snd e <> [] /\ Forall reads (snd e)) (Lodash.groupBy key xs)
  <-> Forall reads xs.
Proof.
  rewrite !Forall_forall. split.
  - intros H x Hx.
    destruct (group_of_item x xs Hx) as (Hg & Hin).
    destruct (H _ Hg) as (_ & Hall). simpl in Hall.
    rewrite Forall_forall in Hall. now apply Hall.
  - intros H [k g] Hin. simpl.
    apply item_of_group in Hin as (-> & Hne). split; [exact Hne|].
    apply Forall_forall. intros x Hx. apply H.
    now apply filter_In in Hx as (Hx & _).
Qed.

Lemma keys_groupBy xs k :
  In k (Obj.keys (Lodash.groupBy key xs)) <-> In k (List.map key xs).
Proof.
  split.
  - intros H. apply in_map_iff in H as ([k' g] & <- & Hin). simpl.
    apply item_of_group in Hin as (-> & Hne).
    destruct (Lodash.under key k' xs) as [|a l] eqn:E; [congruence|].
    assert (Ha : In a (Lodash.under key k' xs)) by (rewrite E; now left).
    apply filter_In in Ha as (Ha & Hk). apply String.eqb_eq in Hk.
    subst k'. now apply in_map.
  - intros H. apply in_map_iff in H as (a & <- & Ha).
    destruct (group_of_item a xs Ha) as (Hg & _).
    change (key a) with (fst (key a, Lodash.under key (key a) xs)).
    now apply in_map.
Qed.

Lemma groupBy_nil xs : Lodash.groupBy key xs = [] <-> xs = [].
Proof.
  split; [|now intros ->].
  destruct xs as [|x r]; [reflexivity|]. intros H.
  destruct (group_of_item x (x :: r) (or_introl eq_refl)) as (Hg & _).
  rewrite H in Hg. contradiction.
Qed.

End Groups.

Lemma readReview_Ok_iff review :
  (exists scores, readReview review = JS.Ok scores) <-> hasTwoLines review = true.
Proof.
  unfold readReview, hasTwoLines.
  destruct (prop review "scores") as [| |b|n|block]; simpl;
    try (split; [intros (r & H); discriminate | discriminate]).
  destruct (JS.splitLines block) as [|l0 [|l1 [|l2 rest]]]; simpl;
    try (split; [intros (r & H); discriminate | discriminate]);
    split; eauto.
Qed.

Lemma reduce_Ok_iff {A : Type} (f : A -> A -> A) (xs : list A) :
  (exists total, JS.reduce f xs = JS.Ok total) <-> xs <> [].
Proof.
  destruct xs; simpl; split; try congruence; eauto.
  intros (t & H). discriminate.
Qed.

(** The loop body reads a group when it is not empty and every review of
    it has its two lines. *)
Lemma groupTotals_Ok_iff group :
  (exists totals, groupTotals group = JS.Ok totals)
  <-> group <> [] /\ Forall (fun row => hasTwoLines row = true) group.
Proof.
  unfold groupTotals. split.
  - intros (t & H). apply bind_Ok in H as (reviews & Hm & H).
    apply bind_Ok in H as (cs & Hc & _).
    split.
    + intros ->. simpl in Hm. injection Hm as <-. discriminate.
    + assert (Hall : Forall (fun x => exists y, readReview x = JS.Ok y) group)
        by (apply mapM_Ok_iff; eauto).
      eapply Forall_impl; [|exact Hall].
      intros row. apply readReview_Ok_iff.
  - intros (Hne & Hall).
    assert (Hm : exists reviews, JS.mapM readReview group = JS.Ok reviews).
    { apply mapM_Ok_iff. eapply Forall_impl; [|exact Hall].
      intros row. apply readReview_Ok_iff. }
    destruct Hm as (reviews & Hm). rewrite Hm.
    pose proof (mapM_length _ _ Hm) as Hlen.
    destruct reviews as [|r rs];
      [destruct group; [congruence | discriminate]|].
    simpl. eauto.
Qed.

Lemma reviewStep_Ok_iff printFloat acc e :
  (exists acc', reviewStep printFloat acc e = JS.Ok acc')
  <-> snd e <> [] /\ Forall (fun row => hasTwoLines row = true) (snd e).
Proof.
  rewrite <- groupTotals_Ok_iff. unfold reviewStep. split.
  - intros (acc' & H). apply bind_Ok in H as (t & Ht & _). eauto.
  - intros ([[c ws] wr] & Ht). rewrite Ht. simpl. eauto.
Qed.

(** Every turn of the loop adds one element to each of the three lists. *)
Lemma reviewLoop_lengths printFloat es : forall acc acc',
  JS.foldM (reviewStep printFloat) es acc = JS.Ok acc' ->
  List.length (ReviewLoop.scoreList acc')
  = (List.length (ReviewLoop.scoreList acc) + List.length es)%nat
  /\ List.length (ReviewLoop.recommendList acc')
     = (List.length (ReviewLoop.recommendList acc) + List.length es)%nat
  /\ List.length (ReviewLoop.confidenceList acc')
     = (List.length (ReviewLoop.confidenceList acc) + List.length es)%nat.
Proof.
  induction es as [|e r IH]; intros acc acc' H.
  - injection H as <-. simpl. lia.
  - cbn [JS.foldM] in H. apply bind_Ok in H as (acc1 & H1 & H).
    apply IH in H as (-> & -> & ->).
    unfold reviewStep in H1. apply bind_Ok in H1 as ([[c ws] wr] & _ & H1).
    injection H1 as <-. cbn. unfold push. rewrite !length_app. simpl. lia.
Qed.

End ReturnFacts.

(** X2.  getReviewInfo returns exactly when the batch has at least one row
    and the scores of every row are a text of two lines or more; in every
    other case it throws a TypeError (a field that is not a text has no
    split, a block of one line has no second line to split, and with no
    row at all the mean has nothing to reduce). *)
Theorem X2_review_returns_iff :
  forall printFloat data,
    ((exists info, getReviewInfoOfData printFloat data = JS.Ok info)
     <-> data <> [] /\ Forall (fun row => hasTwoLines row = true) data)
    /\ (getReviewInfoOfData printFloat data = JS.Throw JS.TypeError
        <-> data = [] \/ Exists (fun row => hasTwoLines row = false) data).
Proof.
  intros pf data.
  assert (Hiff : (exists info, getReviewInfoOfData pf data = JS.Ok info)
                 <-> data <> []
                     /\ Forall (fun row => hasTwoLines row = true) data).
  { unfold getReviewInfoOfData. rewrite LodashFacts.mapValues_id.
    set (key := fun row => toKey pf (prop row "paperId")).
    set (start := {| ReviewLoop.confidenceList := [];
                     ReviewLoop.scoreList := [];
                     ReviewLoop.recommendList := [];
                     ReviewLoop.scoreDistributionCounts :=
                       Util.fillRange (-3) 3 (1 # 4);
                     ReviewLoop.recommendDistributionCounts :=
                       Util.fillRange 0 1 (1 # 10);
                     ReviewLoop.submissionIDReviewMap := Obj.empty |}).
    pose proof (@ReturnFacts.foldM_Ok_iff _ _ (reviewStep pf)
                  (fun e => snd e <> []
                            /\ Forall (fun row => hasTwoLines row = true) (snd e))
                  (ReturnFacts.reviewStep_Ok_iff pf)
                  (Lodash.groupBy key data) start) as Hloop.
    rewrite (ReturnFacts.groups_cover key
               (fun row => hasTwoLines row = true) data) in Hloop.
    split.
    - intros (info & H).
      apply LoopFacts.bind_Ok in H as (acc & Hacc & H).
      apply LoopFacts.bind_Ok in H as (ms & Hms & _).
      split; [|apply Hloop; eauto].
      intros ->. cbn in Hacc. injection Hacc as <-. discriminate.
    - intros (Hne & Hall). apply Hloop in Hall as (acc & Hacc).
      rewrite Hacc. cbn [JS.bind].
      destruct (ReturnFacts.reviewLoop_lengths _ _ _ Hacc) as (Hs & _ & Hc).
      assert (Hgroups : Lodash.groupBy key data <> [])
        by (now rewrite ReturnFacts.groupBy_nil).
      unfold mean.
      destruct (ReviewLoop.scoreList acc) as [|s0 sl];
        [destruct (Lodash.groupBy key data); [congruence | discriminate]|].
      destruct (ReviewLoop.confidenceList acc) as [|c0 cl];
        [destruct (Lodash.groupBy key data); [congruence | discriminate]|].
      cbn. eauto. }
  split; [exact Hiff|].
  split.
  - intros Hthrow.
    destruct data as [|row r]; [now left|right].
    destruct (Forall_Exists_dec (fun x => hasTwoLines x = true)
                (fun x => Bool.bool_dec (hasTwoLines x) true) (row :: r))
      as [Hall|Hex].
    + assert (Hok : exists info,
                 getReviewInfoOfData pf (row :: r) = JS.Ok info)
        by (apply Hiff; split; [discriminate | exact Hall]).
      destruct Hok as (info & Hok). congruence.
    + eapply Exists_impl; [|exact Hex].
      intros x Hx. simpl in Hx. now destruct (hasTwoLines x).
  - intros Hbad.
    destruct (getReviewInfoOfData pf data) as [info|[]] eqn:E; [|reflexivity].
    exfalso. destruct (proj1 Hiff (ex_intro _ info eq_refl)) as (Hne & Hall).
    destruct Hbad as [->|Hex]; [congruence|].
    apply Exists_exists in Hex as (x & Hx & Hfalse).
    rewrite Forall_forall in Hall. specialize (Hall x Hx). congruence.
Qed.

Module SubmissionReturnFacts.

Import LoopFacts.

(** What the loop over the tracks needs of a row. *)
Lemma track_row_Ok_iff row :
  (exists pair,
     (ks <- keywordsOf row ;;
      names <-
        (if JS.strictEqStr (prop row "decision") "accept"
         then authorsOf row else JS.Ok []) ;;
      JS.Ok (ks, names)) = JS.Ok pair)
  <-> isText (prop row "keywords")
      && (if JS.strictEqStr (prop row "decision") "accept"
          then isText (prop row "authors") else true) = true.
Proof.
  unfold keywordsOf, authorsOf, JS.splitLinesOf, isText.
  destruct (prop row "keywords"); simpl;
    try (split; [intros (x & H); discriminate | discriminate]);
    destruct (JS.strictEqStr (prop row "decision") "accept"); simpl;
    try (split; eauto; fail);
    destruct (prop row "authors"); simpl;
    try (split; [intros (x & H); discriminate | discriminate]);
    split; eauto.
Qed.

Lemma readable_track_row row :
  readableSubmission row = true ->
  isText (prop row "keywords")
  && (if JS.strictEqStr (prop row "decision") "accept"
      then isText (prop row "authors") else true) = true.
Proof.
  unfold readableSubmission.
  destruct (isText (prop row "keywords")),
           (isText (prop row "submitTime")); simpl; auto; discriminate.
Qed.

Lemma rowStep_Ok_iff acc row :
  (exists acc', rowStep acc row = JS.Ok acc') <-> readableSubmission row = true.
Proof.
  unfold rowStep, readableSubmission, keywordsOf, authorsOf, submitDateOf,
    JS.splitLinesOf, JS.splitOf, isText.
  destruct (prop row "decision") as [| |b|n|d]; simpl;
    try (destruct (prop row "keywords"), (prop row "submitTime"); simpl;
         split; try discriminate; eauto; intros (x & H); discriminate).
  destruct (String.eqb_spec d "reject") as [->|Hr]; simpl.
  - destruct (prop row "keywords"), (prop row "submitTime"); simpl;
      split; try discriminate; eauto; intros (x & H); discriminate.
  - destruct (String.eqb d "accept"); simpl.
    + destruct (prop row "keywords"), (prop row "authors"),
               (prop row "submitTime"); simpl;
        split; try discriminate; eauto; intros (x & H); discriminate.
    + destruct (prop row "keywords"), (prop row "submitTime"); simpl;
        split; try discriminate; eauto; intros (x & H); discriminate.
Qed.

Lemma trackStep_Ok_iff acc e :
  (exists acc', trackStep acc e = JS.Ok acc')
  <-> Forall
        (fun row =>
           isText (prop row "keywords")
           && (if JS.strictEqStr (prop row "decision") "accept"
               then isText (prop row "authors") else true) = true)
        (snd e).
Proof.
  unfold trackStep. split.
  - intros (acc' & H). apply bind_Ok in H as (perRow & Hm & _).
    eapply Forall_impl; [intros row; apply track_row_Ok_iff|].
    apply ReturnFacts.mapM_Ok_iff. eauto.
  - intros Hall.
    assert (Hm : Forall
                   (fun row =>
                      exists pair,
                        (ks <- keywordsOf row ;;
                         names <-
                           (if JS.strictEqStr (prop row "decision") "accept"
                            then authorsOf row else JS.Ok []) ;;
                         JS.Ok (ks, names)) = JS.Ok pair) (snd e)).
    { eapply Forall_impl; [|exact Hall]. intros row. apply track_row_Ok_iff. }
    apply ReturnFacts.mapM_Ok_iff in Hm as (perRow & Hm).
    rewrite Hm. simpl. eauto.
Qed.

End SubmissionReturnFacts.

(** X3.  getSubmissionInfo returns exactly when, in every row, keywords and
    submitTime are texts and authors is a text if the decision is "accept";
    a row that misses one of them makes the whole call throw a TypeError.
    An empty dataset is read without an error. *)
Theorem X3_submission_returns_iff :
  forall printFloat data,
    ((exists info, getSubmissionInfoOfData printFloat data = JS.Ok info)
     <-> Forall (fun row => readableSubmission row = true) data)
    /\ (getSubmissionInfoOfData printFloat data = JS.Throw JS.TypeError
        <-> Exists (fun row => readableSubmission row = false) data).
Proof.
  intros pf data.
  assert (Hiff : (exists info, getSubmissionInfoOfData pf data = JS.Ok info)
                 <-> Forall (fun row => readableSubmission row = true) data).
  { unfold getSubmissionInfoOfData. rewrite LodashFacts.mapValues_id.
    set (start := {| RowLoop.acceptedSubs := [];
                     RowLoop.rejectedSubs := [];
                     RowLoop.submissionTimes := [];
                     RowLoop.lastUpdateTimes := [];
                     RowLoop.acceptedKeywords := [];
                     RowLoop.rejectedKeywords := [];
                     RowLoop.allKeywords := [];
                     RowLoop.acceptedAuthorNames := [] |}).
    pose proof (@ReturnFacts.foldM_Ok_iff _ _ rowStep
                  (fun row => readableSubmission row = true)
                  SubmissionReturnFacts.rowStep_Ok_iff data start) as Hrows.
    split.
    - intros (info & H).
      apply LoopFacts.bind_Ok in H as (rows & Hr & _).
      apply Hrows. eauto.
    - intros Hall. pose proof Hall as Hall'.
      apply Hrows in Hall as (rows & Hr). rewrite Hr. cbn [JS.bind].
      set (key := fun row => toKey pf (prop row "trackName")).
      set (tracksStart :=
             {| TrackLoop.keywordsByTrack := Obj.empty;
                TrackLoop.acceptanceRateByTrack := Obj.empty;
                TrackLoop.topAuthorsByTrack := Obj.empty;
                TrackLoop.comparableAcceptanceRate := pastConferences |}).
      assert (Ht : exists tracks,
                 JS.foldM trackStep (Lodash.groupBy key data) tracksStart
                 = JS.Ok tracks).
      { apply (@ReturnFacts.foldM_Ok_iff _ _ trackStep _
                 SubmissionReturnFacts.trackStep_Ok_iff).
        assert (Hg : Forall
                       (fun e => snd e <> []
                                 /\ Forall
                                      (fun row => readableSubmission row = true)
                                      (snd e))
                       (Lodash.groupBy key data))
          by (now apply ReturnFacts.groups_cover).
        eapply Forall_impl; [|exact Hg].
        intros e (_ & He). eapply Forall_impl; [|exact He].
        intros row. apply SubmissionReturnFacts.readable_track_row. }
      destruct Ht as (tracks & Ht). rewrite Ht. cbn [JS.bind]. eauto. }
  split; [exact Hiff|].
  split.
  - intros Hthrow.
    destruct (Forall_Exists_dec (fun x => readableSubmission x = true)
                (fun x => Bool.bool_dec (readableSubmission x) true) data)
      as [Hall|Hex].
    + apply Hiff in Hall as (info & Hok). congruence.
    + eapply Exists_impl; [|exact Hex].
      intros x Hx. simpl in Hx. now destruct (readableSubmission x).
  - intros Hbad.
    destruct (getSubmissionInfoOfData pf data) as [info|[]] eqn:E;
      [|reflexivity].
    exfalso. pose proof (proj1 Hiff (ex_intro _ info eq_refl)) as Hall.
    apply Exists_exists in Hbad as (x & Hx & Hfalse).
    rewrite Forall_forall in Hall. specialize (Hall x Hx). congruence.
Qed.

(** ** The writes to the distributions *)

Module BucketFacts.

Lemma arrayIndex_le q i (n : Z) :
  JS.arrayIndex (JS.Fin q) = Some i -> q <= inject_Z n -> (Z.of_nat i <= n)%Z.
Proof.
  unfold JS.arrayIndex. intros H Hq.
  destruct ((Z.pos (Qden (Qred q)) =? 1)%Z && (0 <=? Qnum (Qred q))%Z
            && (Qnum (Qred q) <? 4294967295)%Z) eqn:E; [|discriminate].
  injection H as <-.
  apply andb_true_iff in E as (E & _). apply andb_true_iff in E as (Hd & H0).
  apply Z.eqb_eq in Hd. apply Z.leb_le in H0.
  rewrite <- (Qred_correct q) in Hq. unfold Qle in Hq. simpl in Hq.
  rewrite Hd in Hq. rewrite Z2Nat.id by exact H0. lia.
Qed.

(** A column that is an array index is at most the clamp. *)
Lemma arrayIndex_min v (n : Z) i :
  JS.arrayIndex (JS.min v (JS.Fin (inject_Z n))) = Some i ->
  (Z.of_nat i <= n)%Z.
Proof.
  destruct v as [| | |q]; cbn [JS.min];
    try (intros H; cbn in H; discriminate H).
  - intros H. apply (@arrayIndex_le _ _ n H). apply Qle_refl.
  - destruct (Qle_bool q (inject_Z n)) eqn:E; intros H.
    + apply (@arrayIndex_le _ _ n H). now apply Qle_bool_iff.
    + apply (@arrayIndex_le _ _ n H). apply Qle_refl.
Qed.

Lemma nth_error_replace {A : Type} (l : list A) i c x j :
  nth_error l i = Some c ->
  nth_error (firstn i l ++ x :: skipn (S i) l) j
  = if (j =? i)%nat then Some x else nth_error l j.
Proof.
  revert i j. induction l as [|a l IH]; intros [|i] [|j] H; simpl in *;
    try discriminate; try reflexivity.
  now apply IH.
Qed.

Lemma length_replace {A : Type} (l : list A) i c x :
  nth_error l i = Some c ->
  List.length (firstn i l ++ x :: skipn (S i) l) = List.length l.
Proof.
  revert i. induction l as [|a l IH]; intros [|i] H; simpl in *;
    try discriminate; try reflexivity.
  f_equal. now apply IH.
Qed.

(** With a column clamped at [last], an array of more than [last] slots
    keeps its length and its slots past [last]. *)
Lemma incrementAt_clamped printFloat counts v (last : Z) :
  (last < Z.of_nat (List.length counts))%Z ->
  let counts' :=
    incrementAt printFloat counts (JS.min v (JS.Fin (inject_Z last))) in
  List.length counts' = List.length counts
  /\ forall j, (last < Z.of_nat j)%Z -> nth_error counts' j = nth_error counts j.
Proof.
  intros Hlen counts'. subst counts'. unfold incrementAt.
  destruct (JS.arrayIndex (JS.min v (JS.Fin (inject_Z last)))) as [i|] eqn:E.
  - pose proof (@arrayIndex_min v last i E) as Hi.
    destruct (nth_error counts i) as [c|] eqn:Hc.
    + split; [now apply (@length_replace _ counts i c _ Hc)|].
      intros j Hj. rewrite (@nth_error_replace _ counts i c _ j Hc).
      destruct (Nat.eqb_spec j i) as [Heq|Hne]; [lia | reflexivity].
    + apply nth_error_None in Hc. lia.
  - split; reflexivity.
Qed.

(** One turn of the loop over the submissions, seen from the two arrays of
    counts. *)
Lemma reviewStep_counts printFloat acc e acc' :
  reviewStep printFloat acc e = JS.Ok acc' ->
  (23 < Z.of_nat (List.length (ReviewLoop.scoreDistributionCounts acc)))%Z ->
  (9 < Z.of_nat (List.length (ReviewLoop.recommendDistributionCounts acc)))%Z ->
  (List.length (ReviewLoop.scoreDistributionCounts acc')
   = List.length (ReviewLoop.scoreDistributionCounts acc)
   /\ forall j, (23 < Z.of_nat j)%Z ->
        nth_error (ReviewLoop.scoreDistributionCounts acc') j
        = nth_error (ReviewLoop.scoreDistributionCounts acc) j)
  /\ (List.length (ReviewLoop.recommendDistributionCounts acc')
      = List.length (ReviewLoop.recommendDistributionCounts acc)
      /\ forall j, (9 < Z.of_nat j)%Z ->
           nth_error (ReviewLoop.recommendDistributionCounts acc') j
           = nth_error (ReviewLoop.recommendDistributionCounts acc) j).
Proof.
  unfold reviewStep. intros H Hs Hr.
  apply LoopFacts.bind_Ok in H as ([[c ws] wr] & _ & H).
  injection H as <-.
  cbn [ReviewLoop.scoreDistributionCounts
       ReviewLoop.recommendDistributionCounts].
  unfold scoreColumnOf, recommendColumnOf, column.
  split.
  - exact (@incrementAt_clamped printFloat
             (ReviewLoop.scoreDistributionCounts acc) _ 23%Z Hs).
  - exact (@incrementAt_clamped printFloat
             (ReviewLoop.recommendDistributionCounts acc) _ 9%Z Hr).
Qed.

End BucketFacts.

(** X4.  The loop of getReviewInfo never writes past the clamp: started
    with a score array of at least 24 slots and a recommend array of at
    least 10, it leaves both arrays at their length (no slot is added),
    and every slot after the 24th, respectively the 10th, as it was. *)
Theorem X4_distribution_writes_stay_in_range :
  forall printFloat entries acc acc',
    JS.foldM (reviewStep printFloat) entries acc = JS.Ok acc' ->
    (24 <= List.length (ReviewLoop.scoreDistributionCounts acc))%nat ->
    (10 <= List.length (ReviewLoop.recommendDistributionCounts acc))%nat ->
    List.length (ReviewLoop.scoreDistributionCounts acc')
    = List.length (ReviewLoop.scoreDistributionCounts acc)
    /\ List.length (ReviewLoop.recommendDistributionCounts acc')
       = List.length (ReviewLoop.recommendDistributionCounts acc)
    /\ (forall j, (24 <= j)%nat ->
          nth_error (ReviewLoop.scoreDistributionCounts acc') j
          = nth_error (ReviewLoop.scoreDistributionCounts acc) j)
    /\ (forall j, (10 <= j)%nat ->
          nth_error (ReviewLoop.recommendDistributionCounts acc') j
          = nth_error (ReviewLoop.recommendDistributionCounts acc) j).
Proof.
  intros pf entries. induction entries as [|e r IH]; intros acc acc' H Hs Hr.
  - injection H as <-. repeat split; reflexivity.
  - cbn [JS.foldM] in H. apply LoopFacts.bind_Ok in H as (acc1 & H1 & H).
    destruct (@BucketFacts.reviewStep_counts pf acc e acc1 H1)
      as ((Hls & Hjs) & (Hlr & Hjr)); [lia | lia |].
    destruct (IH acc1 acc' H) as (Hl1 & Hl2 & Hj1 & Hj2); [lia | lia |].
    rewrite Hl1, Hl2, Hls, Hlr. repeat split.
    + intros j Hj. rewrite (Hj1 j Hj). apply Hjs. lia.
    + intros j Hj. rewrite (Hj2 j Hj). apply Hjr. lia.
Qed.

Lemma X4_witness :
  exists acc',
    JS.foldM (reviewStep printDecimal) [("7", twoReviews)]
      {| ReviewLoop.confidenceList := [];
         ReviewLoop.scoreList := [];
         ReviewLoop.recommendList := [];
         ReviewLoop.scoreDistributionCounts := repeat (JS.VNum (JS.Fin 0)) 24;
         ReviewLoop.recommendDistributionCounts :=
           repeat (JS.VNum (JS.Fin 0)) 10;
         ReviewLoop.submissionIDReviewMap := Obj.empty |}
    = JS.Ok acc'
    /\ List.length (ReviewLoop.scoreDistributionCounts acc') = 24%nat
    /\ List.length (ReviewLoop.recommendDistributionCounts acc') = 10%nat.
Proof.
  destruct (JS.foldM (reviewStep printDecimal) [("7", twoReviews)]
              {| ReviewLoop.confidenceList := [];
                 ReviewLoop.scoreList := [];
                 ReviewLoop.recommendList := [];
                 ReviewLoop.scoreDistributionCounts :=
                   repeat (JS.VNum (JS.Fin 0)) 24;
                 ReviewLoop.recommendDistributionCounts :=
                   repeat (JS.VNum (JS.Fin 0)) 10;
                 ReviewLoop.submissionIDReviewMap := Obj.empty |})
    as [acc'|e] eqn:Hrun; [|vm_compute in Hrun; discriminate Hrun].
  exists acc'. split; [reflexivity|].
  destruct (@X4_distribution_writes_stay_in_range printDecimal _ _ acc' Hrun)
    as (Hs & Hr & _); [simpl; lia | simpl; lia |].
  split; [exact Hs | exact Hr].
Defined.

(** ** One entry per submission *)

Module ReviewListFacts.

Import LoopFacts.

(** The lists the loop fills hold, turn after turn, the totals of the
    groups. *)
Lemma reviewLoop_lists printFloat es : forall acc acc',
  JS.foldM (reviewStep printFloat) es acc = JS.Ok acc' ->
  exists totals,
    Forall2 (fun e t => groupTotals (snd e) = JS.Ok t) es totals
    /\ ReviewLoop.scoreList acc'
       = (ReviewLoop.scoreList acc
          ++ List.map (fun t => snd (fst t)) totals)%list
    /\ ReviewLoop.recommendList acc'
       = (ReviewLoop.recommendList acc ++ List.map snd totals)%list.
Proof.
  induction es as [|e r IH]; intros acc acc' H.
  - injection H as <-. exists []. rewrite !app_nil_r. auto.
  - cbn [JS.foldM] in H. apply bind_Ok in H as (acc1 & H1 & H).
    apply IH in H as (totals & HF & -> & ->).
    unfold reviewStep in H1. apply bind_Ok in H1 as ([[c ws] wr] & Ht & H1).
    injection H1 as <-. cbn. unfold push.
    exists ((c, ws, wr) :: totals). rewrite <- !app_assoc. simpl. auto.
Qed.

Lemma Forall2_nth {A B : Type} (R : A -> B -> Prop) xs ys :
  Forall2 R xs ys ->
  forall i x, nth_error xs i = Some x ->
  exists y, nth_error ys i = Some y /\ R x y.
Proof.
  induction 1 as [|a b xs ys Hab _ IH]; intros [|i] x Hx; simpl in *;
    try discriminate.
  - injection Hx as <-. eauto.
  - eauto.
Qed.

End ReviewListFacts.

(** X5.  In a result of getReviewInfo, scoreList and recommendList have
    one element per distinct paperId, in the order in which the ids of the
    groups are enumerated, and IDReviewMap holds under every id but
    "__proto__" the pair found at the id's position in the two lists; it
    has no property for anything that is not the paperId of a row. *)
Theorem X5_one_entry_per_submission :
  forall printFloat data info,
    getReviewInfoOfData printFloat data = JS.Ok info ->
    let ids := Obj.keys (Lodash.groupBy (paperKey printFloat) data) in
    NoDup ids
    /\ (forall s, In s ids <-> In s (List.map (paperKey printFloat) data))
    /\ List.length (scoreList (infoData info)) = List.length ids
    /\ List.length (recommendList (infoData info)) = List.length ids
    /\ (forall i s,
          nth_error ids i = Some s ->
          exists sc rc,
            nth_error (scoreList (infoData info)) i = Some sc
            /\ nth_error (recommendList (infoData info)) i = Some rc
            /\ (s <> "__proto__" ->
                Obj.get s (IDReviewMap (infoData info))
                = Some {| score := sc; recommend := rc |}))
    /\ (forall s entry,
          Obj.get s (IDReviewMap (infoData info)) = Some entry ->
          s <> "__proto__" /\ In s ids).
Proof.
  intros pf data info Hrun ids.
  pose proof Hrun as H. unfold getReviewInfoOfData in H.
  rewrite LodashFacts.mapValues_id in H.
  apply LoopFacts.bind_Ok in H as (acc & Hloop & H).
  apply LoopFacts.bind_Ok in H as (ms & _ & H).
  apply LoopFacts.bind_Ok in H as (mc & _ & H).
  injection H as <-. cbn [infoData scoreList recommendList IDReviewMap].
  fold (paperKey pf) in Hloop.
  set (groups := Lodash.groupBy (paperKey pf) data) in *.
  assert (Hnd : NoDup (Obj.keys groups))
    by apply LodashFacts.keys_groupBy_NoDup.
  destruct (ReviewListFacts.reviewLoop_lists pf _ _ Hloop)
    as (totals & HF & Hs & Hr).
  cbn [ReviewLoop.scoreList ReviewLoop.recommendList app] in Hs, Hr.
  pose proof (Forall2_length HF) as Hlen.
  split; [exact Hnd|].
  split; [intros s; apply ReturnFacts.keys_groupBy|].
  split; [rewrite Hs, length_map; unfold ids, Obj.keys;
          now rewrite length_map|].
  split; [rewrite Hr, length_map; unfold ids, Obj.keys;
          now rewrite length_map|].
  split.
  - intros i s Hi. unfold ids, Obj.keys in Hi.
    rewrite nth_error_map in Hi.
    destruct (nth_error groups i) as [[k g]|] eqn:Hg; [|discriminate].
    simpl in Hi. injection Hi as ->.
    destruct (ReviewListFacts.Forall2_nth HF i Hg) as ([[c ws] wr] & Ht & Htot).
    simpl in Htot.
    exists ws, wr. rewrite Hs, Hr.
    split; [now rewrite nth_error_map, Ht|].
    split; [now rewrite nth_error_map, Ht|].
    intros Hproto.
    destruct (@LoopFacts.foldM_entry _ _ _ (reviewStep pf)
                ReviewLoop.submissionIDReviewMap storesTotals
                (ReviewFacts.reviewStep_sets pf) groups _ acc s g
                Hnd Hloop (nth_error_In _ _ Hg) Hproto)
      as (w & Hw & c' & Hc').
    rewrite Hw. rewrite Htot in Hc'. injection Hc' as _ H1 H2.
    destruct w as [ws' wr']; simpl in *. now subst.
  - intros s entry Hget.
    destruct (@LoopFacts.foldM_from_empty _ _ _ (reviewStep pf)
                ReviewLoop.submissionIDReviewMap storesTotals
                (ReviewFacts.reviewStep_sets pf) groups _ acc s entry
                Hnd Hloop eq_refl Hget) as (Hproto & g & Hin & _).
    split; [exact Hproto|].
    change s with (fst (s, g)). now apply in_map.
Qed.

Lemma X5_witness :
  exists info,
    getReviewInfoOfData printDecimal
      (reviewRow 3 12 scoresNo :: twoReviews) = JS.Ok info
    /\ Obj.keys (Lodash.groupBy (paperKey printDecimal)
                   (reviewRow 3 12 scoresNo :: twoReviews)) = ["7"; "12"]
    /\ List.length (scoreList (infoData info)) = 2%nat.
Proof.
  destruct (getReviewInfoOfData printDecimal
              (reviewRow 3 12 scoresNo :: twoReviews)) as [info|e] eqn:Hrun;
    [|vm_compute in Hrun; discriminate Hrun].
  exists info. split; [reflexivity|]. split; [reflexivity|].
  pose proof (@X5_one_entry_per_submission printDecimal _ info Hrun) as H.
  cbv zeta in H. destruct H as (_ & _ & Hlen & _).
  rewrite Hlen. reflexivity.
Defined.

(** ** The keywords *)

Module KeywordFacts.

Import LoopFacts.

Lemma lowerChar_idem c : JS.lowerChar (JS.lowerChar c) = JS.lowerChar c.
Proof. destruct c as [[] [] [] [] [] [] [] []]; reflexivity. Qed.

Lemma lowerChar_lineBreak c :
  JS.isLineBreak (JS.lowerChar c) = JS.isLineBreak c.
Proof. destruct c as [[] [] [] [] [] [] [] []]; reflexivity. Qed.

Lemma toLowerCase_idem s : JS.toLowerCase (JS.toLowerCase s) = JS.toLowerCase s.
Proof.
  induction s as [|c r IH]; simpl; [reflexivity|].
  now rewrite lowerChar_idem, IH.
Qed.

Lemma toLowerCase_noLineBreak s :
  noLineBreak s -> noLineBreak (JS.toLowerCase s).
Proof.
  unfold noLineBreak. induction s as [|c r IH]; simpl; intros H.
  - constructor.
  - inversion H; subst. constructor; [now rewrite lowerChar_lineBreak | auto].
Qed.

Lemma consHead_noLineBreak c l :
  JS.isLineBreak c = false ->
  Forall noLineBreak l -> Forall noLineBreak (JS.consHead c l).
Proof.
  intros Hc Hl. destruct l as [|h t]; simpl.
  - constructor; [|constructor]. unfold noLineBreak. simpl.
    constructor; [exact Hc | constructor].
  - inversion Hl; subst. constructor; [|assumption].
    unfold noLineBreak in *. simpl. now constructor.
Qed.

(** No piece of [s.split(/[\r\n]+/)] has a line break, and there is always
    a piece. *)
Lemma splitLines_pieces s : forall inRun,
  Forall noLineBreak (JS.splitLinesFrom s inRun)
  /\ JS.splitLinesFrom s inRun <> [].
Proof.
  induction s as [|c r IH]; intros inRun; simpl.
  - split; [|discriminate]. constructor; [constructor | constructor].
  - destruct (JS.isLineBreak c) eqn:Ec.
    + destruct inRun.
      * apply IH.
      * split; [|discriminate].
        constructor; [constructor | apply IH].
    + split.
      * apply consHead_noLineBreak; [exact Ec | apply IH].
      * destruct (JS.splitLinesFrom r false); discriminate.
Qed.

Lemma keywordsOf_Ok row ks :
  keywordsOf row = JS.Ok ks ->
  ks = keywordList row /\ isText (prop row "keywords") = true.
Proof.
  unfold keywordsOf, keywordList, JS.splitLinesOf.
  destruct (prop row "keywords"); simpl; try discriminate.
  intros [= <-]. auto.
Qed.

(** One turn of the loop over the rows, seen from the three arrays of
    keywords. *)
Lemma rowStep_keywords acc row acc' :
  rowStep acc row = JS.Ok acc' ->
  RowLoop.allKeywords acc'
  = (RowLoop.allKeywords acc ++ keywordList row)%list
  /\ RowLoop.acceptedKeywords acc'
     = (RowLoop.acceptedKeywords acc
        ++ List.concat (List.map keywordList (acceptedIn [row])))%list
  /\ RowLoop.rejectedKeywords acc'
     = (RowLoop.rejectedKeywords acc
        ++ List.concat (List.map keywordList (rejectedIn [row])))%list
  /\ isText (prop row "keywords") = true.
Proof.
  unfold rowStep. intros H.
  apply bind_Ok in H as (acc1 & H1 & H).
  apply bind_Ok in H as (ks & Hks & H).
  apply bind_Ok in H as (d1 & _ & H).
  apply bind_Ok in H as (d2 & _ & H).
  injection H as <-. cbn [RowLoop.allKeywords RowLoop.acceptedKeywords
                          RowLoop.rejectedKeywords].
  apply keywordsOf_Ok in Hks as (-> & Htext).
  unfold acceptedIn, rejectedIn, pushAll. cbn [List.filter].
  destruct (JS.strictEqStr (prop row "decision") "reject") eqn:Er.
  - assert (Ea : JS.strictEqStr (prop row "decision") "accept" = false).
    { destruct (prop row "decision"); simpl in *; try reflexivity.
      apply String.eqb_eq in Er. now subst. }
    rewrite Ea.
    apply bind_Ok in H1 as (ks1 & Hk1 & H1). injection H1 as <-.
    apply keywordsOf_Ok in Hk1 as (-> & _). cbn.
    unfold pushAll. now rewrite !app_nil_r.
  - destruct (JS.strictEqStr (prop row "decision") "accept").
    + apply bind_Ok in H1 as (ks1 & Hk1 & H1).
      apply bind_Ok in H1 as (names & _ & H1). injection H1 as <-.
      apply keywordsOf_Ok in Hk1 as (-> & _). cbn.
      unfold pushAll. now rewrite !app_nil_r.
    + injection H1 as <-. cbn. now rewrite !app_nil_r.
Qed.

Lemma rejectedIn_cons row r :
  rejectedIn (row :: r) = (rejectedIn [row] ++ rejectedIn r)%list.
Proof. apply (filter_app _ [row] r). Qed.

(** The loop over the rows, seen from the three arrays of keywords. *)
Lemma rowLoop_keywords data : forall acc rows,
  JS.foldM rowStep data acc = JS.Ok rows ->
  RowLoop.allKeywords rows
  = (RowLoop.allKeywords acc
     ++ List.concat (List.map keywordList data))%list
  /\ RowLoop.acceptedKeywords rows
     = (RowLoop.acceptedKeywords acc
        ++ List.concat (List.map keywordList (acceptedIn data)))%list
  /\ RowLoop.rejectedKeywords rows
     = (RowLoop.rejectedKeywords acc
        ++ List.concat (List.map keywordList (rejectedIn data)))%list
  /\ Forall (fun row => isText (prop row "keywords") = true) data.
Proof.
  induction data as [|row r IH]; intros acc rows H.
  - injection H as <-. cbn. rewrite !app_nil_r. auto.
  - cbn [JS.foldM] in H. apply bind_Ok in H as (acc1 & H1 & H).
    apply rowStep_keywords in H1 as (Ha & Hc & Hr & Ht).
    apply IH in H as (-> & -> & -> & Hall).
    rewrite (SubmissionFacts.acceptedIn_cons row r), (rejectedIn_cons row r).
    rewrite Ha, Hc, Hr, !List.map_app, !List.concat_app, <- !app_assoc.
    auto 10.
Qed.

(** The three maps of keywords of a result. *)
Lemma keyword_maps printFloat data info :
  getSubmissionInfoOfData printFloat data = JS.Ok info ->
  overallKeywordMap (infoData info)
  = Lodash.countBy (fun k => k) (List.concat (List.map keywordList data))
  /\ acceptedKeywordMap (infoData info)
     = Lodash.countBy (fun k => k)
         (List.concat (List.map keywordList (acceptedIn data)))
  /\ rejectedKeywordMap (infoData info)
     = Lodash.countBy (fun k => k)
         (List.concat (List.map keywordList (rejectedIn data)))
  /\ Forall (fun row => isText (prop row "keywords") = true) data.
Proof.
  unfold getSubmissionInfoOfData. intros H.
  apply bind_Ok in H as (rows & Hrows & H).
  apply bind_Ok in H as (tracks & _ & H).
  injection H as <-.
  cbn [infoData overallKeywordMap acceptedKeywordMap rejectedKeywordMap].
  apply rowLoop_keywords in Hrows as (-> & -> & -> & Hall). auto.
Qed.

Lemma keyword_shape row k :
  In k (keywordList row) -> JS.toLowerCase k = k /\ noLineBreak k.
Proof.
  unfold keywordList. destruct (prop row "keywords"); simpl; try tauto.
  intros H. apply in_map_iff in H as (piece & <- & Hp).
  split; [apply toLowerCase_idem|].
  apply toLowerCase_noLineBreak.
  pose proof (proj1 (splitLines_pieces s false)) as Hall.
  rewrite Forall_forall in Hall. now apply Hall.
Qed.

Lemma in_keywords k rows :
  In k (List.concat (List.map keywordList rows))
  <-> exists row, In row rows /\ In k (keywordList row).
Proof.
  rewrite in_concat. split.
  - intros (l & Hl & Hk). apply in_map_iff in Hl as (row & <- & Hrow). eauto.
  - intros (row & Hrow & Hk). exists (keywordList row). split; [|exact Hk].
    now apply in_map.
Qed.

Lemma countOf_countBy k l :
  countOf k (Lodash.countBy (fun k => k) l)
  = List.length (Lodash.under (fun k => k) k l).
Proof.
  unfold countOf. rewrite LodashFacts.get_countBy.
  now destruct (List.length (Lodash.under (fun k => k) k l)).
Qed.

Lemma occurrences_app k (a b : list Papa.Row) :
  List.length
    (Lodash.under (fun k => k) k (List.concat (List.map keywordList (a ++ b))))
  = (List.length
       (Lodash.under (fun k => k) k (List.concat (List.map keywordList a)))
     + List.length
         (Lodash.under (fun k => k) k (List.concat (List.map keywordList b))))%nat.
Proof.
  unfold Lodash.under.
  now rewrite List.map_app, List.concat_app, filter_app, length_app.
Qed.

(** How often a keyword occurs in the rows. *)
Lemma occurrences_split k data :
  let occurrences rows :=
    List.length
      (Lodash.under (fun k => k) k (List.concat (List.map keywordList rows))) in
  (occurrences (acceptedIn data) + occurrences (rejectedIn data)
   <= occurrences data)%nat
  /\ (Forall (fun row =>
                JS.strictEqStr (prop row "decision") "accept"
                || JS.strictEqStr (prop row "decision") "reject" = true) data ->
      (occurrences (acceptedIn data) + occurrences (rejectedIn data))%nat
      = occurrences data).
Proof.
  intros occurrences.
  induction data as [|row r [IHle IHeq]].
  - split; [apply Nat.le_refl | reflexivity].
  - assert (Hex : JS.strictEqStr (prop row "decision") "reject" = true ->
                  JS.strictEqStr (prop row "decision") "accept" = false).
    { destruct (prop row "decision"); simpl; try discriminate.
      intros E. apply String.eqb_eq in E. now subst. }
    assert (Hcons : occurrences (row :: r)
                    = (occurrences [row] + occurrences r)%nat)
      by apply (occurrences_app k [row] r).
    assert (Ha : occurrences (acceptedIn (row :: r))
                 = (occurrences (acceptedIn [row])
                    + occurrences (acceptedIn r))%nat).
    { rewrite (SubmissionFacts.acceptedIn_cons row r).
      apply occurrences_app. }
    assert (Hr : occurrences (rejectedIn (row :: r))
                 = (occurrences (rejectedIn [row])
                    + occurrences (rejectedIn r))%nat).
    { rewrite (rejectedIn_cons row r). apply occurrences_app. }
    rewrite Hcons, Ha, Hr. clear Hcons Ha Hr.
    unfold acceptedIn at 1 3, rejectedIn at 1 3. cbn [List.filter].
    assert (H0 : occurrences [] = 0%nat) by reflexivity.
    destruct (JS.strictEqStr (prop row "decision") "accept") eqn:Ea,
             (JS.strictEqStr (prop row "decision") "reject") eqn:Er;
      try (specialize (Hex eq_refl); discriminate); rewrite ?H0.
    + split; [lia|]. intros Hall. inversion Hall as [|? ? Hrow Hr']; subst.
      specialize (IHeq Hr'). lia.
    + split; [lia|]. intros Hall. inversion Hall as [|? ? Hrow Hr']; subst.
      specialize (IHeq Hr'). lia.
    + split; [lia|]. intros Hall. inversion Hall as [|? ? Hrow Hr']; subst.
      rewrite Ea, Er in Hrow. discriminate Hrow.
Qed.

End KeywordFacts.

(** X6.  Every label of the three keyword maps of a result is in lower
    case (toLowerCase leaves it as it is) and has no line break, and a
    label of the accepted or of the rejected map is a label of the overall
    map. *)
Theorem X6_keyword_labels :
  forall printFloat data info,
    getSubmissionInfoOfData printFloat data = JS.Ok info ->
    forall k,
      In k (Obj.keys (overallKeywordMap (infoData info)))
      \/ In k (Obj.keys (acceptedKeywordMap (infoData info)))
      \/ In k (Obj.keys (rejectedKeywordMap (infoData info))) ->
      JS.toLowerCase k = k
      /\ noLineBreak k
      /\ In k (Obj.keys (overallKeywordMap (infoData info))).
Proof.
  intros pf data info H k Hk.
  destruct (KeywordFacts.keyword_maps pf data H) as (Ho & Ha & Hr & _).
  rewrite Ho, Ha, Hr in Hk. rewrite Ho. clear Ho Ha Hr.
  rewrite !(SeriesFacts.keys_countBy (fun k => k)), !List.map_id in Hk.
  rewrite (SeriesFacts.keys_countBy (fun k => k)), List.map_id.
  assert (Hrow : exists row, In row data /\ In k (keywordList row)).
  { destruct Hk as [Hk|[Hk|Hk]];
      apply KeywordFacts.in_keywords in Hk as (row & Hrow & Hin);
      exists row; (split; [|exact Hin]).
    - exact Hrow.
    - now apply filter_In in Hrow as (Hrow & _).
    - now apply filter_In in Hrow as (Hrow & _). }
  destruct Hrow as (row & Hrow & Hin).
  destruct (KeywordFacts.keyword_shape row k Hin) as (Hlow & Hbreak).
  split; [exact Hlow|]. split; [exact Hbreak|].
  apply KeywordFacts.in_keywords. eauto.
Qed.

Lemma X6_witness :
  exists info,
    getSubmissionInfoOfData printDecimal twoDecisions = JS.Ok info
    /\ Obj.keys (acceptedKeywordMap (infoData info)) = ["logic"]
    /\ In "logic" (Obj.keys (overallKeywordMap (infoData info))).
Proof.
  destruct (getSubmissionInfoOfData printDecimal twoDecisions) as [info|e]
    eqn:Hrun; [|vm_compute in Hrun; discriminate Hrun].
  exists info. split; [reflexivity|].
  assert (Hkeys : Obj.keys (acceptedKeywordMap (infoData info)) = ["logic"]).
  { vm_compute in Hrun. injection Hrun as <-. reflexivity. }
  split; [exact Hkeys|].
  apply (@X6_keyword_labels printDecimal twoDecisions info Hrun "logic").
  right. left. rewrite Hkeys. now left.
Defined.

(** X7.  For every keyword, its count in the accepted map plus its count
    in the rejected map is at most its count in the overall map (a missing
    label counting 0), and equal to it when every row is decided "accept"
    or "reject". *)
Theorem X7_keyword_counts_add_up :
  forall printFloat data info,
    getSubmissionInfoOfData printFloat data = JS.Ok info ->
    forall k,
      (countOf k (acceptedKeywordMap (infoData info))
       + countOf k (rejectedKeywordMap (infoData info))
       <= countOf k (overallKeywordMap (infoData info)))%nat
      /\ (Forall (fun row =>
                    JS.strictEqStr (prop row "decision") "accept"
                    || JS.strictEqStr (prop row "decision") "reject" = true)
                 data ->
          (countOf k (acceptedKeywordMap (infoData info))
           + countOf k (rejectedKeywordMap (infoData info)))%nat
          = countOf k (overallKeywordMap (infoData info))).
Proof.
  intros pf data info H k.
  destruct (KeywordFacts.keyword_maps pf data H) as (-> & -> & -> & _).
  rewrite !KeywordFacts.countOf_countBy.
  apply (KeywordFacts.occurrences_split k data).
Qed.

Lemma X7_witness :
  exists info,
    getSubmissionInfoOfData printDecimal threeSubmissions = JS.Ok info
    /\ (countOf "machines" (acceptedKeywordMap (infoData info))
        + countOf "machines" (rejectedKeywordMap (infoData info))
        <= countOf "machines" (overallKeywordMap (infoData info)))%nat
    /\ countOf "machines" (overallKeywordMap (infoData info)) = 1%nat.
Proof.
  destruct (getSubmissionInfoOfData printDecimal threeSubmissions) as [info|e]
    eqn:Hrun; [|vm_compute in Hrun; discriminate Hrun].
  exists info. split; [reflexivity|].
  split.
  - apply (@X7_keyword_counts_add_up printDecimal threeSubmissions info Hrun).
  - vm_compute in Hrun. injection Hrun as <-. reflexivity.
Defined.

(** X8.  Every row adds at least one keyword to the overall map: the
    counts of the map add up to at least the number of rows, every keyword
    of a row is counted, and a row whose keywords field is the empty text
    is counted under the empty keyword. *)
Theorem X8_every_row_has_a_keyword :
  forall printFloat data info,
    getSubmissionInfoOfData printFloat data = JS.Ok info ->
    (List.length data
     <= weigh (fun _ => true) (overallKeywordMap (infoData info)))%nat
    /\ (forall row,
          In row data ->
          keywordList row <> []
          /\ forall k, In k (keywordList row) ->
               (1 <= countOf k (overallKeywordMap (infoData info)))%nat)
    /\ (forall row,
          In row data ->
          prop row "keywords" = JS.VStr "" ->
          (1 <= countOf "" (overallKeywordMap (infoData info)))%nat).
Proof.
  intros pf data info H.
  destruct (KeywordFacts.keyword_maps pf data H) as (-> & _ & _ & Htext).
  assert (Hne : forall row, In row data -> keywordList row <> []).
  { intros row Hrow. rewrite Forall_forall in Htext.
    specialize (Htext row Hrow). unfold keywordList.
    destruct (prop row "keywords"); try discriminate.
    intros E. apply map_eq_nil in E.
    now apply (proj2 (KeywordFacts.splitLines_pieces s false)). }
  assert (Hcount : forall row, In row data ->
            forall k, In k (keywordList row) ->
            (1 <= countOf k (Lodash.countBy (fun k => k)
                               (List.concat (List.map keywordList data))))%nat).
  { intros row Hrow k Hk. rewrite KeywordFacts.countOf_countBy.
    assert (Hin : In k (Lodash.under (fun k => k) k
                          (List.concat (List.map keywordList data)))).
    { apply filter_In. split; [|apply String.eqb_refl].
      apply KeywordFacts.in_keywords. eauto. }
    destruct (Lodash.under _ k _); [contradiction | simpl; lia]. }
  split; [|split].
  - rewrite SeriesFacts.weigh_countBy.
    assert (Hall : List.filter (fun _ : string => true)
                     (List.concat (List.map keywordList data))
                   = List.concat (List.map keywordList data)).
    { generalize (List.concat (List.map keywordList data)).
      induction l; simpl; congruence. }
    rewrite Hall. clear Hall Hcount Htext H.
    induction data as [|row r IH]; simpl; [lia|].
    rewrite length_app.
    assert (keywordList row <> []) by (apply Hne; now left).
    assert (List.length r
            <= List.length (List.concat (List.map keywordList r)))%nat
      by (apply IH; intros x Hx; apply Hne; now right).
    destruct (keywordList row); [congruence | simpl; lia].
  - intros row Hrow. split; [now apply Hne | now apply Hcount].
  - intros row Hrow Hempty. apply (Hcount row Hrow).
    unfold keywordList. rewrite Hempty. now left.
Qed.

Lemma X8_witness :
  exists info,
    getSubmissionInfoOfData printDecimal
      [submissionRow 1 "Posters" "Ada Lovelace" "2020-01-01 10:00" "" ""]
    = JS.Ok info
    /\ (1 <= countOf "" (overallKeywordMap (infoData info)))%nat.
Proof.
  destruct (getSubmissionInfoOfData printDecimal
              [submissionRow 1 "Posters" "Ada Lovelace" "2020-01-01 10:00" ""
                 ""]) as [info|e] eqn:Hrun;
    [|vm_compute in Hrun; discriminate Hrun].
  exists info. split; [reflexivity|].
  destruct (@X8_every_row_has_a_keyword printDecimal _ info Hrun)
    as (_ & _ & Hempty).
  apply (Hempty (submissionRow 1 "Posters" "Ada Lovelace" "2020-01-01 10:00"
                   "" "")).
  - now left.
  - reflexivity.
Defined.

(** ** The maps and the table of the tracks *)

Module TrackFacts.

Import LoopFacts.

(** The table grows by the rates of the tracks of the two names, in the
    order of the loop. *)
Lemma trackLoop_series es : forall acc acc',
  JS.foldM trackStep es acc = JS.Ok acc' ->
  FullPapers (TrackLoop.comparableAcceptanceRate acc')
  = (FullPapers (TrackLoop.comparableAcceptanceRate acc)
     ++ List.map (fun e => rateOf (snd e))
          (List.filter (fun e => String.eqb (fst e) "Full Papers") es))%list
  /\ ShortPapers (TrackLoop.comparableAcceptanceRate acc')
     = (ShortPapers (TrackLoop.comparableAcceptanceRate acc)
        ++ List.map (fun e => rateOf (snd e))
             (List.filter (fun e => String.eqb (fst e) "Short Papers") es))%list
  /\ year (TrackLoop.comparableAcceptanceRate acc')
     = year (TrackLoop.comparableAcceptanceRate acc).
Proof.
  induction es as [|e r IH]; intros acc acc' H.
  - injection H as <-. simpl. now rewrite !app_nil_r.
  - cbn [JS.foldM] in H. apply bind_Ok in H as (acc1 & H1 & H).
    apply SubmissionFacts.trackStep_Ok in H1 as (_ & Ht).
    apply IH in H as (-> & -> & ->). rewrite Ht.
    unfold pushComparable, push. cbn [List.filter].
    destruct (String.eqb_spec (fst e) "Full Papers") as [E|E].
    + rewrite E. cbn. rewrite <- app_assoc. auto.
    + destruct (String.eqb (fst e) "Short Papers"); cbn;
        rewrite <- ?app_assoc; auto.
Qed.

Lemma filter_by_key {V : Type} (k : string) (es : Obj.t V) :
  NoDup (Obj.keys es) ->
  List.filter (fun e => String.eqb (fst e) k) es
  = match Obj.get k es with
    | Some g => [(k, g)]
    | None => []
    end.
Proof.
  induction es as [|[k0 v0] r IH]; simpl; intros Hnd; [reflexivity|].
  inversion Hnd as [|? ? Hnot Hnd']; subst.
  destruct (String.eqb_spec k0 k) as [->|Hk].
  - f_equal. rewrite (IH Hnd').
    apply ObjFacts.get_None_keys in Hnot. now rewrite Hnot.
  - now apply IH.
Qed.

(** What the loop over the tracks assigns to the two other maps. *)
Lemma trackStep_other_maps acc e acc' :
  trackStep acc e = JS.Ok acc' ->
  (exists w, TrackLoop.keywordsByTrack acc'
             = Obj.set (fst e) w (TrackLoop.keywordsByTrack acc) /\ True)
  /\ (exists w, TrackLoop.topAuthorsByTrack acc'
                = Obj.set (fst e) w (TrackLoop.topAuthorsByTrack acc) /\ True).
Proof.
  unfold trackStep. intros H.
  apply bind_Ok in H as (perRow & _ & H).
  injection H as <-.
  cbn [TrackLoop.keywordsByTrack TrackLoop.topAuthorsByTrack].
  split; eexists; split; (reflexivity || exact I).
Qed.

Section Properties.

Context {S V W : Type}.
Variable step : S -> string * V -> JS.Result S.
Variable target : S -> Obj.t W.
Variable made : V -> W -> Prop.
Hypothesis step_sets :
  forall acc e acc',
    step acc e = JS.Ok acc' ->
    exists w, target acc' = Obj.set (fst e) w (target acc) /\ made (snd e) w.

(** The map a loop fills from an empty one has the names of the entries,
    save "__proto__", and no other. *)
Lemma has_property entries acc acc' s :
  NoDup (Obj.keys entries) ->
  JS.foldM step entries acc = JS.Ok acc' ->
  target acc = Obj.empty ->
  (exists w, Obj.get s (target acc') = Some w)
  <-> s <> "__proto__" /\ In s (Obj.keys entries).
Proof.
  intros Hnd H He. split.
  - intros (w & Hw).
    destruct (@foldM_from_empty _ _ _ step target made step_sets
                entries acc acc' s w Hnd H He Hw) as (Hs & g & Hin & _).
    split; [exact Hs|]. change s with (fst (s, g)). now apply in_map.
  - intros (Hs & Hin). apply in_map_iff in Hin as ([k g] & Hk & Hin).
    simpl in Hk. subst k.
    destruct (@foldM_entry _ _ _ step target made step_sets
                entries acc acc' s g Hnd H Hin Hs) as (w & Hw & _).
    eauto.
Qed.

End Properties.

End TrackFacts.

(** X9.  The table of the past conferences in a result is the table
    written in the function with, at the end of the series of Full Papers
    and of Short Papers, the rate of the track of that name when the data
    have such a track: the rate found in acceptanceRateByTrack.  The years
    are untouched, so a series is as long as the years (nine) exactly when
    its track is among the data. *)
Theorem X9_comparable_table :
  forall printFloat data info,
    getSubmissionInfoOfData printFloat data = JS.Ok info ->
    let table := comparableAcceptanceRate (infoData info) in
    FullPapers table
    = (FullPapers pastConferences ++ rateAdded printFloat "Full Papers" data)%list
    /\ ShortPapers table
       = (ShortPapers pastConferences
          ++ rateAdded printFloat "Short Papers" data)%list
    /\ year table = year pastConferences
    /\ (forall rate,
          Obj.get "Full Papers" (acceptanceRateByTrack (infoData info))
          = Some rate ->
          FullPapers table = (FullPapers pastConferences ++ [rate])%list)
    /\ (forall rate,
          Obj.get "Short Papers" (acceptanceRateByTrack (infoData info))
          = Some rate ->
          ShortPapers table = (ShortPapers pastConferences ++ [rate])%list)
    /\ (List.length (FullPapers table) = List.length (year table)
        <-> In "Full Papers" (List.map (trackKey printFloat) data)).
Proof.
  intros pf data info H table. subst table.
  unfold getSubmissionInfoOfData in H.
  rewrite LodashFacts.mapValues_id in H.
  apply LoopFacts.bind_Ok in H as (rows & _ & H).
  apply LoopFacts.bind_Ok in H as (tracks & Htracks & H).
  injection H as <-.
  cbn [infoData comparableAcceptanceRate acceptanceRateByTrack].
  fold (trackKey pf) in Htracks.
  set (groups := Lodash.groupBy (trackKey pf) data) in *.
  assert (Hnd : NoDup (Obj.keys groups))
    by apply LodashFacts.keys_groupBy_NoDup.
  destruct (TrackFacts.trackLoop_series _ _ Htracks) as (Hf & Hs & Hy).
  cbn [TrackLoop.comparableAcceptanceRate] in Hf, Hs, Hy.
  assert (Hadded : forall track,
            List.map (fun e : string * list Papa.Row => rateOf (snd e))
              (List.filter (fun e => String.eqb (fst e) track) groups)
            = rateAdded pf track data).
  { intros track. rewrite (@TrackFacts.filter_by_key _ track groups Hnd).
    unfold groups, rateAdded. rewrite LodashFacts.get_groupBy.
    now destruct (Lodash.under (trackKey pf) track data). }
  rewrite !Hadded in *.
  assert (Hrate : forall track rate,
            Obj.get track (TrackLoop.acceptanceRateByTrack tracks) = Some rate ->
            rateAdded pf track data = [rate]).
  { intros track rate Hget.
    destruct (@LoopFacts.foldM_from_empty _ _ _ trackStep
                TrackLoop.acceptanceRateByTrack (fun g w => w = rateOf g)
                SubmissionFacts.trackStep_sets groups _ tracks track rate
                Hnd Htracks eq_refl Hget) as (_ & g & Hin & ->).
    apply ReturnFacts.item_of_group in Hin as (-> & Hne).
    unfold rateAdded.
    now destruct (Lodash.under (trackKey pf) track data). }
  split; [exact Hf|]. split; [exact Hs|]. split; [exact Hy|].
  split; [intros rate Hget; now rewrite Hf, (Hrate _ _ Hget)|].
  split; [intros rate Hget; now rewrite Hs, (Hrate _ _ Hget)|].
  rewrite Hf, Hy, length_app. unfold rateAdded.
  rewrite <- (ReturnFacts.keys_groupBy (trackKey pf) data "Full Papers").
  fold groups.
  destruct (Lodash.under (trackKey pf) "Full Papers" data) as [|a l] eqn:E.
  - split; [simpl; discriminate|]. intros Hin. exfalso.
    apply in_map_iff in Hin as ([k g] & Hk & Hin). simpl in Hk. subst k.
    apply ReturnFacts.item_of_group in Hin as (Hg & Hne).
    rewrite E in Hg. congruence.
  - split; [|reflexivity]. intros _.
    assert (Hg : Obj.get "Full Papers" groups = Some (a :: l))
      by (unfold groups; now rewrite LodashFacts.get_groupBy, E).
    apply ObjFacts.get_In in Hg.
    change "Full Papers" with (fst ("Full Papers", a :: l)).
    now apply in_map.
Qed.

Lemma X9_witness :
  exists info,
    getSubmissionInfoOfData printDecimal twoDecisions = JS.Ok info
    /\ FullPapers (comparableAcceptanceRate (infoData info))
       = (FullPapers pastConferences ++ [JS.Fin (1 # 2)])%list
    /\ ShortPapers (comparableAcceptanceRate (infoData info))
       = ShortPapers pastConferences.
Proof.
  destruct (getSubmissionInfoOfData printDecimal twoDecisions) as [info|e]
    eqn:Hrun; [|vm_compute in Hrun; discriminate Hrun].
  exists info. split; [reflexivity|].
  pose proof (@X9_comparable_table printDecimal twoDecisions info Hrun) as H.
  cbv zeta in H. destruct H as (Hf & Hs & _).
  rewrite Hf, Hs. split; reflexivity.
Defined.

(** X10.  The three maps of the tracks in a result (keywordsByTrack,
    acceptanceRateByTrack, topAuthorsByTrack) have the same properties:
    one for every track name among the rows, save a track named
    "__proto__", which gets none. *)
Theorem X10_track_maps_share_their_names :
  forall printFloat data info,
    getSubmissionInfoOfData printFloat data = JS.Ok info ->
    forall track,
      let named := track <> "__proto__"
                   /\ In track (List.map (trackKey printFloat) data) in
      ((exists w, Obj.get track (keywordsByTrack (infoData info)) = Some w)
       <-> named)
      /\ ((exists w, Obj.get track (acceptanceRateByTrack (infoData info))
                     = Some w) <-> named)
      /\ ((exists w, Obj.get track (topAuthorsByTrack (infoData info)) = Some w)
          <-> named).
Proof.
  intros pf data info H track named. subst named.
  unfold getSubmissionInfoOfData in H.
  rewrite LodashFacts.mapValues_id in H.
  apply LoopFacts.bind_Ok in H as (rows & _ & H).
  apply LoopFacts.bind_Ok in H as (tracks & Htracks & H).
  injection H as <-.
  cbn [infoData keywordsByTrack acceptanceRateByTrack topAuthorsByTrack].
  fold (trackKey pf) in Htracks.
  rewrite <- (ReturnFacts.keys_groupBy (trackKey pf) data track).
  assert (Hnd : NoDup (Obj.keys (Lodash.groupBy (trackKey pf) data)))
    by apply LodashFacts.keys_groupBy_NoDup.
  split; [|split].
  - apply (@TrackFacts.has_property _ _ _ trackStep TrackLoop.keywordsByTrack
             (fun _ _ => True)
             (fun acc e acc' Hs =>
                proj1 (TrackFacts.trackStep_other_maps acc e Hs))
             _ _ tracks track Hnd Htracks eq_refl).
  - apply (@TrackFacts.has_property _ _ _ trackStep
             TrackLoop.acceptanceRateByTrack (fun g w => w = rateOf g)
             SubmissionFacts.trackStep_sets
             _ _ tracks track Hnd Htracks eq_refl).
  - apply (@TrackFacts.has_property _ _ _ trackStep TrackLoop.topAuthorsByTrack
             (fun _ _ => True)
             (fun acc e acc' Hs =>
                proj2 (TrackFacts.trackStep_other_maps acc e Hs))
             _ _ tracks track Hnd Htracks eq_refl).
Qed.

Lemma X10_witness :
  exists info,
    getSubmissionInfoOfData printDecimal
      (submissionRow 9 "__proto__" "Ada Lovelace" "2020-01-03 10:00" "Logic"
         "accept" :: twoDecisions) = JS.Ok info
    /\ Obj.keys (acceptanceRateByTrack (infoData info)) = ["Full Papers"]
    /\ exists w, Obj.get "Full Papers" (keywordsByTrack (infoData info)) = Some w.
Proof.
  destruct (getSubmissionInfoOfData printDecimal
              (submissionRow 9 "__proto__" "Ada Lovelace" "2020-01-03 10:00"
                 "Logic" "accept" :: twoDecisions)) as [info|e] eqn:Hrun;
    [|vm_compute in Hrun; discriminate Hrun].
  exists info. split; [reflexivity|].
  pose proof (@X10_track_maps_share_their_names printDecimal _ info Hrun
                "Full Papers") as H.
  cbv zeta in H. destruct H as (Hk & _).
  split.
  - vm_compute in Hrun. injection Hrun as <-. reflexivity.
  - apply Hk. split; [discriminate|]. right. left. reflexivity.
Defined.

(** ** A submission with one review *)

Module SingleReviewFacts.

Lemma isZero_iff q : JS.isZero q = true <-> q == 0.
Proof.
  unfold JS.isZero, Qeq. simpl. rewrite Z.eqb_eq. lia.
Qed.

Lemma fin_zero q : q == 0 -> JS.fin q = JS.Fin 0.
Proof.
  intros H. unfold JS.fin. now rewrite (Qred_complete _ _ H).
Qed.

Lemma inject_Z_zero z : inject_Z z == 0 <-> z = 0%Z.
Proof.
  unfold Qeq. simpl. lia.
Qed.

(** An integer is its own reduced fraction. *)
Lemma fin_inject_Z z : JS.fin (inject_Z z) = JS.ofZ z.
Proof.
  unfold JS.fin, JS.ofZ, Qred, inject_Z. f_equal.
  pose proof (Z.ggcd_gcd z 1) as Hg.
  pose proof (Z.ggcd_correct_divisors z 1) as Hd.
  destruct (Z.ggcd z 1) as (g, (aa, bb)). simpl in *.
  rewrite Z.gcd_1_r in Hg. subst g. destruct Hd as (Ha & Hb).
  rewrite Z.mul_1_l in Ha, Hb. subst z bb. reflexivity.
Qed.

(** A product divided by its non-zero factor. *)
Lemma div_mul_cancel a c :
  ~ c == 0 -> JS.div (JS.fin (a * c)) (JS.Fin c) = JS.fin a.
Proof.
  intros Hc. unfold JS.div, JS.fin at 1.
  destruct (JS.isZero c) eqn:E; [apply isZero_iff in E; contradiction|].
  unfold JS.fin. f_equal. apply Qred_complete.
  rewrite (Qred_correct (a * c)). now field.
Qed.

Lemma div_zero_zero a c :
  c == 0 -> JS.div (JS.fin (a * c)) (JS.Fin c) = JS.NaN.
Proof.
  intros Hc. rewrite fin_zero by (rewrite Hc; ring).
  unfold JS.div. apply isZero_iff in Hc. now rewrite Hc.
Qed.

(** The totals of a group of one review whose score and confidence are
    finite numbers. *)
Lemma single_totals review block sc c :
  prop review "scores" = JS.VStr block ->
  hasTwoLines review = true ->
  JS.toNumber (lineValue block 0) = JS.Fin sc ->
  JS.toNumber (lineValue block 1) = JS.Fin c ->
  exists averageConfidence r,
    (r = 0 \/ r = 1)
    /\ groupTotals [review]
       = JS.Ok (averageConfidence,
                JS.div (JS.fin (sc * c)) (JS.Fin c),
                JS.div (JS.fin (r * c)) (JS.Fin c)).
Proof.
  unfold hasTwoLines, lineValue, groupTotals, JS.mapM, readReview.
  intros -> Hlen Hsc Hc. cbn [JS.splitLinesOf JS.bind].
  destruct (JS.splitLines block) as [|l0 [|l1 rest]]; try discriminate.
  cbn [nth_error] in Hsc, Hc.
  cbn [JS.item nth_error JS.splitOf JS.bind].
  assert (Hfinish : forall r : Q,
            r = 0 \/ r = 1 ->
            exists averageConfidence r',
              (r' = 0 \/ r' = 1)
              /\ (reviews <-
                    JS.Ok [{| confidence := JS.item (JS.split l1 ": ") 1;
                              weightedScore :=
                                JS.mul
                                  (JS.toNumber (JS.item (JS.split l0 ": ") 1))
                                  (JS.toNumber (JS.item (JS.split l1 ": ") 1));
                              weightedRecommend :=
                                JS.mul (JS.Fin r)
                                  (JS.toNumber (JS.item (JS.split l1 ": ") 1))
                           |}] ;;
                  confidenceSum <-
                    JS.reduce Util.sum (List.map confidence reviews) ;;
                  ws <- JS.reduce Util.sum
                          (List.map (fun r0 => JS.VNum (weightedScore r0))
                                    reviews) ;;
                  wr <- JS.reduce Util.sum
                          (List.map (fun r0 => JS.VNum (weightedRecommend r0))
                                    reviews) ;;
                  JS.Ok
                    (JS.div (JS.toNumber confidenceSum)
                       (JS.ofNat
                          (List.length (List.map confidence reviews))),
                     JS.div (JS.toNumber ws) (JS.toNumber confidenceSum),
                     JS.div (JS.toNumber wr) (JS.toNumber confidenceSum)))
                 = JS.Ok (averageConfidence,
                          JS.div (JS.fin (sc * c)) (JS.Fin c),
                          JS.div (JS.fin (r' * c)) (JS.Fin c))).
  { intros r Hr.
    cbn [JS.bind JS.reduce List.map fold_left confidence weightedScore
         weightedRecommend List.length].
    cbn [JS.toNumber]. rewrite Hsc, Hc. cbn [JS.mul].
    eexists. exists r. split; [exact Hr | reflexivity]. }
  destruct rest as [|l2 rest'].
  - cbn [List.length Nat.ltb Nat.leb JS.bind].
    exact (Hfinish 0 (or_introl eq_refl)).
  - cbn [List.length Nat.ltb Nat.leb JS.item nth_error JS.splitOf JS.bind].
    destruct (JS.strictEqStr (JS.item (JS.split l2 ": ") 1) "yes").
    + exact (Hfinish 1 (or_intror eq_refl)).
    + exact (Hfinish 0 (or_introl eq_refl)).
Qed.

End SingleReviewFacts.

(** X11.  A submission with a single review whose score and confidence
    are integers, such that the two and their product are safe integers
    (a number holds each of them exactly, so that the product and the
    quotient are computed without rounding), gets in IDReviewMap the
    score of that review and the recommend 0 or 1 when the confidence is
    not zero, whatever the confidence is; when the confidence is zero,
    both are NaN (0/0). *)
Theorem X11_single_review :
  forall printFloat data info s review block (sc c : Z),
    getReviewInfoOfData printFloat data = JS.Ok info ->
    Lodash.under (paperKey printFloat) s data = [review] ->
    s <> "__proto__" ->
    prop review "scores" = JS.VStr block ->
    JS.toNumber (lineValue block 0) = JS.ofZ sc ->
    JS.toNumber (lineValue block 1) = JS.ofZ c ->
    isSafeInteger sc = true ->
    isSafeInteger c = true ->
    isSafeInteger (sc * c) = true ->
    (c <> 0%Z ->
     exists rc,
       (rc = JS.ofZ 0 \/ rc = JS.ofZ 1)
       /\ Obj.get s (IDReviewMap (infoData info))
          = Some {| score := JS.ofZ sc; recommend := rc |})
    /\ (c = 0%Z ->
        Obj.get s (IDReviewMap (infoData info))
        = Some {| score := JS.NaN; recommend := JS.NaN |}).
Proof.
  intros pf data info s review block sc c Hrun Hgroup Hs Hblock Hsc Hc _ _ _.
  destruct (@ReviewFacts.review_entry pf data info s [review] Hrun Hgroup)
    as (w & Hw & c' & Hc'); [discriminate | exact Hs |].
  assert (Hread : hasTwoLines review = true).
  { assert (Hok : exists t, groupTotals [review] = JS.Ok t) by eauto.
    apply ReturnFacts.groupTotals_Ok_iff in Hok as (_ & Hall).
    now inversion Hall. }
  destruct (@SingleReviewFacts.single_totals review block (inject_Z sc)
              (inject_Z c) Hblock Hread Hsc Hc)
    as (avg & r & Hr & Ht).
  rewrite Ht in Hc'.
  assert (H1 : score w
               = JS.div (JS.fin (inject_Z sc * inject_Z c))
                        (JS.Fin (inject_Z c))) by congruence.
  assert (H2 : recommend w
               = JS.div (JS.fin (r * inject_Z c)) (JS.Fin (inject_Z c)))
    by congruence.
  destruct w as [ws wr]. cbn [score recommend] in H1, H2.
  subst ws wr. rewrite Hw.
  split.
  - intros Hnz.
    assert (Hq : ~ inject_Z c == 0)
      by (rewrite SingleReviewFacts.inject_Z_zero; exact Hnz).
    rewrite !SingleReviewFacts.div_mul_cancel by exact Hq.
    rewrite SingleReviewFacts.fin_inject_Z.
    exists (JS.fin r). split; [|reflexivity].
    destruct Hr as [->| ->]; [now left | now right].
  - intros Hz.
    assert (Hq : inject_Z c == 0)
      by (rewrite SingleReviewFacts.inject_Z_zero; exact Hz).
    now rewrite !SingleReviewFacts.div_zero_zero by exact Hq.
Qed.

Lemma X11_witness :
  exists info,
    getReviewInfoOfData printDecimal [reviewRow 3 12 scoresNo] = JS.Ok info
    /\ Obj.get "12" (IDReviewMap (infoData info))
       = Some {| score := JS.ofZ (-1); recommend := JS.ofZ 0 |}.
Proof.
  destruct (getReviewInfoOfData printDecimal [reviewRow 3 12 scoresNo])
    as [info|e] eqn:Hrun; [|vm_compute in Hrun; discriminate Hrun].
  exists info. split; [reflexivity|].
  destruct (@X11_single_review printDecimal [reviewRow 3 12 scoresNo] info
              "12" (reviewRow 3 12 scoresNo) scoresNo (-1)%Z 2%Z Hrun)
    as (Hnz & _); try reflexivity; try discriminate.
  destruct Hnz as (rc & _ & Hget); [discriminate|].
  rewrite Hget. vm_compute in Hrun. injection Hrun as <-.
  vm_compute in Hget. injection Hget as <-. reflexivity.
Defined.

(** ** The ends of the acceptance rate *)

Module RateFacts.

Lemma positive_count b : (0 < b)%nat -> ~ inject_Z (Z.of_nat b) == 0.
Proof.
  intros Hb H. unfold Qeq in H. simpl in H. lia.
Qed.

Lemma rate_value a b :
  (0 < b)%nat ->
  JS.div (JS.ofNat a) (JS.ofNat b)
  = JS.fin (inject_Z (Z.of_nat a) / inject_Z (Z.of_nat b)).
Proof.
  intros Hb. unfold JS.div, JS.ofNat, JS.ofZ, JS.isZero. cbn [Qnum inject_Z].
  destruct (Z.eqb_spec (Z.of_nat b) 0); [lia | reflexivity].
Qed.

Lemma fin_eq q r : JS.fin q = JS.Fin (Qred r) <-> q == r.
Proof.
  unfold JS.fin. split.
  - intros H. assert (H' : Qred q = Qred r) by congruence.
    now rewrite <- (Qred_correct q), <- (Qred_correct r), H'.
  - intros H. f_equal. now apply Qred_complete.
Qed.

Lemma ratio_eq a b (z : Z) :
  (0 < b)%nat ->
  (inject_Z (Z.of_nat a) / inject_Z (Z.of_nat b) == inject_Z z
   <-> (Z.of_nat a = z * Z.of_nat b)%Z).
Proof.
  intros Hb. pose proof (positive_count Hb) as Hnz. split.
  - intros Hq.
    assert (He : inject_Z (Z.of_nat a) == inject_Z (z * Z.of_nat b)).
    { rewrite <- (Qmult_div_r (inject_Z (Z.of_nat a))
                    (inject_Z (Z.of_nat b)) Hnz), Hq.
      rewrite inject_Z_mult. ring. }
    unfold Qeq in He. simpl in He. lia.
  - intros H. rewrite H, inject_Z_mult. now field.
Qed.

Lemma rate_is_one a b :
  (0 < b)%nat -> (JS.div (JS.ofNat a) (JS.ofNat b) = JS.Fin 1 <-> a = b).
Proof.
  intros Hb. rewrite (rate_value a Hb).
  change (JS.Fin 1) with (JS.Fin (Qred (inject_Z 1))).
  rewrite fin_eq, (ratio_eq a 1 Hb). lia.
Qed.

Lemma rate_is_zero a b :
  (0 < b)%nat -> (JS.div (JS.ofNat a) (JS.ofNat b) = JS.Fin 0 <-> a = 0%nat).
Proof.
  intros Hb. rewrite (rate_value a Hb).
  change (JS.Fin 0) with (JS.Fin (Qred (inject_Z 0))).
  rewrite fin_eq, (ratio_eq a 0 Hb). lia.
Qed.

Lemma filter_all {A : Type} (f : A -> bool) l :
  List.length (List.filter f l) = List.length l
  <-> Forall (fun x => f x = true) l.
Proof.
  induction l as [|a l IH]; simpl.
  - split; [constructor | reflexivity].
  - pose proof (filter_length_le f l) as Hle.
    destruct (f a) eqn:E; simpl; split.
    + intros H. constructor; [exact E | apply IH; lia].
    + intros H. inversion H; subst. f_equal. now apply IH.
    + intros H. lia.
    + intros H. inversion H; subst. congruence.
Qed.

Lemma filter_none {A : Type} (f : A -> bool) l :
  List.length (List.filter f l) = 0%nat <-> Forall (fun x => f x = false) l.
Proof.
  induction l as [|a l IH]; simpl.
  - split; [constructor | reflexivity].
  - destruct (f a) eqn:E; simpl; split.
    + discriminate.
    + intros H. inversion H; subst. congruence.
    + intros H. constructor; [exact E | now apply IH].
    + intros H. inversion H; subst. now apply IH.
Qed.

End RateFacts.

(** X12.  For a dataset with at least one row, the acceptance rate of a
    result is 1 exactly when the decision of every row is "accept", and 0
    exactly when the decision of no row is. *)
Theorem X12_acceptance_rate_extremes :
  forall printFloat data info,
    getSubmissionInfoOfData printFloat data = JS.Ok info ->
    data <> [] ->
    (acceptanceRate (infoData info) = JS.Fin 1
     <-> Forall (fun row =>
                   JS.strictEqStr (prop row "decision") "accept" = true) data)
    /\ (acceptanceRate (infoData info) = JS.Fin 0
        <-> Forall (fun row =>
                      JS.strictEqStr (prop row "decision") "accept" = false)
                   data).
Proof.
  intros pf data info H Hne.
  unfold getSubmissionInfoOfData in H.
  apply LoopFacts.bind_Ok in H as (rows & Hrows & H).
  apply LoopFacts.bind_Ok in H as (tracks & _ & H).
  injection H as <-. cbn [infoData acceptanceRate].
  apply SubmissionFacts.rowLoop_Ok in Hrows as (_ & _ & Hacc & _).
  cbn [RowLoop.acceptedSubs app] in Hacc. rewrite Hacc.
  assert (Hb : (0 < List.length data)%nat)
    by (destruct data; [congruence | simpl; lia]).
  split.
  - transitivity (List.length (acceptedIn data) = List.length data).
    + exact (RateFacts.rate_is_one (List.length (acceptedIn data)) Hb).
    + apply RateFacts.filter_all.
  - transitivity (List.length (acceptedIn data) = 0%nat).
    + exact (RateFacts.rate_is_zero (List.length (acceptedIn data)) Hb).
    + apply RateFacts.filter_none.
Qed.

Lemma X12_witness :
  exists info,
    getSubmissionInfoOfData printDecimal
      [submissionRow 2 "Full Papers" "Grace Hopper" "2020-01-01 11:00"
         "Compilers" "Accept"] = JS.Ok info
    /\ acceptanceRate (infoData info) = JS.Fin 0.
Proof.
  destruct (getSubmissionInfoOfData printDecimal
              [submissionRow 2 "Full Papers" "Grace Hopper" "2020-01-01 11:00"
                 "Compilers" "Accept"]) as [info|e] eqn:Hrun;
    [|vm_compute in Hrun; discriminate Hrun].
  exists info. split; [reflexivity|].
  apply (@X12_acceptance_rate_extremes printDecimal _ info Hrun).
  - discriminate.
  - constructor; [reflexivity | constructor].
Defined.
